(** * Football video analysis: the client, the normalizer and the sampler

    A shallow embedding of the TypeScript front end of the football
    analysis tool (frontend/src/lib/api.ts, lib/types.ts, App.tsx and the
    components VideoUploader, VideoTimestampOverlay and SummaryPanel),
    and of the normalizer and the frame sampler of the analysis service as
    the specification describes them (the Python sources of the service
    are not among the files), followed by the properties the
    specification states.

    Conventions.
    - A JavaScript number is NaN, plus or minus Infinity, or a finite value
      carried as an exact rational: the rounding of binary64 arithmetic and
      the sign of zero are outside the model.
    - A value of unknown shape (a parsed JSON body) is a [Js.value].
    - A function that throws returns an [outcome]; a function that talks to
      the server threads the list of requests sent so far.
    - What a handler reads from the browser (the response of the server,
      the events of a video element, the URL of a file) is an argument of
      its model. *)

From Stdlib Require Import ZArith QArith Qround Qabs Qminmax Bool List String Ascii Lia.
From Stdlib Require Import DecimalString.
Import ListNotations.

Open Scope string_scope.
Open Scope list_scope.

(* ===================================================================== *)
(** ** JavaScript numbers *)
(* ===================================================================== *)

Module JsNumber.

(** NaN, a finite value, or an infinity with its sign. *)
Inductive ext (A : Type) : Type :=
| NaN
| Fin (a : A)
| Infinity (negative : bool).
Arguments NaN {A}.
Arguments Fin {A} a.
Arguments Infinity {A} negative.

(** A number, and a number known to be integral (what Math.floor and
    Math.round return). *)
Definition number : Type := ext Q.
Definition integral : Type := ext Z.

Definition of_Z (z : Z) : number := Fin (inject_Z z).
Definition of_nat (n : nat) : number := of_Z (Z.of_nat n).

Definition of_integral (i : integral) : number :=
  match i with
  | NaN => NaN
  | Fin z => of_Z z
  | Infinity s => Infinity s
  end.

Definition Qltb (a b : Q) : bool := negb (Qle_bool b a).

(** [x < y]; false as soon as one side is NaN. *)
Definition lt (x y : number) : bool :=
  match x, y with
  | NaN, _ | _, NaN => false
  | Fin a, Fin b => Qltb a b
  | Fin _, Infinity s => negb s
  | Infinity s, Fin _ => s
  | Infinity s1, Infinity s2 => s1 && negb s2
  end.

(** [x <= y]. *)
Definition le (x y : number) : bool :=
  match x, y with
  | NaN, _ | _, NaN => false
  | Fin a, Fin b => Qle_bool a b
  | Fin _, Infinity s => negb s
  | Infinity s, Fin _ => s
  | Infinity s1, Infinity s2 => s1 || negb s2
  end.

Definition gt (x y : number) : bool := lt y x.
Definition ge (x y : number) : bool := le y x.

(** [x === y] on numbers. *)
Definition strict_eq (x y : number) : bool :=
  match x, y with
  | Fin a, Fin b => Qeq_bool a b
  | Infinity s1, Infinity s2 => Bool.eqb s1 s2
  | _, _ => false
  end.

Definition isNaN (x : number) : bool :=
  match x with NaN => true | _ => false end.

Definition is_zero (a : Q) : bool := Qeq_bool a 0.

Definition add (x y : number) : number :=
  match x, y with
  | NaN, _ | _, NaN => NaN
  | Fin a, Fin b => Fin (Qred (a + b))
  | Fin _, Infinity s | Infinity s, Fin _ => Infinity s
  | Infinity s1, Infinity s2 => if Bool.eqb s1 s2 then Infinity s1 else NaN
  end.

Definition mul (x y : number) : number :=
  match x, y with
  | NaN, _ | _, NaN => NaN
  | Fin a, Fin b => Fin (Qred (a * b))
  | Fin a, Infinity s | Infinity s, Fin a =>
      if is_zero a then NaN else Infinity (xorb s (Qltb a 0))
  | Infinity s1, Infinity s2 => Infinity (xorb s1 s2)
  end.

(** [x / y]: 0/0 is NaN, a non-zero value over 0 is an infinity. *)
Definition div (x y : number) : number :=
  match x, y with
  | NaN, _ | _, NaN => NaN
  | Fin a, Fin b =>
      if is_zero b
      then (if is_zero a then NaN else Infinity (Qltb a 0))
      else Fin (Qred (a / b))
  | Fin _, Infinity _ => Fin 0
  | Infinity s, Fin b => Infinity (xorb s (Qltb b 0))
  | Infinity _, Infinity _ => NaN
  end.

(** Truncation toward zero. *)
Definition Qtrunc (a : Q) : Z :=
  if Qltb a 0 then Qceiling a else Qfloor a.

(** [x % y]: the remainder has the sign of the dividend. *)
Definition rem (x y : number) : number :=
  match x, y with
  | NaN, _ | _, NaN => NaN
  | Infinity _, _ => NaN
  | Fin a, Infinity _ => Fin a
  | Fin a, Fin b =>
      if is_zero b then NaN
      else Fin (Qred (a - b * inject_Z (Qtrunc (a / b))))
  end.

Definition Math_floor (x : number) : integral :=
  match x with
  | NaN => NaN
  | Fin a => Fin (Qfloor a)
  | Infinity s => Infinity s
  end.

(** Math.round: to the nearest integer, a half goes up. *)
Definition Math_round (x : number) : integral :=
  match x with
  | NaN => NaN
  | Fin a => Fin (Qfloor (a + (1 # 2)))
  | Infinity s => Infinity s
  end.

Definition Math_max (x y : number) : number :=
  match x, y with
  | NaN, _ | _, NaN => NaN
  | _, _ => if lt x y then y else x
  end.

(** The decimal digits of an integer, with a leading minus sign when it
    is negative. This is how JavaScript writes an integer whose absolute
    value is below 1e21, and it is used for such integers only. *)
Definition decimal (z : Z) : string :=
  NilZero.string_of_int (Z.to_int z).

(** From 1e21 on JavaScript writes a number in exponent notation. *)
Definition EXPONENT_FROM : Z := 10 ^ 21.

(** [i.toString()] for an integral value: the decimal digits below 1e21.
    From 1e21 on the text is in exponent notation, with the fewest digits
    that read back as the same binary64 value, which the integer alone
    does not determine: [exponential] gives that text. *)
Definition toString (exponential : Z -> string) (i : integral) : string :=
  match i with
  | NaN => "NaN"
  | Fin z => if (Z.abs z <? EXPONENT_FROM)%Z then decimal z else exponential z
  | Infinity false => "Infinity"
  | Infinity true => "-Infinity"
  end.

End JsNumber.
Import JsNumber.

(* ===================================================================== *)
(** ** Strings *)
(* ===================================================================== *)

Module JsString.

Fixpoint repeat_char (c : ascii) (n : nat) : string :=
  match n with
  | O => EmptyString
  | S n' => String c (repeat_char c n')
  end.

(** [s.padStart(targetLength, c)] for a one-character pad string. *)
Definition padStart (s : string) (targetLength : nat) (c : ascii) : string :=
  if (targetLength <=? String.length s)%nat then s
  else repeat_char c (targetLength - String.length s) ++ s.

(** [s.startsWith(p)]. *)
Definition startsWith (s p : string) : bool := String.prefix p s.

(** [s.includes(sub)]. *)
Fixpoint includes (s sub : string) : bool :=
  String.prefix sub s
  || match s with
     | EmptyString => false
     | String _ s' => includes s' sub
     end.

(** [parts.join(sep)]. *)
Fixpoint join (sep : string) (parts : list string) : string :=
  match parts with
  | [] => ""
  | [p] => p
  | p :: rest => p ++ sep ++ join sep rest
  end.

End JsString.
Import JsString.

(* ===================================================================== *)
(** ** Untyped values, exceptions *)
(* ===================================================================== *)

Module Js.

(** What JSON.parse can produce, plus [Undefined] for a property that is
    not there. *)
#[warnings="-register-all"]
Inductive value : Type :=
| Undefined
| Null
| Bool (b : bool)
| Number (n : number)
| Str (s : string)
| Array (items : list value)
| Object (props : list (string * value)).

(** Truthiness, as tested by [!v], [a || b] and [if (v)]. *)
Definition truthy (v : value) : bool :=
  match v with
  | Undefined | Null => false
  | Bool b => b
  | Number NaN => false
  | Number (Fin q) => negb (is_zero q)
  | Number (Infinity _) => true
  | Str s => negb (s =? "")
  | Array _ | Object _ => true
  end.

(** [a || b]. *)
Definition or_else (a b : value) : value := if truthy a then a else b.

Definition isArray (v : value) : bool :=
  match v with Array _ => true | _ => false end.

(** [new Error(arg)], whose message is [arg] converted to a string (the
    string itself when [arg] is one), a TypeError or a SyntaxError. *)
Inductive exn : Type :=
| Error (arg : value)
| TypeError (message : string)
| SyntaxError (message : string).

Inductive outcome (A : Type) : Type :=
| Return (a : A)
| Throw (e : exn).
Arguments Return {A} a.
Arguments Throw {A} e.

Fixpoint lookup (p : string) (props : list (string * value)) : value :=
  match props with
  | [] => Undefined
  | (k, v) :: rest => if k =? p then v else lookup p rest
  end.

(** [v.p] for a property name [p] that no primitive and no array has
    (detail, message, frames): reading it off undefined or null throws. *)
Definition get (v : value) (p : string) : outcome value :=
  match v with
  | Undefined | Null =>
      Throw (TypeError ("Cannot read properties of null (reading '" ++ p ++ "')"))
  | Object props => Return (lookup p props)
  | _ => Return Undefined
  end.

(** The property [p] of a parsed body, [Undefined] when there is none. *)
Definition field (v : value) (p : string) : value :=
  match v with
  | Object props => lookup p props
  | _ => Undefined
  end.

End Js.
Import Js.

(* ===================================================================== *)
(** ** lib/types.ts *)
(* ===================================================================== *)

Module Types.

Record FrameAnalysis : Type := {
  timestamp : number;
  event : string;
  ball_position : string;
  players_detected : number;
  team_a_shape : string;
  team_b_shape : string;
  tactical_notes : string
}.

Record AnalysisResponse : Type := {
  frames : list FrameAnalysis;
  total_frames : number;
  status : string
}.

End Types.

(* ===================================================================== *)
(** ** The browser: files, form data, fetch *)
(* ===================================================================== *)

Module Browser.

(** A File: its name, its MIME type and its size in bytes. *)
Record File : Type := {
  name : string;
  type : string;
  size : Z
}.

Record Blob : Type := { blob_size : Z }.

(** One entry of a FormData body: a file, or the text of a number
    ([n.toString()], kept as the number it renders). *)
Inductive FormValue : Type :=
| FormFile (f : File)
| FormNumber (n : number).

Definition FormData : Type := list (string * FormValue).

Record Request : Type := {
  url : string;
  method : string;
  body : FormData
}.

(** A response: [json] is the parsed body, or [None] when the body is
    missing or is not JSON (response.json() then rejects). *)
Record Response : Type := {
  ok : bool;
  status : Z;
  statusText : string;
  json : option value;
  blob : option Blob
}.

(** What fetch settles to: a rejection or a response. *)
Inductive Settled : Type :=
| Rejected (e : exn)
| Resolved (r : Response).

End Browser.
Import Browser.

(* ===================================================================== *)
(** ** Effects: exceptions over the log of requests sent *)
(* ===================================================================== *)

Module Effect.

Definition M (A : Type) : Type := list Request -> outcome A * list Request.

Definition ret {A : Type} (a : A) : M A := fun log => (Return a, log).

Definition throw {A : Type} (e : exn) : M A := fun log => (Throw e, log).

Definition bind {A B : Type} (m : M A) (k : A -> M B) : M B :=
  fun log =>
    match m log with
    | (Return a, log') => k a log'
    | (Throw e, log') => (Throw e, log')
    end.

(** [try { m } catch (error) { handler error }]. *)
Definition try_catch {A : Type} (m : M A) (handler : exn -> M A) : M A :=
  fun log =>
    match m log with
    | (Return a, log') => (Return a, log')
    | (Throw e, log') => handler e log'
    end.

Definition lift {A : Type} (o : outcome A) : M A := fun log => (o, log).

(** [if (cond) throw e]. *)
Definition throw_if (cond : bool) (e : exn) : M unit :=
  if cond then throw e else ret tt.

(** A function run from a page that has sent nothing yet. *)
Definition run {A : Type} (m : M A) : outcome A * list Request := m [].

End Effect.
Import Effect.

Declare Scope js_scope.
Delimit Scope js_scope with js.
Notation "x <- m ;; k" := (bind m (fun x => k))
  (at level 61, m at next level, right associativity) : js_scope.
Notation "m ;; k" := (bind m (fun _ => k))
  (at level 61, right associativity) : js_scope.

(* ===================================================================== *)
(** ** lib/api.ts *)
(* ===================================================================== *)

Module Api.

Record AnalysisConfig : Type := {
  frame_interval : number;
  max_duration : number
}.

(** An optional number argument: left out, null, or given. *)
Inductive optional_number : Type :=
| Omitted
| IsNull
| Given (n : number).

Section WithServer.

(** The configured base URL and the server behind fetch. *)
Variable API_URL : string.
Variable server : Request -> Settled.

Definition fetch (req : Request) : M Response :=
  fun log =>
    (match server req with
     | Rejected e => Throw e
     | Resolved r => Return r
     end, log ++ [req]).

(** [await response.json()]. *)
Definition response_json (r : Response) : outcome value :=
  match json r with
  | Some v => Return v
  | None => Throw (SyntaxError "Unexpected end of JSON input")
  end.

(** The [files.forEach] loop: every element must be a File ([None] is an
    element that is not one); files are appended under the key videos. *)
Fixpoint append_files (files : list (option File)) (formData : FormData)
  : outcome FormData :=
  match files with
  | [] => Return formData
  | None :: _ => Throw (Error (Str "Invalid file provided"))
  | Some file :: rest => append_files rest (formData ++ [("videos", FormFile file)])
  end.

(** The message computed in the [!response.ok] branch: detail or message
    of the JSON error body, else the default; when the body cannot be read
    as JSON, or is null, the status text, else the status code. *)
Definition errorMessage (default : string) (response : Response) : value :=
  let from_body :=
    match response_json response with
    | Throw e => Throw e
    | Return errorData =>
        match get errorData "detail" with
        | Throw e => Throw e
        | Return detail =>
            if truthy detail then Return detail
            else
              match get errorData "message" with
              | Throw e => Throw e
              | Return message => Return (or_else message (Str default))
              end
        end
    end in
  match from_body with
  | Return m => m
  | Throw _ =>
      or_else (Str (statusText response))
              (Str ("Server error (" ++ decimal (status response) ++ ")"))
  end.

(** The error thrown for a response that is not ok. *)
Definition http_error (default : string) (response : Response) : exn :=
  let errorMessage := errorMessage default response in
  if (status response =? 400)%Z then
    Error (or_else errorMessage
             (Str "Invalid request. Please check your video files and settings."))
  else if (status response =? 413)%Z then
    Error (Str "File too large. Maximum file size is 100MB.")
  else if (status response =? 500)%Z then
    Error (Str "Server error. Please try again later.")
  else if (status response >=? 500)%Z then
    Error (Str ("Server error (" ++ decimal (status response)
                ++ "). Please try again later."))
  else
    Error errorMessage.

(** The outer [catch]: a TypeError that mentions fetch becomes a network
    error, anything else is thrown again. *)
Definition rethrow {A : Type} (error : exn) : M A :=
  match error with
  | TypeError message =>
      if includes message "fetch"
      then throw (Error (Str "Network error. Please check your connection and try again."))
      else throw error
  | _ => throw error
  end.

(** [!files || files.length === 0], then [files.length > 6]. *)
Definition check_files (files : option (list (option File)))
  : M (list (option File)) :=
  match files with
  | None | Some [] => throw (Error (Str "No files provided"))
  | Some l =>
      if (6 <? List.length l)%nat
      then throw (Error (Str "Maximum 6 videos allowed"))
      else ret l
  end.

Open Scope js_scope.

Definition uploadVideos (files : option (list (option File)))
  (config : AnalysisConfig) : M value :=
  try_catch
    (files <- check_files files ;;
     throw_if (le (frame_interval config) (of_Z 0))
       (Error (Str "Frame interval must be greater than 0")) ;;
     throw_if (le (max_duration config) (of_Z 0))
       (Error (Str "Max duration must be greater than 0")) ;;
     formData <- lift (append_files files []) ;;
     let formData := formData
       ++ [("frame_interval", FormNumber (frame_interval config))]
       ++ [("max_duration", FormNumber (max_duration config))] in
     response <- fetch {| url := API_URL ++ "/api/analyze";
                          method := "POST";
                          body := formData |} ;;
     throw_if (negb (ok response)) (http_error "Failed to upload videos" response) ;;
     result <- lift (response_json response) ;;
     throw_if (negb (truthy result)) (Error (Str "Invalid response from server")) ;;
     frames <- lift (get result "frames") ;;
     throw_if (negb (isArray frames))
       (Error (Str "Invalid response format: frames must be an array")) ;;
     ret result)
    rethrow.

Definition addTimestampOverlay (files : option (list (option File)))
  (maxDuration : optional_number) : M Blob :=
  try_catch
    (files <- check_files files ;;
     match maxDuration with
     | Given n =>
         throw_if (le n (of_Z 0)) (Error (Str "Max duration must be greater than 0")) ;;
         throw_if (gt n (of_Z 60)) (Error (Str "Max duration cannot exceed 60 seconds"))
     | Omitted | IsNull => ret tt
     end ;;
     formData <- lift (append_files files []) ;;
     let formData :=
       match maxDuration with
       | Given n => formData ++ [("max_duration", FormNumber n)]
       | Omitted | IsNull => formData
       end in
     response <- fetch {| url := API_URL ++ "/api/video/timestamp-overlay";
                          method := "POST";
                          body := formData |} ;;
     throw_if (negb (ok response)) (http_error "Failed to process video" response) ;;
     match blob response with
     | None => throw (Error (Str "Invalid response from server: empty video file"))
     | Some b =>
         if (blob_size b =? 0)%Z
         then throw (Error (Str "Invalid response from server: empty video file"))
         else ret b
     end)
    rethrow.

Close Scope js_scope.

End WithServer.

End Api.

(* ===================================================================== *)
(** ** The App component *)
(* ===================================================================== *)

(** src/frontend/src/App.tsx: the handler receives the frames only. *)
Module App.

Record State : Type := {
  frames : value;
  error : option string
}.

Definition initial : State := {| frames := Array []; error := None |}.

Definition handleAnalysisComplete (analysisFrames : value) (st : State) : State :=
  if negb (isArray analysisFrames)
  then {| frames := frames st; error := Some "Invalid frames data received" |}
  else {| frames := analysisFrames; error := None |}.

End App.

(** The App component that keeps the status of the analysis (the version
    listed with lib/types.ts): the handler receives the whole response. *)
Module AppWithStatus.

Record State : Type := {
  frames : value;
  error : option string;
  analysisStatus : value
}.

Definition initial : State :=
  {| frames := Array []; error := None; analysisStatus := Null |}.

(** [v.length], read for the console: it throws off undefined or null. *)
Definition read_length (v : value) : outcome unit :=
  match v with
  | Undefined | Null =>
      Throw (TypeError "Cannot read properties of undefined (reading 'length')")
  | _ => Return tt
  end.

Definition handleAnalysisComplete (result : value) (st : State) : outcome State :=
  match get result "frames" with
  | Throw e => Throw e
  | Return result_frames =>
      match read_length result_frames with
      | Throw e => Throw e
      | Return _ =>
          match get result "status" with
          | Throw e => Throw e
          | Return result_status =>
              if negb (isArray result_frames)
              then Return {| frames := frames st;
                             error := Some "Invalid frames data received";
                             analysisStatus := analysisStatus st |}
              else Return {| frames := result_frames;
                             error := None;
                             analysisStatus := result_status |}
          end
      end
  end.

(** [analysisStatus === 'partial']. *)
Definition is_partial (status : value) : bool :=
  match status with
  | Str s => s =? "partial"
  | _ => false
  end.

Definition quota_notice : string :=
  "API quota exhausted. Some frames were analyzed successfully, but others could not be processed due to daily quota limits (20 requests/day for free tier). Please upgrade your plan or try again tomorrow.".

(** The text of the amber card, when it is rendered. *)
Definition partial_notice (st : State) : option string :=
  if is_partial (analysisStatus st) then Some quota_notice else None.

End AppWithStatus.

(* ===================================================================== *)
(** ** components/SummaryPanel.tsx *)
(* ===================================================================== *)

Module SummaryPanel.
Import Types.

(** What a counter holds under a key: a count, or a text. A text comes
    up under the name of a method inherited from Object.prototype, where
    [c[key]] first reads the method: the method plus 1 is its source text
    with a 1 at the end, and every later count appends another 1. A text
    is no number. *)
Inductive tally : Type :=
| Count (n : nat)
| Text.

(** A [Record<string, number>] filled by counting: its own properties, in
    the order of their creation. *)
Definition counts : Type := list (string * tally).

(** The names of the methods an object literal inherits. *)
Definition inherited_methods : list string :=
  [ "constructor"; "hasOwnProperty"; "isPrototypeOf"; "propertyIsEnumerable";
    "toLocaleString"; "toString"; "valueOf";
    "__defineGetter__"; "__defineSetter__"; "__lookupGetter__"; "__lookupSetter__" ].

Definition inherited (key : string) : bool :=
  existsb (String.eqb key) inherited_methods.

(** [v + 1] for what stands under a key. *)
Definition add_one (t : tally) : tally :=
  match t with
  | Count n => Count (S n)
  | Text => Text
  end.

(** [c[key] = (c[key] || 0) + 1] for a key other than __proto__: an own
    property is counted up, a new one is created. *)
Fixpoint store (key : string) (c : counts) : counts :=
  match c with
  | [] => [(key, if inherited key then Text else Count 1%nat)]
  | (k, t) :: rest => if k =? key then (k, add_one t) :: rest else (k, t) :: store key rest
  end.

(** [c[key] = (c[key] || 0) + 1]. Under __proto__ the object reads its
    prototype, and the assignment of the text that the addition gives is
    ignored: nothing is stored. *)
Definition bump (key : string) (c : counts) : counts :=
  if key =? "__proto__" then c else store key c.

Definition nonempty (s : string) : bool := negb (s =? "").

(** [f.event && f.event !== 'none' && f.event !== 'unknown']. *)
Definition is_event (f : FrameAnalysis) : bool :=
  nonempty (event f) && negb (event f =? "none") && negb (event f =? "unknown").

Definition has_shape (shape : string) : bool :=
  nonempty shape && negb (shape =? "Unknown").

Definition ball_visible (f : FrameAnalysis) : bool :=
  nonempty (ball_position f) && negb (ball_position f =? "Not visible").

(** The variables the [forEach] loop updates. *)
Record Acc : Type := {
  eventBreakdown_acc : counts;
  teamAShapes : counts;
  teamBShapes : counts;
  totalPlayers : number;
  ballVisibleCount : nat
}.

Definition acc0 : Acc :=
  {| eventBreakdown_acc := []; teamAShapes := []; teamBShapes := [];
     totalPlayers := of_Z 0; ballVisibleCount := 0 |}.

(** One turn of the loop. *)
Definition visit (a : Acc) (frame : FrameAnalysis) : Acc :=
  {| eventBreakdown_acc :=
       if is_event frame then bump (event frame) (eventBreakdown_acc a)
       else eventBreakdown_acc a;
     teamAShapes :=
       if has_shape (team_a_shape frame) then bump (team_a_shape frame) (teamAShapes a)
       else teamAShapes a;
     teamBShapes :=
       if has_shape (team_b_shape frame) then bump (team_b_shape frame) (teamBShapes a)
       else teamBShapes a;
     totalPlayers := add (totalPlayers a) (players_detected frame);
     ballVisibleCount :=
       if ball_visible frame then S (ballVisibleCount a) else ballVisibleCount a |}.

(** A property name that is an array index: the decimal writing of an
    integer below 2^32 - 1. Object.entries lists such names first, in
    increasing order, and the other names after them in the order of their
    creation. *)
Definition array_index (key : string) : option Z :=
  match NilEmpty.uint_of_string key with
  | Some d =>
      let n := Z.of_uint d in
      if (decimal n =? key) && (n <? 4294967295)%Z then Some n else None
  | None => None
  end.

Fixpoint insert_index (e : Z * (string * tally)) (l : list (Z * (string * tally)))
  : list (Z * (string * tally)) :=
  match l with
  | [] => [e]
  | x :: rest => if (fst e <? fst x)%Z then e :: l else x :: insert_index e rest
  end.

Fixpoint index_entries (c : counts) : list (Z * (string * tally)) :=
  match c with
  | [] => []
  | (k, t) :: rest =>
      match array_index k with
      | Some i => insert_index (i, (k, t)) (index_entries rest)
      | None => index_entries rest
      end
  end.

(** [Object.entries(c)]. *)
Definition Object_entries (c : counts) : counts :=
  map snd (index_entries c)
  ++ filter (fun kv => match array_index (fst kv) with None => true | Some _ => false end) c.

Definition is_count (t : tally) : bool :=
  match t with Count _ => true | Text => false end.

Definition count_of (t : tally) : nat :=
  match t with Count n => n | Text => 0%nat end.

(** The first key of the sorted entries, or that key left to the engine
    among the keys of the entries. *)
Inductive favourite : Type :=
| Chosen (key : string)
| LeftToTheEngine (keys : list string).

(** [key || fallback]. *)
Definition key_or (fallback key : string) : string :=
  if key =? "" then fallback else key.

(** [Object.entries(c).sort((a, b) => b[1] - a[1])[0]?.[0] || fallback].
    Between counts the sort is stable, so its first entry is the first of
    the entries that has the largest count. Where a text is compared the
    difference is NaN, which the sort reads as 0: with the counts, if any,
    all equal, every entry then equals every other and the order of the
    entries is kept; with counts that differ the comparison is not
    consistent and the order of the result is left to the engine. *)
Definition most_common (c : counts) (fallback : string) : favourite :=
  match Object_entries c with
  | [] => Chosen fallback
  | e :: rest =>
      if forallb (fun x => is_count (snd x)) (e :: rest) then
        let best :=
          fold_left (fun best x => if (count_of (snd best) <? count_of (snd x))%nat
                                   then x else best)
                    rest e in
        Chosen (key_or fallback (fst best))
      else
        match filter (fun x => is_count (snd x)) (e :: rest) with
        | [] => Chosen (key_or fallback (fst e))
        | x :: others =>
            if forallb (fun y => (count_of (snd y) =? count_of (snd x))%nat) others
            then Chosen (key_or fallback (fst e))
            else LeftToTheEngine (map fst (e :: rest))
        end
  end.

Record Formation : Type := {
  teamA : favourite;
  teamB : favourite
}.

Record Summary : Type := {
  totalEvents : nat;
  eventBreakdown : counts;
  avgPlayersDetected : number;
  mostCommonFormation : Formation;
  ballVisibilityRate : integral;
  mostCommonEvent : favourite
}.

Definition summary (frames : list FrameAnalysis) : Summary :=
  let totalEvents := List.length (filter is_event frames) in
  let a := fold_left visit frames acc0 in
  let avgPlayersDetected :=
    if (0 <? List.length frames)%nat
    then div (totalPlayers a) (of_nat (List.length frames))
    else of_Z 0 in
  let ballVisibilityRate :=
    if (0 <? List.length frames)%nat
    then div (of_nat (ballVisibleCount a)) (of_nat (List.length frames))
    else of_Z 0 in
  let mostCommonFormationA := most_common (teamAShapes a) "Unknown" in
  let mostCommonFormationB := most_common (teamBShapes a) "Unknown" in
  let mostCommonEvent := most_common (eventBreakdown_acc a) "None" in
  {| totalEvents := totalEvents;
     eventBreakdown := eventBreakdown_acc a;
     avgPlayersDetected :=
       div (of_integral (Math_round (mul avgPlayersDetected (of_Z 10)))) (of_Z 10);
     mostCommonFormation :=
       {| teamA := mostCommonFormationA; teamB := mostCommonFormationB |};
     ballVisibilityRate := Math_round (mul ballVisibilityRate (of_Z 100));
     mostCommonEvent := mostCommonEvent |}.

(** The two quotients as they would be without the [frames.length > 0]
    test. *)
Definition unguarded_average (frames : list FrameAnalysis) : number :=
  div (totalPlayers (fold_left visit frames acc0)) (of_nat (List.length frames)).

Definition unguarded_rate (frames : list FrameAnalysis) : number :=
  div (of_nat (ballVisibleCount (fold_left visit frames acc0)))
      (of_nat (List.length frames)).

End SummaryPanel.

(* ===================================================================== *)
(** ** What the upload components share *)
(* ===================================================================== *)

Module Media.

(** The first thing that happens to the hidden video element after the
    validation started: its metadata loads, it reports an error (with the
    code of video.error, if any), the timer fires, or createObjectURL
    throws. Later events find [resolved] set and do nothing. *)
Inductive MediaOutcome : Type :=
| LoadedMetadata (duration : number)
| MediaFailed (code : option nat)
| TimedOut
| ObjectURLThrows.

Definition MEDIA_ERR_ABORTED : nat := 1.
Definition MEDIA_ERR_NETWORK : nat := 2.
Definition MEDIA_ERR_DECODE : nat := 3.
Definition MEDIA_ERR_SRC_NOT_SUPPORTED : nat := 4.

(** What validateVideo resolves to. *)
Record Validation : Type := {
  valid : bool;
  duration : number;
  durationEstimated : option bool;
  error : option string
}.

Definition invalid (duration : number) (message : string) : Validation :=
  {| valid := false; duration := duration; durationEstimated := None;
     error := Some message |}.

(** [x.toFixed(1)] (below 1e21). *)
Definition toFixed1 (x : number) : string :=
  match x with
  | NaN => "NaN"
  | Infinity false => "Infinity"
  | Infinity true => "-Infinity"
  | Fin q =>
      let n := Qfloor (Qabs q * 10 + (1 # 2)) in
      (if Qltb q 0 then "-" else "")
      ++ decimal (n / 10) ++ "." ++ decimal (n mod 10)
  end.

(** [file.size / 1024 / 1024]. *)
Definition megabytes (size : Z) : number :=
  div (div (of_Z size) (of_Z 1024)) (of_Z 1024).

(** [Math.max(1, file.size / (1024 * 1024) / 1.5)]. *)
Definition estimatedDuration (size : Z) : number :=
  Math_max (of_Z 1) (div (div (of_Z size) (of_Z (1024 * 1024))) (Fin (3 # 2))).

(** [URL.createObjectURL(file)] in the selection handler: a URL, or the
    text reported for what it threw (its message, or Validation failed
    when it is not an Error). *)
Inductive ObjectURL : Type :=
| Url (u : string)
| UrlThrows (message : string).

(** What a selection handler asks of the component state: the calls to
    setError, in order, and the videos handed to
    [setVideos(prev => [...prev, ...newVideos])]. *)
Record Update (V : Type) : Type := {
  setError : list (option string);
  newVideos : list V
}.
Arguments setError {V} u.
Arguments newVideos {V} u.

End Media.
Import Media.

(* ===================================================================== *)
(** ** components/VideoUploader.tsx *)
(* ===================================================================== *)

Module VideoUploader.

Record VideoFile : Type := {
  file : File;
  preview : string;
  duration : number
}.

Section Component.

(** [`${n}`] for an arbitrary number: the shortest decimal that reads back
    as the same binary64 value, which a rational cannot tell. *)
Variable Number_toString : number -> string.
(** The browser, per file. *)
Variable media : File -> MediaOutcome.
Variable createObjectURL : File -> ObjectURL.
(** The state the handlers close over. *)
Variable maxDuration : number.

(** [None] is an argument that is not a File. *)
Definition validateVideo (f : option File) : Validation :=
  match f with
  | None => invalid (of_Z 0) "Invalid file"
  | Some file =>
      if negb (startsWith (type file) "video/") then
        invalid (of_Z 0) "File must be a video file"
      else
        let maxSize := (100 * 1024 * 1024)%Z in
        if (size file >? maxSize)%Z then
          invalid (of_Z 0)
            ("File size (" ++ toFixed1 (megabytes (size file)) ++ "MB) exceeds 100MB limit")
        else if (size file =? 0)%Z then
          invalid (of_Z 0) "File is empty"
        else
          match media file with
          | TimedOut =>
              invalid (of_Z 0) "Video validation timeout. File may be corrupted."
          | LoadedMetadata duration =>
              if isNaN duration || le duration (of_Z 0) then
                invalid (of_Z 0) "Could not determine video duration"
              else if gt duration maxDuration then
                invalid duration
                  ("Video duration (" ++ toFixed1 duration ++ "s) exceeds "
                   ++ Number_toString maxDuration ++ " seconds")
              else
                {| valid := true; Media.duration := duration;
                   durationEstimated := None; error := None |}
          | MediaFailed code =>
              let message :=
                match code with
                | Some 1%nat => "Video loading was aborted"
                | Some 2%nat => "Network error while loading video"
                | Some 3%nat => "Video file is corrupted or in unsupported format"
                | Some 4%nat => "Video format is not supported"
                | _ => "Could not read video file"
                end in
              invalid (of_Z 0) message
          | ObjectURLThrows =>
              invalid (of_Z 0) "Failed to create video preview"
          end
  end.

(** The [for (const file of fileArray)] loop, with its two accumulators. *)
Fixpoint validate_all (fileArray : list File)
  (newVideos : list VideoFile) (errors : list string)
  : list VideoFile * list string :=
  match fileArray with
  | [] => (newVideos, errors)
  | f :: rest =>
      let validation := validateVideo (Some f) in
      if negb (valid validation) then
        validate_all rest newVideos
          (errors ++ [(name f ++ ": "
                       ++ match error validation with
                          | Some e => if e =? "" then "Invalid video file" else e
                          | None => "Invalid video file"
                          end)%string])
      else
        match createObjectURL f with
        | Url preview =>
            validate_all rest
              (newVideos ++ [{| file := f; preview := preview;
                                duration := Media.duration validation |}])
              errors
        | UrlThrows message =>
            validate_all rest newVideos (errors ++ [(name f ++ ": " ++ message)%string])
        end
  end.

(** [videos_length] is the [videos.length] the handler closed over;
    [None] is a null file list. *)
Definition handleFileSelect (videos_length : nat) (files : option (list File))
  : Update VideoFile :=
  match files with
  | None | Some [] => {| setError := []; newVideos := [] |}
  | Some fileArray =>
      if (6 <? videos_length + List.length fileArray)%nat then
        {| setError := [Some "Maximum 6 videos allowed"]; newVideos := [] |}
      else
        let (newVideos, errors) := validate_all fileArray [] [] in
        {| setError :=
             [None]
             ++ (if (0 <? List.length errors)%nat
                 then
                   if (List.length newVideos =? 0)%nat
                   then [Some (join "; " errors)]
                   else [Some ("Some videos failed validation: " ++ join "; " errors)%string]
                 else []);
           newVideos := newVideos |}
  end.

End Component.

(** The state of the component, as far as selection goes, and the effect
    of an update on it. *)
Record State : Type := {
  videos : list VideoFile;
  error : option string
}.

Definition apply (u : Update VideoFile) (st : State) : State :=
  {| videos := videos st ++ newVideos u;
     error := fold_left (fun _ e => e) (setError u) (error st) |}.

End VideoUploader.

(* ===================================================================== *)
(** ** The uploader with analysis modes (src/unnamed/part_002) *)
(* ===================================================================== *)

Module VideoUploaderModes.

Inductive AnalysisMode : Type := frame | multimodal.

Definition mode_name (mode : AnalysisMode) : string :=
  match mode with frame => "frame" | multimodal => "multimodal" end.

Record VideoFile : Type := {
  file : File;
  preview : string;
  duration : number;
  durationEstimated : bool
}.

Definition estimated (size : Z) : Validation :=
  {| valid := true; Media.duration := estimatedDuration size;
     Media.durationEstimated := Some true; error := None |}.

Section Component.

Variable media : File -> MediaOutcome.
Variable createObjectURL : File -> ObjectURL.

Definition validateVideo (f : option File) (mode : AnalysisMode) : Validation :=
  match f with
  | None => invalid (of_Z 0) "Invalid file"
  | Some file =>
      if negb (startsWith (type file) "video/") then
        invalid (of_Z 0) "File must be a video file"
      else
        let maxSizeMB := match mode with multimodal => 50%Z | frame => 100%Z end in
        let maxSize := (maxSizeMB * 1024 * 1024)%Z in
        if (size file >? maxSize)%Z then
          invalid (of_Z 0)
            ("File size (" ++ toFixed1 (megabytes (size file)) ++ "MB) exceeds "
             ++ decimal maxSizeMB ++ "MB limit for " ++ mode_name mode ++ " mode")
        else if (size file =? 0)%Z then
          invalid (of_Z 0) "File is empty"
        else
          match media file with
          | TimedOut => estimated (size file)
          | LoadedMetadata duration =>
              if isNaN duration || le duration (of_Z 0) then estimated (size file)
              else
                {| valid := true; Media.duration := duration;
                   Media.durationEstimated := Some false; error := None |}
          | MediaFailed _ => estimated (size file)
          | ObjectURLThrows => estimated (size file)
          end
  end.

Fixpoint validate_all (mode : AnalysisMode) (fileArray : list File)
  (newVideos : list VideoFile) (errors : list string)
  : list VideoFile * list string :=
  match fileArray with
  | [] => (newVideos, errors)
  | f :: rest =>
      let validation := validateVideo (Some f) mode in
      if negb (valid validation) then
        validate_all mode rest newVideos
          (errors ++ [(name f ++ ": "
                       ++ match error validation with
                          | Some e => if e =? "" then "Invalid video file" else e
                          | None => "Invalid video file"
                          end)%string])
      else
        match createObjectURL f with
        | Url preview =>
            validate_all mode rest
              (newVideos ++ [{| file := f; preview := preview;
                                duration := Media.duration validation;
                                durationEstimated :=
                                  match Media.durationEstimated validation with
                                  | Some b => b
                                  | None => false
                                  end |}])
              errors
        | UrlThrows message =>
            validate_all mode rest newVideos (errors ++ [(name f ++ ": " ++ message)%string])
        end
  end.

Definition handleFileSelect (videos_length : nat) (analysisMode : AnalysisMode)
  (files : option (list File)) : Update VideoFile :=
  match files with
  | None | Some [] => {| setError := []; newVideos := [] |}
  | Some fileArray =>
      if (6 <? videos_length + List.length fileArray)%nat then
        {| setError := [Some "Maximum 6 videos allowed"]; newVideos := [] |}
      else
        let (newVideos, errors) := validate_all analysisMode fileArray [] [] in
        {| setError :=
             [None]
             ++ (if (0 <? List.length errors)%nat
                 then
                   if (List.length newVideos =? 0)%nat
                   then [Some (join "; " errors)]
                   else [Some ("Some videos failed validation: " ++ join "; " errors)%string]
                 else []);
           newVideos := newVideos |}
  end.

End Component.

Record State : Type := {
  videos : list VideoFile;
  error : option string
}.

Definition apply (u : Update VideoFile) (st : State) : State :=
  {| videos := videos st ++ newVideos u;
     error := fold_left (fun _ e => e) (setError u) (error st) |}.

End VideoUploaderModes.

(* ===================================================================== *)
(** ** The timestamp overlay component (src/unnamed/part_001) *)
(* ===================================================================== *)

Module VideoTimestampOverlay.

Section Format.

(** The text of an integer of 1e21 or more, see [toString]. *)
Variable exponential : Z -> string.

#[local] Abbreviation toString := (JsNumber.toString exponential).

(** [formatDuration], the text shown for the length of a video. *)
Definition formatDuration (seconds : number) : string :=
  let hours := Math_floor (div seconds (of_Z 3600)) in
  let minutes := Math_floor (div (rem seconds (of_Z 3600)) (of_Z 60)) in
  let secs := Math_floor (rem seconds (of_Z 60)) in
  let ms := Math_floor (mul (rem seconds (of_Z 1)) (of_Z 1000)) in
  if gt (of_integral hours) (of_Z 0) then
    toString hours ++ ":" ++ padStart (toString minutes) 2 "0"
    ++ ":" ++ padStart (toString secs) 2 "0"
    ++ "." ++ padStart (toString ms) 3 "0"
  else
    toString minutes ++ ":" ++ padStart (toString secs) 2 "0"
    ++ "." ++ padStart (toString ms) 3 "0".

End Format.

End VideoTimestampOverlay.

(* ===================================================================== *)
(** ** The normalizer of the analysis service *)
(* ===================================================================== *)

Module Normalizer.

(** Modelled from the spec: the canonical per-frame record of the analysis
    service (its Python sources are not among the files): the fields the
    data model lists, and the team identity the normalization rules and
    examples speak of. *)
Record FrameAnalysis : Type := {
  timestamp : Q;
  event : string;
  ball_position : string;
  players_detected : Z;
  team : string;
  team_a_shape : string;
  team_b_shape : string;
  tactical_notes : string
}.

(** Modelled from the spec: case-insensitive comparison, by lower-casing
    the letters A to Z. *)
Definition lower_char (c : ascii) : ascii :=
  let n := nat_of_ascii c in
  if ((65 <=? n) && (n <=? 90))%nat then ascii_of_nat (n + 32) else c.

Fixpoint to_lower (s : string) : string :=
  match s with
  | EmptyString => EmptyString
  | String c s' => String (lower_char c) (to_lower s')
  end.

Definition is_space (c : ascii) : bool := (c =? " ")%char.

Fixpoint trim_start (s : string) : string :=
  match s with
  | String c s' => if is_space c then trim_start s' else s
  | EmptyString => EmptyString
  end.

(** [s] without its trailing spaces. *)
Fixpoint trim_end (s : string) : string :=
  match s with
  | EmptyString => EmptyString
  | String c s' =>
      match trim_end s' with
      | EmptyString => if is_space c then EmptyString else String c EmptyString
      | rest => String c rest
      end
  end.

Definition trim (s : string) : string := trim_end (trim_start s).

Fixpoint mem (s : string) (l : list string) : bool :=
  match l with
  | [] => false
  | x :: rest => (x =? s) || mem s rest
  end.

(** Modelled from the spec: the spellings of the first team ("Team A",
    "TEAM 1", "1", "home", compared without case) and the symmetric ones
    of the second; the canonical names are among them. *)
Definition team_a_names : list string := ["a"; "team a"; "team 1"; "1"; "home"].
Definition team_b_names : list string := ["b"; "team b"; "team 2"; "2"; "away"].

(** Modelled from the spec: the team identity rule of the normalizer:
    a spelling of the first team gives A, one of the second gives B,
    anything else (also a value that is not text) gives unknown. *)
Definition normalize_team (v : value) : string :=
  match v with
  | Str s =>
      let key := to_lower (trim s) in
      if mem key team_a_names then "A"
      else if mem key team_b_names then "B"
      else "unknown"
  | _ => "unknown"
  end.

(** Modelled from the spec: players_detected is coerced to a non-negative
    integer; a negative value and a value that is not a number give 0. *)
Definition normalize_players (v : value) : Z :=
  match v with
  | Number (Fin q) => if Qltb q 0 then 0%Z else Qfloor q
  | _ => 0%Z
  end.

(** Modelled from the spec: a text field defaults to its sentinel when it
    is absent or empty. *)
Definition normalize_text (sentinel : string) (v : value) : string :=
  match v with
  | Str s => if s =? "" then sentinel else s
  | _ => sentinel
  end.

(** Modelled from the spec: the timestamp of the frame, 0 when the value
    is not a finite number. *)
Definition normalize_timestamp (v : value) : Q :=
  match v with
  | Number (Fin q) => q
  | _ => 0
  end.

Section Sentinels.

(** The spec names three sentinels (none, unknown, Unknown) for the
    event, the ball position and the two shapes; the one of the notes is
    left open here. *)
Variable notes_sentinel : string.

(** Modelled from the spec: [normalize(RawModelOutput) -> FrameAnalysis],
    the normalizer of the analysis service, field by field; unknown extra
    fields of the raw output are never read. *)
Definition normalize (raw : value) : FrameAnalysis :=
  {| timestamp := normalize_timestamp (field raw "timestamp");
     event := normalize_text "none" (field raw "event");
     ball_position := normalize_text "unknown" (field raw "ball_position");
     players_detected := normalize_players (field raw "players_detected");
     team := normalize_team (field raw "team");
     team_a_shape := normalize_text "Unknown" (field raw "team_a_shape");
     team_b_shape := normalize_text "Unknown" (field raw "team_b_shape");
     tactical_notes := normalize_text notes_sentinel (field raw "tactical_notes") |}.

End Sentinels.

(** A normalized record read again as raw output. *)
Definition to_raw (f : FrameAnalysis) : value :=
  Object [ ("timestamp", Number (Fin (timestamp f)));
           ("event", Str (event f));
           ("ball_position", Str (ball_position f));
           ("players_detected", Number (of_Z (players_detected f)));
           ("team", Str (team f));
           ("team_a_shape", Str (team_a_shape f));
           ("team_b_shape", Str (team_b_shape f));
           ("tactical_notes", Str (tactical_notes f)) ].

End Normalizer.

(* ===================================================================== *)
(** ** The frame sampler of the analysis service *)
(* ===================================================================== *)

Module FrameSampler.

Inductive SamplerError : Type := ConfigError | DecodeError.

Section Sampler.

(** A raw image. *)
Variable Image : Type.

(** Modelled from the spec: a video source of the analysis service (its
    Python sources are not among the files): the declared duration, the
    sampling configuration, and the decoder, which gives the image at a
    time or fails on a frame it cannot decode. *)
Record VideoSource : Type := {
  duration : Q;
  frame_interval : Q;
  max_duration : Q;
  decode : Q -> option Image
}.

(** Modelled from the spec: the sampling times [k * frame_interval] for
    [k] = [from], ..., [from + count - 1]. *)
Fixpoint times (frame_interval : Q) (from : Z) (count : nat) : list Q :=
  match count with
  | O => []
  | S count' =>
      Qred (inject_Z from * frame_interval)
      :: times frame_interval (from + 1)%Z count'
  end.

(** Modelled from the spec: a frame that cannot be decoded is skipped. *)
Fixpoint decode_all (decode : Q -> option Image) (ts : list Q)
  : list (Q * Image) :=
  match ts with
  | [] => []
  | t :: rest =>
      match decode t with
      | Some image => (t, image) :: decode_all decode rest
      | None => decode_all decode rest
      end
  end.

(** Modelled from the spec: the frame sampler: a ConfigError before any
    sampling when an argument is not positive; the first frame at 0 and
    the next ones at the multiples of frame_interval that lie within the
    duration and do not exceed max_duration; a DecodeError when no frame
    could be read. *)
Definition sample (v : VideoSource) : SamplerError + list (Q * Image) :=
  if Qle_bool (frame_interval v) 0 || Qle_bool (max_duration v) 0 then
    inl ConfigError
  else
    let limit := Qmin (duration v) (max_duration v) in
    let last := Qfloor (limit / frame_interval v) in
    match decode_all (decode v) (times (frame_interval v) 0 (Z.to_nat (last + 1))) with
    | [] => inl DecodeError
    | frames => inr frames
    end.

End Sampler.

Arguments duration {Image} v.
Arguments frame_interval {Image} v.
Arguments max_duration {Image} v.
Arguments decode {Image} v.
Arguments sample {Image} v.

End FrameSampler.

(* ===================================================================== *)
(** ** Predicates used by the statements *)
(* ===================================================================== *)

Module Props.

(** A file list the client accepts: an array of one to six Files. *)
Definition accepted_files (files : list (option File)) : bool :=
  (0 <? List.length files)%nat
  && (List.length files <=? 6)%nat
  && forallb (fun f => match f with Some _ => true | None => false end) files.

(** The form entries of a list of Files. *)
Definition video_entries (files : list (option File)) : FormData :=
  flat_map (fun f => match f with
                     | Some file => [("videos", FormFile file)]
                     | None => []
                     end) files.

(** The request uploadVideos sends. *)
Definition analyze_request (API_URL : string) (files : list (option File))
  (config : Api.AnalysisConfig) : Request :=
  {| url := API_URL ++ "/api/analyze";
     method := "POST";
     body := video_entries files
             ++ [("frame_interval", FormNumber (Api.frame_interval config));
                 ("max_duration", FormNumber (Api.max_duration config))] |}.

(** The request addTimestampOverlay sends. *)
Definition overlay_request (API_URL : string) (files : list (option File))
  (maxDuration : Api.optional_number) : Request :=
  {| url := API_URL ++ "/api/video/timestamp-overlay";
     method := "POST";
     body := video_entries files
             ++ match maxDuration with
                | Api.Given n => [("max_duration", FormNumber n)]
                | _ => []
                end |}.

(** What uploadVideos makes of a response, once the request is out. *)
Definition response_outcome (r : Response) : outcome value :=
  if negb (ok r) then Throw (Api.http_error "Failed to upload videos" r)
  else
    match json r with
    | None => Throw (SyntaxError "Unexpected end of JSON input")
    | Some result =>
        if negb (truthy result) then Throw (Error (Str "Invalid response from server"))
        else
          match result with
          | Object props =>
              if isArray (lookup "frames" props) then Return result
              else Throw (Error (Str "Invalid response format: frames must be an array"))
          | _ => Throw (Error (Str "Invalid response format: frames must be an array"))
          end
    end.

(** The status tags the specification names. *)
Definition status_tags : list string := ["complete"; "partial"; "failed"].

(** The properties of a value that hold a number. *)
Definition number_fields (v : value) : list string :=
  match v with
  | Object props =>
      map fst (filter (fun kv => match snd kv with Number _ => true | _ => false end) props)
  | _ => []
  end.

(** The result boundary as the specification words it: an array of
    frames, a status among the three tags, and two counts (attempted and
    succeeded). *)
Definition result_boundary_as_specified (v : value) : Prop :=
  isArray (field v "frames") = true
  /\ (exists tag, In tag status_tags /\ field v "status" = Str tag)
  /\ (2 <= List.length (number_fields v))%nat.

(** The names the interface AnalysisResponse declares. *)
Definition response_fields : list string := ["frames"; "total_frames"; "status"].

(** A reason carried by a response: some property besides the declared
    ones that holds something. *)
Definition carries_reason (v : value) : Prop :=
  exists p, ~ In p response_fields /\ truthy (field v p) = true.

(** The property names of a value. *)
Definition keys (v : value) : list string :=
  match v with
  | Object props => map fst props
  | _ => []
  end.

Definition is_digit (c : ascii) : bool :=
  let n := nat_of_ascii c in ((48 <=? n) && (n <=? 57))%nat.

Fixpoint all_digits (s : string) : bool :=
  match s with
  | EmptyString => true
  | String c s' => is_digit c && all_digits s'
  end.

(** A field of exactly [n] decimal digits. *)
Definition digits (n : nat) (s : string) : Prop :=
  String.length s = n /\ all_digits s = true.

(** A number written without padding: at least one digit. *)
Definition numeral (s : string) : Prop :=
  s <> "" /\ all_digits s = true.

(** The form HH:MM:SS.mmm the specification gives: an hours field, two
    digits of minutes, two of seconds, three of milliseconds. *)
Definition hours_minutes_seconds (s : string) : Prop :=
  exists h m sec ms : string,
    s = (h ++ ":" ++ m ++ ":" ++ sec ++ "." ++ ms)%string
    /\ numeral h /\ digits 2 m /\ digits 2 sec /\ digits 3 ms.

(** The same form with the text [h] for its hours field, whatever that
    text is. *)
Definition hours_minutes_seconds_after (h s : string) : Prop :=
  exists m sec ms : string,
    s = (h ++ ":" ++ m ++ ":" ++ sec ++ "." ++ ms)%string
    /\ digits 2 m /\ digits 2 sec /\ digits 3 ms.

(** The number of seconds from which the hours reach 1e21. *)
Definition EXPONENT_SECONDS : Z := 3600 * EXPONENT_FROM.

(** The form M:SS.mmm: minutes without padding and no hours field. *)
Definition minutes_seconds (s : string) : Prop :=
  exists m sec ms : string,
    s = (m ++ ":" ++ sec ++ "." ++ ms)%string
    /\ numeral m /\ (String.length m <= 2)%nat /\ digits 2 sec /\ digits 3 ms.

Fixpoint count_char (c : ascii) (s : string) : nat :=
  match s with
  | EmptyString => 0
  | String c' s' => (if (c' =? c)%char then 1 else 0) + count_char c s'
  end.

(** The paddings of the numbers below [bound], checked one by one. *)
Definition padded_below (width : nat) (bound : nat) : bool :=
  forallb (fun n => let s := padStart (decimal (Z.of_nat n)) width "0" in
                    (String.length s =? width)%nat && all_digits s)
          (seq 0 bound).

Definition short_below (width : nat) (bound : nat) : bool :=
  forallb (fun n => (String.length (decimal (Z.of_nat n)) <=? width)%nat) (seq 0 bound).

(** 100MB, in bytes. *)
Definition MAX_BYTES : Z := 104857600.

Definition has_field (key : string) (req : Request) : bool :=
  existsb (fun entry => fst entry =? key) (body req).

End Props.
Import Props.

(* ===================================================================== *)
(** ** Sample data *)
(* ===================================================================== *)

Module Examples.

Definition base_url : string := "http://localhost:8000".

(** The exponent notation of 1e21, the only number of that size an
    example reaches. *)
Definition exponential (z : Z) : string := "1e+21".

Definition clip : File :=
  {| name := "match.mp4"; type := "video/mp4"; size := 5242880 |}.

Definition one_clip : list (option File) := [Some clip].

Definition seven_clips : list (option File) :=
  [Some clip; Some clip; Some clip; Some clip; Some clip; Some clip; Some clip].

(** A selection of four files. *)
Definition four_clips : list File := [clip; clip; clip; clip].

Definition default_config : Api.AnalysisConfig :=
  {| Api.frame_interval := of_Z 1; Api.max_duration := of_Z 10 |}.

Definition zero_interval : Api.AnalysisConfig :=
  {| Api.frame_interval := of_Z 0; Api.max_duration := of_Z 10 |}.

Definition kickoff : Types.FrameAnalysis :=
  {| Types.timestamp := of_Z 0;
     Types.event := "pass";
     Types.ball_position := "center";
     Types.players_detected := of_Z 12;
     Types.team_a_shape := "4-4-2";
     Types.team_b_shape := "4-3-3";
     Types.tactical_notes := "Team A builds from the back" |}.

Definition huge_clip : File :=
  {| name := "full-match.mp4"; type := "video/mp4"; size := 209715200 |}.

Definition empty_clip : File :=
  {| name := "empty.mp4"; type := "video/mp4"; size := 0 |}.

(** A browser that reads every file as an eight-second video. *)
Definition plays (f : File) : MediaOutcome := LoadedMetadata (of_Z 8).

Definition blob_url (f : File) : ObjectURL := Url ("blob:" ++ name f).

(** A rendering of numbers that is right on the integers below 1e21. *)
Definition render (n : number) : string :=
  match n with
  | Fin q => decimal (Qfloor q)
  | NaN => "NaN"
  | Infinity false => "Infinity"
  | Infinity true => "-Infinity"
  end.

(** Bodies a server can answer with, as parsed JSON. *)
Definition kickoff_json : value :=
  Object [ ("timestamp", Number (of_Z 0));
           ("event", Str "pass");
           ("ball_position", Str "center");
           ("players_detected", Number (of_Z 12));
           ("team_a_shape", Str "4-4-2");
           ("team_b_shape", Str "4-3-3");
           ("tactical_notes", Str "Team A builds from the back") ].

Definition success_body : value :=
  Object [ ("frames", Array [kickoff_json]);
           ("total_frames", Number (of_Z 1));
           ("status", Str "success") ].

Definition partial_body : value :=
  Object [ ("frames", Array [kickoff_json]);
           ("total_frames", Number (of_Z 3));
           ("status", Str "partial") ].

(** The same partial body with a reason that names another cause than
    the quota. *)
Definition partial_body_with_reason : value :=
  Object [ ("frames", Array [kickoff_json]);
           ("total_frames", Number (of_Z 3));
           ("status", Str "partial");
           ("reason", Str "service_unavailable") ].

(** A body with an array of frames and nothing else. *)
Definition frames_only : value := Object [ ("frames", Array [Number (of_Z 7)]) ].

Definition respond (body : value) : Response :=
  {| ok := true; status := 200; statusText := "OK";
     json := Some body; blob := Some {| blob_size := 1024 |} |}.

Definition fail_with (code : Z) (text : string) (body : option value) : Response :=
  {| ok := false; status := code; statusText := text;
     json := body; blob := None |}.

End Examples.

(* ===================================================================== *)
(** ** Further predicates on lib/api.ts *)
(* ===================================================================== *)

Module ApiProps.

(** The two tests of uploadVideos on its configuration both pass. *)
Definition config_passes (config : Api.AnalysisConfig) : bool :=
  negb (le (Api.frame_interval config) (of_Z 0))
  && negb (le (Api.max_duration config) (of_Z 0)).

(** The tests of addTimestampOverlay on its duration pass. *)
Definition duration_passes (maxDuration : Api.optional_number) : bool :=
  match maxDuration with
  | Api.Given n => negb (le n (of_Z 0)) && negb (gt n (of_Z 60))
  | Api.Omitted | Api.IsNull => true
  end.

(** What the outer catch makes of a rejection of fetch. *)
Definition rejection (e : exn) : exn :=
  match e with
  | TypeError message =>
      if includes message "fetch"
      then Error (Str "Network error. Please check your connection and try again.")
      else e
  | _ => e
  end.

(** What addTimestampOverlay makes of a response, once the request is
    out. *)
Definition overlay_outcome (r : Response) : outcome Blob :=
  if negb (ok r) then Throw (Api.http_error "Failed to process video" r)
  else
    match blob r with
    | None => Throw (Error (Str "Invalid response from server: empty video file"))
    | Some b =>
        if (blob_size b =? 0)%Z
        then Throw (Error (Str "Invalid response from server: empty video file"))
        else Return b
    end.

End ApiProps.
Import ApiProps.

(* ===================================================================== *)
(** ** Further predicates on the upload components *)
(* ===================================================================== *)

Module UploadProps.

Definition is_url (u : ObjectURL) : bool :=
  match u with Url _ => true | UrlThrows _ => false end.

(** The size limit of a mode, in bytes. *)
Definition mode_limit (mode : VideoUploaderModes.AnalysisMode) : Z :=
  match mode with
  | VideoUploaderModes.multimodal => 50 * 1024 * 1024
  | VideoUploaderModes.frame => 100 * 1024 * 1024
  end.

(** The last call in a list of calls to setError, if any. *)
Definition last_error (calls : list (option string)) : option (option string) :=
  match rev calls with
  | [] => None
  | e :: _ => Some e
  end.

End UploadProps.
Import UploadProps.

(* ===================================================================== *)
(** ** Further predicates on the summary *)
(* ===================================================================== *)

Module SummaryProps.

(** The count kept under [key], 0 when there is none. *)
Fixpoint count_for (key : string) (c : SummaryPanel.counts) : nat :=
  match c with
  | [] => 0
  | (k, t) :: rest => if k =? key then SummaryPanel.count_of t else count_for key rest
  end.

(** The sum of the counts. *)
Fixpoint total (c : SummaryPanel.counts) : nat :=
  match c with
  | [] => 0
  | (_, t) :: rest => SummaryPanel.count_of t + total rest
  end.

(** A key under which a plain object does not count: __proto__, or the
    name of an inherited method. *)
Definition special (key : string) : bool :=
  (key =? "__proto__") || SummaryPanel.inherited key.

(** The frames that count as the event [key]. *)
Definition frames_with_event (key : string) (frames : list Types.FrameAnalysis)
  : list Types.FrameAnalysis :=
  filter (fun f => SummaryPanel.is_event f && (Types.event f =? key)) frames.

(** The frames that have an event under which nothing is counted. *)
Definition frames_with_special_event (frames : list Types.FrameAnalysis)
  : list Types.FrameAnalysis :=
  filter (fun f => SummaryPanel.is_event f && special (Types.event f)) frames.

(** [key] has one of the largest counts of [c]. *)
Definition most_frequent (key : string) (c : SummaryPanel.counts) : Prop :=
  exists n, In (key, SummaryPanel.Count n) c
            /\ forall k' n', In (k', SummaryPanel.Count n') c -> (n' <= n)%nat.

(** What counting leaves under a key: the key is not __proto__, a text
    stands exactly under the name of an inherited method, and a count is
    at least 1. *)
Definition kept (key : string) (t : SummaryPanel.tally) : Prop :=
  key <> "__proto__"
  /\ (t = SummaryPanel.Text <-> SummaryPanel.inherited key = true)
  /\ (forall n, t = SummaryPanel.Count n -> (1 <= n)%nat).

Definition well_kept (c : SummaryPanel.counts) : Prop :=
  Forall (fun kv => kept (fst kv) (snd kv)) c.

(** The counter after the frames that [p] lets through were counted
    under [key]. *)
Definition tally_up (p : Types.FrameAnalysis -> bool) (key : Types.FrameAnalysis -> string)
  (frames : list Types.FrameAnalysis) (c : SummaryPanel.counts) : SummaryPanel.counts :=
  fold_left (fun c f => if p f then SummaryPanel.bump (key f) c else c) frames c.

(** The favourite is a key of [c], or is left to the engine among the
    keys of [c]. *)
Definition among_keys (fav : SummaryPanel.favourite) (c : SummaryPanel.counts) : Prop :=
  match fav with
  | SummaryPanel.Chosen key => In key (map fst c)
  | SummaryPanel.LeftToTheEngine keys => forall k, In k keys <-> In k (map fst c)
  end.

End SummaryProps.
Import SummaryProps.

(* ===================================================================== *)
(** ** Messages of exceptions *)
(* ===================================================================== *)

Module JsError.

Section ToString.

(** [n.toString()] for an arbitrary number, a parameter as in the
    uploader. *)
Variable Number_toString : number -> string.

(** [String(v)]: an array is its elements joined by commas, null and
    undefined elements being written as nothing; an object is
    [object Object]. *)
Fixpoint String_of (v : value) : string :=
  match v with
  | Undefined => "undefined"
  | Null => "null"
  | Bool true => "true"
  | Bool false => "false"
  | Number n => Number_toString n
  | Str s => s
  | Array items =>
      join "," (map (fun item => match item with
                                 | Undefined | Null => ""
                                 | _ => String_of item
                                 end) items)
  | Object _ => "[object Object]"
  end.

(** [err.message]: the argument of [new Error(arg)] as a string, nothing
    when it is undefined. *)
Definition message_of (e : exn) : string :=
  match e with
  | Error Undefined => ""
  | Error arg => String_of arg
  | TypeError message => message
  | SyntaxError message => message
  end.

End ToString.

End JsError.

(* ===================================================================== *)
(** ** components/AnalysisTable.tsx *)
(* ===================================================================== *)

Module AnalysisTable.

Inductive SortField : Type := SortTimestamp | SortEvent | SortPlayersDetected.
Inductive SortDirection : Type := asc | desc.

Record State : Type := {
  sortField : SortField;
  sortDirection : SortDirection;
  eventFilter : string
}.

Definition initial : State :=
  {| sortField := SortTimestamp; sortDirection := asc; eventFilter := "all" |}.

(** [array.sort(compare)]. The sort of JavaScript is stable, so that for a
    comparator that orders the elements consistently its result is that of
    any stable sort: here, of a sort by insertion. *)
Fixpoint insert {A : Type} (compare : A -> A -> Z) (x : A) (l : list A) : list A :=
  match l with
  | [] => [x]
  | y :: rest => if (0 <? compare x y)%Z then y :: insert compare x rest else x :: l
  end.

Fixpoint sort {A : Type} (compare : A -> A -> Z) (l : list A) : list A :=
  match l with
  | [] => []
  | x :: rest => insert compare x (sort compare rest)
  end.

(** [a < b] on strings, by code units (bytes here: the same order on
    ASCII text). *)
Definition string_lt (a b : string) : bool := String.ltb a b.

(** The values of [new Set(l)], in the order of their first occurrence. *)
Fixpoint Set_from (l : list string) (seen : list string) : list string :=
  match l with
  | [] => []
  | x :: rest =>
      if existsb (String.eqb x) seen then Set_from rest seen
      else x :: Set_from rest (x :: seen)
  end.

(** The comparator of [array.sort()] without an argument, on strings. *)
Definition default_compare (a b : string) : Z :=
  if string_lt a b then (-1)%Z else if string_lt b a then 1%Z else 0%Z.

Definition eventTypes (frames : list Types.FrameAnalysis) : list string :=
  let events :=
    Set_from (filter (fun e => negb (e =? "") && negb (e =? "none"))
                (map Types.event frames)) [] in
  sort default_compare events.

(** The comparator of sortedAndFilteredFrames. *)
Definition compare_frames (sortField : SortField) (sortDirection : SortDirection)
  (a b : Types.FrameAnalysis) : Z :=
  let (less, greater) :=
    match sortField with
    | SortTimestamp =>
        (lt (Types.timestamp a) (Types.timestamp b),
         gt (Types.timestamp a) (Types.timestamp b))
    | SortEvent =>
        (string_lt (Types.event a) (Types.event b),
         string_lt (Types.event b) (Types.event a))
    | SortPlayersDetected =>
        (lt (Types.players_detected a) (Types.players_detected b),
         gt (Types.players_detected a) (Types.players_detected b))
    end in
  if less then match sortDirection with asc => (-1)%Z | desc => 1%Z end
  else if greater then match sortDirection with asc => 1%Z | desc => (-1)%Z end
  else 0%Z.

Definition sortedAndFilteredFrames (frames : list Types.FrameAnalysis) (st : State)
  : list Types.FrameAnalysis :=
  let filtered :=
    if negb (eventFilter st =? "all")
    then filter (fun f => Types.event f =? eventFilter st) frames
    else frames in
  sort (compare_frames (sortField st) (sortDirection st)) filtered.

Definition same_field (a b : SortField) : bool :=
  match a, b with
  | SortTimestamp, SortTimestamp
  | SortEvent, SortEvent
  | SortPlayersDetected, SortPlayersDetected => true
  | _, _ => false
  end.

Definition handleSort (field : SortField) (st : State) : State :=
  if same_field (sortField st) field then
    {| sortField := sortField st;
       sortDirection := match sortDirection st with asc => desc | desc => asc end;
       eventFilter := eventFilter st |}
  else
    {| sortField := field; sortDirection := asc; eventFilter := eventFilter st |}.

(** The double quote. *)
Definition quote : ascii := ascii_of_nat 34.

(** The escaping of the notes: every double quote is written twice. *)
Fixpoint escape_quotes (s : string) : string :=
  match s with
  | EmptyString => EmptyString
  | String c rest =>
      if (c =? quote)%char then String quote (String quote (escape_quotes rest))
      else String c (escape_quotes rest)
  end.

Section CsvExport.

Variable Number_toString : number -> string.

(** The cells of a row of the export. *)
Definition row (f : Types.FrameAnalysis) : list string :=
  [ toFixed1 (Types.timestamp f);
    Types.event f;
    Types.ball_position f;
    Number_toString (Types.players_detected f);
    Types.team_a_shape f;
    Types.team_b_shape f;
    escape_quotes (Types.tactical_notes f) ].

Definition headers : list string :=
  ["Timestamp"; "Event"; "Ball Position"; "Players Detected";
   "Team A Shape"; "Team B Shape"; "Tactical Notes"].

(** A cell between double quotes. *)
Definition quoted (cell : string) : string :=
  (String quote cell ++ String quote EmptyString)%string.

(** The text exportToCSV puts in the file. *)
Definition csvContent (shown : list Types.FrameAnalysis) : string :=
  join (String (ascii_of_nat 10) EmptyString)
    (join "," headers :: map (fun f => join "," (map quoted (row f))) shown).

End CsvExport.

End AnalysisTable.

From Stdlib Require Import Sorting.Sorted Sorting.Permutation.
From Stdlib Require Structures.OrderedTypeEx.
From Stdlib Require Qcanon.

(* ===================================================================== *)
(** ** Further predicates on the table *)
(* ===================================================================== *)

Module TableProps.

(** The frames the filter lets through. *)
Definition filtered (frames : list Types.FrameAnalysis) (st : AnalysisTable.State)
  : list Types.FrameAnalysis :=
  if AnalysisTable.eventFilter st =? "all" then frames
  else filter (fun f => Types.event f =? AnalysisTable.eventFilter st) frames.

(** Row [b] is wrongly placed right after row [a]: its key is smaller when
    the order is ascending, larger when it is descending. *)
Definition out_of_order (field : AnalysisTable.SortField)
  (direction : AnalysisTable.SortDirection) (a b : Types.FrameAnalysis) : bool :=
  let (less, greater) :=
    match field with
    | AnalysisTable.SortTimestamp =>
        (lt (Types.timestamp a) (Types.timestamp b),
         gt (Types.timestamp a) (Types.timestamp b))
    | AnalysisTable.SortEvent =>
        (AnalysisTable.string_lt (Types.event a) (Types.event b),
         AnalysisTable.string_lt (Types.event b) (Types.event a))
    | AnalysisTable.SortPlayersDetected =>
        (lt (Types.players_detected a) (Types.players_detected b),
         gt (Types.players_detected a) (Types.players_detected b))
    end in
  match direction with
  | AnalysisTable.asc => greater
  | AnalysisTable.desc => less
  end.

(** No frame holds NaN where a number is expected. *)
Definition numbers_comparable (frames : list Types.FrameAnalysis) : Prop :=
  forall f, In f frames ->
            isNaN (Types.timestamp f) = false
            /\ isNaN (Types.players_detected f) = false.

End TableProps.
Import TableProps.


(** [x - y]. *)
Module JsSub.

Definition sub (x y : number) : number :=
  match x, y with
  | NaN, _ | _, NaN => NaN
  | Fin a, Fin b => Fin (Qred (a - b))
  | Fin _, Infinity s => Infinity (negb s)
  | Infinity s, Fin _ => Infinity s
  | Infinity s1, Infinity s2 => if Bool.eqb s1 s2 then NaN else Infinity s1
  end.

End JsSub.
Import JsSub.

(* ===================================================================== *)
(** ** components/ProgressTracker.tsx *)
(* ===================================================================== *)

Module ProgressTracker.

(** What getProgress resolves to, and the progress state. *)
Record Progress : Type := {
  processed : number;
  total : number;
  status : string;
  message : string
}.

(** What a promise was rejected with: an Error, or a value that is not
    an instance of Error. *)
Inductive Reason : Type :=
| AnError (e : exn)
| NotAnError (v : value).

(** How a call of the api settles. getProgress and getResults are
    imported from lib/api, which does not define them: their outcome is
    given to the poll. *)
Inductive Reply (A : Type) : Type :=
| Fulfilled (a : A)
| Failed (r : Reason).
Arguments Fulfilled {A} a.
Arguments Failed {A} r.

(** The two counters of the effect, the state of the component, and the
    arguments of the calls of onComplete so far, the latest last. *)
Record State : Type := {
  pollCount : nat;
  consecutiveErrors : nat;
  progress : Progress;
  error : option string;
  completed : list value
}.

Definition initial : State :=
  {| pollCount := 0;
     consecutiveErrors := 0;
     progress := {| processed := of_Z 0; total := of_Z 0;
                    status := "processing"; message := "" |};
     error := None;
     completed := [] |}.

Definition maxPollAttempts : nat := 300.
Definition maxConsecutiveErrors : nat := 5.

Definition setError (text : string) (st : State) : State :=
  {| pollCount := pollCount st;
     consecutiveErrors := consecutiveErrors st;
     progress := progress st;
     error := Some text;
     completed := completed st |}.

Definition onComplete (frames : value) (st : State) : State :=
  {| pollCount := pollCount st;
     consecutiveErrors := consecutiveErrors st;
     progress := progress st;
     error := error st;
     completed := completed st ++ [frames] |}.

Section Polling.

Variable Number_toString : number -> string.

(** [err instanceof Error ? err.message : 'Unknown error']. *)
Definition describe (r : Reason) : string :=
  match r with
  | AnError e => JsError.message_of Number_toString e
  | NotAnError _ => "Unknown error"
  end.

(** One run of pollProgress. [progressData] is how getProgress settles,
    [results] how getResults does when it is called. *)
Definition pollProgress (progressData : Reply Progress) (results : Reply value)
  (st : State) : State :=
  let pollCount := S (pollCount st) in
  match progressData with
  | Fulfilled progressData =>
      let st := {| pollCount := pollCount;
                   consecutiveErrors := 0;
                   progress := progressData;
                   error := error st;
                   completed := completed st |} in
      if status progressData =? "completed" then
        let failed_to_fetch (r : Reason) :=
          setError ("Analysis completed but failed to fetch results: " ++ describe r) st in
        match results with
        | Fulfilled results =>
            match get results "frames" with
            | Return frames =>
                if truthy frames && isArray frames
                then onComplete frames st
                else setError "Invalid results received from server" st
            | Throw e => failed_to_fetch (AnError e)
            end
        | Failed r => failed_to_fetch r
        end
      else if status progressData =? "error" then
        setError (if message progressData =? "" then "Analysis failed"
                  else message progressData) st
      else if (maxPollAttempts <=? pollCount)%nat then
        setError "Analysis is taking longer than expected. Please try again." st
      else st
  | Failed r =>
      let st := {| pollCount := pollCount;
                   consecutiveErrors := S (consecutiveErrors st);
                   progress := progress st;
                   error := error st;
                   completed := completed st |} in
      if (maxConsecutiveErrors <=? consecutiveErrors st)%nat then
        setError ("Failed to fetch progress after 5 attempts: " ++ describe r) st
      else st
  end.

(** The runs of pollProgress of one effect, the first one first. *)
Definition poll (ticks : list (Reply Progress * Reply value)) (st : State) : State :=
  fold_left (fun st tick => pollProgress (fst tick) (snd tick) st) ticks st.

End Polling.

Definition progressPercent (progress : Progress) : integral :=
  if gt (total progress) (of_Z 0)
  then Math_round (mul (div (processed progress) (total progress)) (of_Z 100))
  else Fin 0%Z.

(** [None] is null. *)
Definition estimatedTimeRemaining (progress : Progress) : option integral :=
  if gt (total progress) (of_Z 0) && gt (processed progress) (of_Z 0)
  then Some (Math_round (div (mul (sub (total progress) (processed progress)) (of_Z 4))
                           (of_Z 60)))
  else None.

End ProgressTracker.

(** Notions for the statements about the poll. *)
Module PollProps.

(** The number of failures at the head of a list of runs. *)
Fixpoint leading_failures (ticks : list (ProgressTracker.Reply ProgressTracker.Progress
                                         * ProgressTracker.Reply value)) : nat :=
  match ticks with
  | (ProgressTracker.Failed _, _) :: rest => S (leading_failures rest)
  | _ => 0
  end.

(** The number of runs, counted back from the last, in which getProgress
    failed. *)
Definition trailing_failures (ticks : list (ProgressTracker.Reply ProgressTracker.Progress
                                            * ProgressTracker.Reply value)) : nat :=
  leading_failures (rev ticks).

(** The server is still at work: getProgress failed, or reported a status
    other than completed and error. *)
Definition still_running (tick : ProgressTracker.Reply ProgressTracker.Progress
                                 * ProgressTracker.Reply value) : bool :=
  match fst tick with
  | ProgressTracker.Fulfilled p =>
      negb (ProgressTracker.status p =? "completed")
      && negb (ProgressTracker.status p =? "error")
  | ProgressTracker.Failed _ => true
  end.

(** The frames a run hands to onComplete, if any. *)
Definition handed_over (tick : ProgressTracker.Reply ProgressTracker.Progress
                               * ProgressTracker.Reply value) : list value :=
  match tick with
  | (ProgressTracker.Fulfilled p, ProgressTracker.Fulfilled (Object props)) =>
      if (ProgressTracker.status p =? "completed") && isArray (lookup "frames" props)
      then [lookup "frames" props] else []
  | _ => []
  end.

(** A report of processed frames out of a total. *)
Definition report (processed total : nat) : ProgressTracker.Progress :=
  {| ProgressTracker.processed := of_nat processed;
     ProgressTracker.total := of_nat total;
     ProgressTracker.status := "processing";
     ProgressTracker.message := "" |}.

End PollProps.
Import PollProps.

(* ===================================================================== *)
(** ** components/VideoUploader.tsx: removing and analysing *)
(* ===================================================================== *)

Module JsArray.

(** [l.splice(index, 1)] on a copy of [l], for an index of the array:
    the array without that element. *)
Definition splice_one {A : Type} (index : nat) (l : list A) : list A :=
  firstn index l ++ skipn (S index) l.

End JsArray.

Module VideoUploaderActions.

(** The updater of removeVideo: the new array, and the URL handed to
    URL.revokeObjectURL. With no element at [index], reading its preview
    throws. *)
Definition removeVideo (index : nat) (prev : list VideoUploader.VideoFile)
  : outcome (list VideoUploader.VideoFile * string) :=
  match nth_error prev index with
  | None => Throw (TypeError "Cannot read properties of undefined (reading 'preview')")
  | Some video => Return (JsArray.splice_one index prev, VideoUploader.preview video)
  end.

(** The state handleAnalyze writes. *)
Record State : Type := {
  isUploading : bool;
  error : option string
}.

Section Analyze.

Variable API_URL : string.
Variable server : Request -> Settled.
Variable Number_toString : number -> string.
(** The component above, and its handler. *)
Variable Parent : Type.
Variable onAnalysisComplete : value -> Parent -> Parent.

Open Scope js_scope.

(** The states of the component and of its parent after handleAnalyze,
    and the requests sent. *)
Definition handleAnalyze (videos : list VideoUploader.VideoFile)
  (frameInterval maxDuration : number) (st : State) (parent : Parent)
  : State * Parent * list Request :=
  match videos with
  | [] =>
      ({| isUploading := isUploading st;
          error := Some "Please upload at least one video" |}, parent, [])
  | _ =>
      let files := map (fun v => Some (VideoUploader.file v)) videos in
      let attempt : M Parent :=
        result <- Api.uploadVideos API_URL server (Some files)
                    {| Api.frame_interval := frameInterval;
                       Api.max_duration := maxDuration |} ;;
        frames <- lift (get result "frames") ;;
        ret (onAnalysisComplete frames parent) in
      match run attempt with
      | (Return parent', log) =>
          ({| isUploading := false; error := None |}, parent', log)
      | (Throw err, log) =>
          ({| isUploading := false;
              error := Some (JsError.message_of Number_toString err) |}, parent, log)
      end
  end.

Close Scope js_scope.

End Analyze.

End VideoUploaderActions.

(* ===================================================================== *)
(** ** The timestamp overlay component (src/unnamed/part_001): its state *)
(* ===================================================================== *)

Module TimestampOverlay.

Record VideoFile : Type := {
  file : File;
  preview : string;
  duration : number;
  durationEstimated : bool
}.

(** An accepted file whose duration is estimated from its size;
    [flag] is the durationEstimated of the result, [None] when the
    property is left out. *)
Definition estimated (size : Z) (flag : option bool) : Validation :=
  {| valid := true; Media.duration := estimatedDuration size;
     Media.durationEstimated := flag; error := None |}.

(** [None] is an argument that is not a File. *)
Definition validateVideo (media : File -> MediaOutcome) (f : option File) : Validation :=
  match f with
  | None => invalid (of_Z 0) "Invalid file"
  | Some file =>
      if negb (startsWith (type file) "video/") then
        invalid (of_Z 0) "File must be a video file"
      else
        let maxSize := (100 * 1024 * 1024)%Z in
        if (size file >? maxSize)%Z then
          invalid (of_Z 0)
            ("File size (" ++ toFixed1 (megabytes (size file)) ++ "MB) exceeds 100MB limit")
        else if (size file =? 0)%Z then
          invalid (of_Z 0) "File is empty"
        else
          match media file with
          | TimedOut => estimated (size file) (Some true)
          | LoadedMetadata duration =>
              if isNaN duration || le duration (of_Z 0)
              then estimated (size file) (Some true)
              else
                {| valid := true; Media.duration := duration;
                   Media.durationEstimated := Some false; error := None |}
          | MediaFailed (Some 4%nat) => estimated (size file) (Some true)
          | MediaFailed _ => estimated (size file) None
          | ObjectURLThrows => estimated (size file) (Some true)
          end
  end.

(** The [for (const file of fileArray)] loop, with its two accumulators. *)
Fixpoint validate_all (media : File -> MediaOutcome) (createObjectURL : File -> ObjectURL)
  (fileArray : list File) (newVideos : list VideoFile) (errors : list string)
  : list VideoFile * list string :=
  match fileArray with
  | [] => (newVideos, errors)
  | f :: rest =>
      let validation := validateVideo media (Some f) in
      if negb (valid validation) then
        validate_all media createObjectURL rest newVideos
          (errors ++ [(name f ++ ": "
                       ++ match error validation with
                          | Some e => if e =? "" then "Invalid video file" else e
                          | None => "Invalid video file"
                          end)%string])
      else
        match createObjectURL f with
        | Url preview =>
            validate_all media createObjectURL rest
              (newVideos ++ [{| file := f; preview := preview;
                                duration := Media.duration validation;
                                durationEstimated :=
                                  match Media.durationEstimated validation with
                                  | Some b => b
                                  | None => false
                                  end |}])
              errors
        | UrlThrows message =>
            validate_all media createObjectURL rest newVideos
              (errors ++ [(name f ++ ": " ++ message)%string])
        end
  end.

(** The state of the component. [maxDuration] is a number or null;
    [intervals] counts the progress timers that were started and not
    cleared. *)
Record State : Type := {
  videos : list VideoFile;
  isProcessing : bool;
  error : option string;
  maxDuration : option number;
  processedVideoBlob : option Blob;
  processedVideoName : option string;
  progress : number;
  intervals : nat
}.

Definition initial : State :=
  {| videos := []; isProcessing := false; error := None; maxDuration := None;
     processedVideoBlob := None; processedVideoName := None;
     progress := of_Z 0; intervals := 0 |}.

(** handleFileSelect, run to its end with no other action in between.
    [videos_length] is the [videos.length] the handler closed over;
    [None] is a null file list. *)
Definition handleFileSelect (media : File -> MediaOutcome)
  (createObjectURL : File -> ObjectURL) (videos_length : nat)
  (files : option (list File)) (st : State) : State :=
  match files with
  | None | Some [] => st
  | Some fileArray =>
      if (6 <? videos_length + List.length fileArray)%nat then
        {| videos := videos st; isProcessing := isProcessing st;
           error := Some "Maximum 6 videos allowed";
           maxDuration := maxDuration st;
           processedVideoBlob := processedVideoBlob st;
           processedVideoName := processedVideoName st;
           progress := progress st; intervals := intervals st |}
      else
        let (newVideos, errors) := validate_all media createObjectURL fileArray [] [] in
        {| videos := videos st ++ newVideos;
           isProcessing := isProcessing st;
           error :=
             if (0 <? List.length errors)%nat
             then
               if (List.length newVideos =? 0)%nat
               then Some (join "; " errors)
               else Some ("Some videos failed validation: " ++ join "; " errors)%string
             else None;
           maxDuration := maxDuration st;
           processedVideoBlob := None;
           processedVideoName := None;
           progress := progress st; intervals := intervals st |}
  end.

(** removeVideo: with no video at [index] the updater throws. *)
Definition removeVideo (index : nat) (st : State) : outcome State :=
  match nth_error (videos st) index with
  | None => Throw (TypeError "Cannot read properties of undefined (reading 'preview')")
  | Some _ =>
      Return {| videos := JsArray.splice_one index (videos st);
                isProcessing := isProcessing st;
                error := error st;
                maxDuration := maxDuration st;
                processedVideoBlob := None;
                processedVideoName := None;
                progress := progress st; intervals := intervals st |}
  end.

(** The updater of the progress timer. *)
Definition tick (prev : number) : number :=
  if ge prev (of_Z 90) then prev else add prev (of_Z 5).

(** [maxDuration || undefined]. *)
Definition or_undefined (maxDuration : option number) : Api.optional_number :=
  match maxDuration with
  | None => Api.Omitted
  | Some n => if truthy (Number n) then Api.Given n else Api.Omitted
  end.

(** Every character is neither a slash nor a dot. *)
Fixpoint plain (s : string) : bool :=
  match s with
  | EmptyString => true
  | String c rest => negb (c =? "/")%char && negb (c =? ".")%char && plain rest
  end.

(** [name.replace(/\.[^/.]+$/, '')]: the first place where a dot is
    followed, up to the end, by one or more characters that are neither
    a slash nor a dot is where the name is cut. *)
Fixpoint strip_extension (name : string) : string :=
  match name with
  | EmptyString => EmptyString
  | String c rest =>
      if (c =? ".")%char && negb (rest =? "") && plain rest
      then EmptyString
      else String c (strip_extension rest)
  end.

Definition outputName (name : string) : string :=
  strip_extension name ++ "_timestamped.mp4".

Section Process.

Variable API_URL : string.
Variable Number_toString : number -> string.

(** handleProcess, against the server of the moment: the state when it
    has ended, and the requests sent. *)
Definition handleProcess (server : Request -> Settled) (st : State)
  : State * list Request :=
  match videos st with
  | [] =>
      ({| videos := videos st; isProcessing := isProcessing st;
          error := Some "Please upload at least one video";
          maxDuration := maxDuration st;
          processedVideoBlob := processedVideoBlob st;
          processedVideoName := processedVideoName st;
          progress := progress st; intervals := intervals st |}, [])
  | first :: _ =>
      let files := map (fun v => Some (file v)) (videos st) in
      match run (Api.addTimestampOverlay API_URL server (Some files)
                   (or_undefined (maxDuration st))) with
      | (Return blob, log) =>
          ({| videos := videos st; isProcessing := false; error := None;
              maxDuration := maxDuration st;
              processedVideoBlob := Some blob;
              processedVideoName := Some (outputName (name (file first)));
              progress := of_Z 100; intervals := intervals st |}, log)
      | (Throw err, log) =>
          ({| videos := videos st; isProcessing := false;
              error := Some (JsError.message_of Number_toString err);
              maxDuration := maxDuration st;
              processedVideoBlob := None;
              processedVideoName := None;
              progress := of_Z 0; intervals := S (intervals st) |}, log)
      end
  end.

(** What the user can do, and the timer. *)
Inductive Action : Type :=
| Select (media : File -> MediaOutcome) (createObjectURL : File -> ObjectURL)
    (videos_length : nat) (files : option (list File))
| Remove (index : nat)
| SetMaxDuration (value : option number)
| Process (server : Request -> Settled)
| Tick.

(** The state after an action; [None] when the action threw. *)
Definition step (a : Action) (st : State) : option State :=
  match a with
  | Select media createObjectURL videos_length files =>
      Some (handleFileSelect media createObjectURL videos_length files st)
  | Remove index =>
      match removeVideo index st with
      | Return st' => Some st'
      | Throw _ => None
      end
  | SetMaxDuration value =>
      Some {| videos := videos st; isProcessing := isProcessing st;
              error := error st; maxDuration := value;
              processedVideoBlob := processedVideoBlob st;
              processedVideoName := processedVideoName st;
              progress := progress st; intervals := intervals st |}
  | Process server => Some (fst (handleProcess server st))
  | Tick =>
      Some {| videos := videos st; isProcessing := isProcessing st;
              error := error st; maxDuration := maxDuration st;
              processedVideoBlob := processedVideoBlob st;
              processedVideoName := processedVideoName st;
              progress := if (0 <? intervals st)%nat then tick (progress st)
                          else progress st;
              intervals := intervals st |}
  end.

Fixpoint steps (actions : list Action) (st : State) : option State :=
  match actions with
  | [] => Some st
  | a :: rest =>
      match step a st with
      | Some st' => steps rest st'
      | None => None
      end
  end.

End Process.

(** handleDownload: the blob and the file name of the download, if one
    is made. *)
Definition handleDownload (st : State) : option (Blob * string) :=
  match processedVideoBlob st, processedVideoName st with
  | Some blob, Some name => if name =? "" then None else Some (blob, name)
  | _, _ => None
  end.

End TimestampOverlay.

(** Notions for the statements about the overlay component. *)
Module OverlayProps.

(** The progress is one of 0, 5, 10, ..., 100. *)
Definition on_the_scale (p : number) : Prop :=
  exists k : Z, (0 <= k <= 20)%Z /\ p = of_Z (5 * k).

(** The processed video and its name are there together or not at all;
    the video is not empty and the name is an output name. *)
Definition result_consistent (st : TimestampOverlay.State) : Prop :=
  match TimestampOverlay.processedVideoBlob st,
        TimestampOverlay.processedVideoName st with
  | None, None => True
  | Some blob, Some name =>
      blob_size blob <> 0%Z /\ exists first, name = TimestampOverlay.outputName first
  | _, _ => False
  end.

Definition settled (st : TimestampOverlay.State) : Prop :=
  result_consistent st
  /\ on_the_scale (TimestampOverlay.progress st)
  /\ TimestampOverlay.isProcessing st = false.

End OverlayProps.
Import OverlayProps.

(* ===================================================================== *)
(** ** The simulated progress of the uploader with analysis modes *)
(* ===================================================================== *)

Module AnalysisProgress.

(** The updater of the progress timer of handleAnalyze; [random] is the
    value of Math.random(). *)
Definition tick (random : number) (prev : number) : number :=
  if ge prev (of_Z 90) then prev else add prev (mul random (of_Z 10)).

(** The progress after the timer fired once for each of [draws], the
    first one first. *)
Definition after (draws : list number) (start : number) : number :=
  fold_left (fun prev random => tick random prev) draws start.

(** A value Math.random() can return: at least 0 and below 1. *)
Definition is_random (r : number) : bool :=
  match r with
  | Fin q => Qle_bool 0 q && Qltb q 1
  | _ => false
  end.

(** The percentage the page writes beside the bar:
    [Math.round(analysisProgress)]. *)
Definition displayed (analysisProgress : number) : integral :=
  Math_round analysisProgress.

(** Ten draws just below 1. *)
Definition high_draws : list number := repeat (Fin (999 # 1000)) 10.

End AnalysisProgress.

(* ===================================================================== *)
(** * Sample frames *)

Module Footage.

Definition shot : Types.FrameAnalysis :=
  {| Types.timestamp := of_Z 5;
     Types.event := "shot";
     Types.ball_position := "penalty area";
     Types.players_detected := of_Z 9;
     Types.team_a_shape := "4-4-2";
     Types.team_b_shape := "4-3-3";
     Types.tactical_notes := "Shot from the edge of the box" |}.

Definition idle : Types.FrameAnalysis :=
  {| Types.timestamp := of_Z 10;
     Types.event := "none";
     Types.ball_position := "";
     Types.players_detected := of_Z 0;
     Types.team_a_shape := "";
     Types.team_b_shape := "";
     Types.tactical_notes := "" |}.

Definition frames : list Types.FrameAnalysis := [shot; Examples.kickoff; idle].

(** The kick-off frame with another event. *)
Definition named (event : string) : Types.FrameAnalysis :=
  {| Types.timestamp := of_Z 0;
     Types.event := event;
     Types.ball_position := "center";
     Types.players_detected := of_Z 12;
     Types.team_a_shape := "4-4-2";
     Types.team_b_shape := "4-3-3";
     Types.tactical_notes := "Team A builds from the back" |}.

(** Frames of which one has the event constructor and one the event
    __proto__. *)
Definition odd_events : list Types.FrameAnalysis :=
  [Examples.kickoff; named "constructor"; named "__proto__"; Examples.kickoff].

Definition by_players : AnalysisTable.State :=
  {| AnalysisTable.sortField := AnalysisTable.SortPlayersDetected;
     AnalysisTable.sortDirection := AnalysisTable.desc;
     AnalysisTable.eventFilter := "all" |}.

Definition only_shots : AnalysisTable.State :=
  {| AnalysisTable.sortField := AnalysisTable.SortTimestamp;
     AnalysisTable.sortDirection := AnalysisTable.asc;
     AnalysisTable.eventFilter := "shot" |}.

End Footage.

(** A session with the overlay component: one clip is selected and
    processed. *)
Module OverlaySession.

Definition server (req : Request) : Settled := Resolved (Examples.respond Null).

Definition actions : list TimestampOverlay.Action :=
  [ TimestampOverlay.Select Examples.plays Examples.blob_url 0 (Some [Examples.clip]);
    TimestampOverlay.SetMaxDuration (Some (of_Z 0));
    TimestampOverlay.Process server;
    TimestampOverlay.Tick ].

Definition ready : TimestampOverlay.State :=
  TimestampOverlay.handleFileSelect Examples.plays Examples.blob_url 0
    (Some [Examples.clip]) TimestampOverlay.initial.

Definition finished : TimestampOverlay.State :=
  match TimestampOverlay.steps Examples.base_url Examples.render actions
          TimestampOverlay.initial with
  | Some st => st
  | None => TimestampOverlay.initial
  end.

End OverlaySession.
(* ===================================================================== *)
(** * Properties *)
(* ===================================================================== *)

(** ** lib/api.ts: validation before the request *)

Lemma rethrow_throws (A : Type) (e : exn) (log : list Request) :
  exists e', @Api.rethrow A e log = (Throw e', log).
Proof.
  destruct e as [arg | message | message]; simpl; try (eexists; reflexivity).
  destruct (includes message "fetch"); eexists; reflexivity.
Qed.

Lemma append_files_accepted (files : list (option File)) (formData : FormData) :
  forallb (fun f => match f with Some _ => true | None => false end) files = true ->
  Api.append_files files formData = Return (formData ++ video_entries files).
Proof.
  revert formData.
  induction files as [| [file |] rest IH]; intros formData Hall; simpl in *.
  - now rewrite app_nil_r.
  - rewrite IH by exact Hall. now rewrite <- app_assoc.
  - discriminate.
Qed.

Lemma check_files_accepted (files : list (option File)) (log : list Request) :
  accepted_files files = true ->
  Api.check_files (Some files) log = (Return files, log).
Proof.
  unfold accepted_files, Api.check_files. intros H.
  apply andb_prop in H as [H Hall]. apply andb_prop in H as [Hpos Hmax].
  destruct files as [| f rest]; [discriminate |].
  apply Nat.leb_le in Hmax.
  destruct (6 <? List.length (f :: rest))%nat eqn:E; [| reflexivity].
  apply Nat.ltb_lt in E. lia.
Qed.

Lemma check_files_log (files : option (list (option File))) (log : list Request) :
  snd (Api.check_files files log) = log.
Proof.
  unfold Api.check_files.
  destruct files as [[| f rest] |]; try reflexivity.
  destruct (6 <? List.length (f :: rest))%nat; reflexivity.
Qed.

Lemma try_rethrow_throw (A : Type) (m : M A) (log log' : list Request) (e : exn) :
  m log = (Throw e, log') ->
  exists e', try_catch m Api.rethrow log = (Throw e', log').
Proof.
  intros H. unfold try_catch. rewrite H. apply rethrow_throws.
Qed.

Lemma try_rethrow_log (A : Type) (m : M A) (log : list Request) :
  snd (try_catch m Api.rethrow log) = snd (m log).
Proof.
  unfold try_catch. destruct (m log) as [[a | e] log']; [reflexivity |].
  destruct (rethrow_throws A e log') as [e' ->]. reflexivity.
Qed.

Lemma positive_not_le (x : number) :
  gt x (of_Z 0) = true -> le x (of_Z 0) = false.
Proof.
  unfold gt, lt, le, of_Z. destruct x as [| q | s]; try reflexivity.
  - unfold Qltb. intros H. now apply negb_true_iff in H.
  - destruct s; [discriminate | reflexivity].
Qed.

(** C1. uploadVideos checks the configuration itself, whatever the caller
    did before: when frame_interval <= 0 or max_duration <= 0 it throws and
    no request has been sent; when both are greater than 0 the check passes
    and, for an accepted file list, the request to /api/analyze is sent
    with the files and the two numbers. *)
Theorem uploadVideos_validates_config :
  forall (API_URL : string) (server : Request -> Settled)
         (files : option (list (option File))) (config : Api.AnalysisConfig),
    (le (Api.frame_interval config) (of_Z 0) = true
     \/ le (Api.max_duration config) (of_Z 0) = true ->
     exists e, run (Api.uploadVideos API_URL server files config) = (Throw e, []))
    /\
    (gt (Api.frame_interval config) (of_Z 0) = true ->
     gt (Api.max_duration config) (of_Z 0) = true ->
     forall l, files = Some l -> accepted_files l = true ->
       snd (run (Api.uploadVideos API_URL server files config))
       = [analyze_request API_URL l config]).
Proof.
  intros API_URL server files config. split.
  - intros Hbad. unfold run, Api.uploadVideos.
    pose proof (check_files_log files []) as Hlog.
    destruct (Api.check_files files []) as [[l | e] log0] eqn:Hcheck;
      simpl in Hlog; subst log0.
    + destruct (le (Api.frame_interval config) (of_Z 0)) eqn:Efi.
      * eapply try_rethrow_throw. unfold bind. rewrite Hcheck. reflexivity.
      * destruct Hbad as [Hbad | Hbad]; [discriminate |].
        eapply try_rethrow_throw. unfold bind. rewrite Hcheck, Hbad. reflexivity.
    + eapply try_rethrow_throw. unfold bind. rewrite Hcheck. reflexivity.
  - intros Hfi Hmd l -> Hacc.
    apply positive_not_le in Hfi. apply positive_not_le in Hmd.
    unfold run, Api.uploadVideos. rewrite try_rethrow_log.
    unfold bind. rewrite (check_files_accepted l [] Hacc), Hfi, Hmd. simpl.
    apply andb_prop in Hacc as [_ Hall].
    unfold lift. rewrite (append_files_accepted l [] Hall). simpl.
    unfold Api.fetch, analyze_request.
    set (req := {| url := _; method := _; body := _ |}).
    destruct (server req) as [e | r]; [reflexivity |].
    unfold throw_if.
    destruct (ok r); simpl; [| reflexivity].
    destruct (Api.response_json r) as [v | e]; [| reflexivity].
    destruct (truthy v); simpl; [| reflexivity].
    destruct (get v "frames") as [fr | e]; [| reflexivity].
    destruct (isArray fr); reflexivity.
Qed.

Lemma uploadVideos_validates_config_witness :
  (exists e,
     run (Api.uploadVideos Examples.base_url
            (fun _ => Resolved (Examples.respond (Object [("frames", Array [])])))
            (Some Examples.one_clip) Examples.zero_interval)
     = (Throw e, []))
  /\ snd (run (Api.uploadVideos Examples.base_url
                 (fun _ => Resolved (Examples.respond (Object [("frames", Array [])])))
                 (Some Examples.one_clip) Examples.default_config))
     = [analyze_request Examples.base_url Examples.one_clip Examples.default_config].
Proof.
  split.
  - apply (proj1 (uploadVideos_validates_config Examples.base_url _ _ Examples.zero_interval)).
    left. reflexivity.
  - apply (proj2 (uploadVideos_validates_config Examples.base_url _ _ Examples.default_config));
      reflexivity.
Defined.

(** NaN is neither <= 0 nor > 0: a configuration that holds it passes the
    two tests and is sent. *)
Lemma uploadVideos_sends_NaN :
  snd (run (Api.uploadVideos Examples.base_url
              (fun _ => Rejected (TypeError "Failed to fetch"))
              (Some Examples.one_clip)
              {| Api.frame_interval := NaN; Api.max_duration := of_Z 10 |}))
  = [analyze_request Examples.base_url Examples.one_clip
       {| Api.frame_interval := NaN; Api.max_duration := of_Z 10 |}].
Proof. reflexivity. Qed.

(** ** lib/api.ts: the bound on the overlay duration *)

Lemma video_entries_no_field (key : string) (files : list (option File)) :
  (key =? "videos") = false ->
  existsb (fun entry : string * FormValue => fst entry =? key) (video_entries files) = false.
Proof.
  intros Hkey. induction files as [| [file |] rest IH]; [reflexivity | | exact IH].
  change (video_entries (Some file :: rest))
    with (("videos", FormFile file) :: video_entries rest).
  cbn [existsb fst]. rewrite IH, String.eqb_sym, Hkey. reflexivity.
Qed.

(** C10. When maxDuration is given, addTimestampOverlay throws before any
    request is sent if it is <= 0 or > 60; when it is left out or null no
    bound is tested: for an accepted file list the request is sent, and it
    has no max_duration field. *)
Theorem addTimestampOverlay_duration_bound :
  forall (API_URL : string) (server : Request -> Settled)
         (files : option (list (option File))) (maxDuration : Api.optional_number),
    (forall n, maxDuration = Api.Given n ->
       le n (of_Z 0) = true \/ gt n (of_Z 60) = true ->
       exists e, run (Api.addTimestampOverlay API_URL server files maxDuration)
                 = (Throw e, []))
    /\
    (maxDuration = Api.Omitted \/ maxDuration = Api.IsNull ->
     forall l, files = Some l -> accepted_files l = true ->
       snd (run (Api.addTimestampOverlay API_URL server files maxDuration))
       = [overlay_request API_URL l maxDuration]
       /\ has_field "max_duration" (overlay_request API_URL l maxDuration) = false).
Proof.
  intros API_URL server files maxDuration. split.
  - intros n -> Hbad. unfold run, Api.addTimestampOverlay.
    pose proof (check_files_log files []) as Hlog.
    destruct (Api.check_files files []) as [[l | e] log0] eqn:Hcheck;
      simpl in Hlog; subst log0.
    + destruct (le n (of_Z 0)) eqn:Ele.
      * eapply try_rethrow_throw. unfold bind. rewrite Hcheck. reflexivity.
      * destruct Hbad as [Hbad | Hbad]; [discriminate |].
        eapply try_rethrow_throw. unfold bind. rewrite Hcheck, Hbad. reflexivity.
    + eapply try_rethrow_throw. unfold bind. rewrite Hcheck. reflexivity.
  - intros Hnone l -> Hacc. split.
    + unfold run, Api.addTimestampOverlay. rewrite try_rethrow_log.
      unfold bind. rewrite (check_files_accepted l [] Hacc).
      apply andb_prop in Hacc as [_ Hall].
      destruct Hnone as [-> | ->]; simpl; unfold lift;
        rewrite (append_files_accepted l [] Hall); simpl;
        unfold Api.fetch, overlay_request; simpl; rewrite app_nil_r;
        match goal with |- context [server ?r] => destruct (server r) as [e | r0] end;
        try reflexivity;
        unfold throw_if; destruct (ok r0); simpl; try reflexivity;
        destruct (blob r0) as [b |]; try reflexivity;
        destruct (blob_size b =? 0)%Z; reflexivity.
    + unfold has_field, overlay_request; simpl.
      destruct Hnone as [-> | ->]; rewrite app_nil_r;
        apply video_entries_no_field; reflexivity.
Qed.

Lemma addTimestampOverlay_duration_bound_witness :
  (exists e,
     run (Api.addTimestampOverlay Examples.base_url
            (fun _ => Resolved (Examples.respond Null))
            (Some Examples.one_clip) (Api.Given (of_Z 61)))
     = (Throw e, []))
  /\ snd (run (Api.addTimestampOverlay Examples.base_url
                 (fun _ => Resolved (Examples.respond Null))
                 (Some Examples.one_clip) Api.Omitted))
     = [overlay_request Examples.base_url Examples.one_clip Api.Omitted]
  /\ has_field "max_duration"
       (overlay_request Examples.base_url Examples.one_clip Api.Omitted) = false.
Proof.
  split.
  - apply (proj1 (addTimestampOverlay_duration_bound Examples.base_url _ _ _)
             (of_Z 61) eq_refl).
    right. reflexivity.
  - apply (proj2 (addTimestampOverlay_duration_bound Examples.base_url _ _ Api.Omitted));
      [left |..]; reflexivity.
Defined.

(** ** Six videos at most, and no oversized or empty file *)


Section UploaderFacts.

Variable Number_toString : number -> string.
Variable media : File -> MediaOutcome.
Variable createObjectURL : File -> ObjectURL.
Variable maxDuration : number.

#[local] Arguments VideoUploader.validateVideo : simpl never.

#[local] Abbreviation validate :=
  (VideoUploader.validateVideo Number_toString media maxDuration).
#[local] Abbreviation validate_all :=
  (VideoUploader.validate_all Number_toString media createObjectURL maxDuration).
#[local] Abbreviation select :=
  (VideoUploader.handleFileSelect Number_toString media createObjectURL maxDuration).

Lemma uploader_rejects_size (f : File) :
  (size f > MAX_BYTES)%Z \/ size f = 0%Z -> valid (validate (Some f)) = false.
Proof.
  unfold VideoUploader.validateVideo, MAX_BYTES. intros Hsize.
  destruct (negb (startsWith (type f) "video/")); [reflexivity |].
  change (100 * 1024 * 1024)%Z with 104857600%Z.
  destruct (size f >? 104857600)%Z eqn:Ebig; [reflexivity |].
  destruct (size f =? 0)%Z eqn:Ezero; [reflexivity |].
  apply Z.eqb_neq in Ezero. rewrite Z.gtb_ltb in Ebig. apply Z.ltb_ge in Ebig. lia.
Qed.

Lemma uploader_valid_size (f : File) :
  valid (validate (Some f)) = true -> size f <> 0%Z /\ (size f <= MAX_BYTES)%Z.
Proof.
  intros Hvalid.
  destruct (Z.eq_dec (size f) 0) as [Hz | Hz].
  - rewrite uploader_rejects_size in Hvalid by (now right). discriminate.
  - split; [exact Hz |].
    destruct (Z_le_gt_dec (size f) MAX_BYTES) as [Hle | Hgt]; [exact Hle |].
    rewrite uploader_rejects_size in Hvalid by (now left). discriminate.
Qed.

Lemma uploader_validate_all_sound (fileArray : list File) :
  forall (acc : list VideoUploader.VideoFile) (errs : list string)
         (v : VideoUploader.VideoFile),
    In v (fst (validate_all fileArray acc errs)) ->
    In v acc \/ valid (validate (Some (VideoUploader.file v))) = true.
Proof.
  induction fileArray as [| f rest IH]; intros acc errs v Hin; simpl in Hin.
  - now left.
  - destruct (valid (validate (Some f))) eqn:Hvalid; simpl in Hin.
    + destruct (createObjectURL f) as [u | message].
      * apply IH in Hin as [Hin | Hin]; [| now right].
        apply in_app_or in Hin as [Hin | [<- | []]]; [now left |].
        right. exact Hvalid.
      * now apply IH in Hin.
    + now apply IH in Hin.
Qed.

Lemma uploader_validate_all_length (fileArray : list File) :
  forall (acc : list VideoUploader.VideoFile) (errs : list string),
    (List.length (fst (validate_all fileArray acc errs))
     <= List.length acc + List.length fileArray)%nat.
Proof.
  induction fileArray as [| f rest IH]; intros acc errs; simpl.
  - lia.
  - destruct (valid (validate (Some f))); simpl.
    + destruct (createObjectURL f) as [u | message].
      * match goal with |- context [VideoUploader.validate_all _ _ _ _ rest ?a ?e] =>
          specialize (IH a e) end.
        rewrite length_app in IH. simpl in IH. lia.
      * match goal with |- context [VideoUploader.validate_all _ _ _ _ rest ?a ?e] =>
          specialize (IH a e) end. lia.
    + match goal with |- context [VideoUploader.validate_all _ _ _ _ rest ?a ?e] =>
        specialize (IH a e) end. lia.
Qed.

Lemma uploader_select_guard (n : nat) (fileArray : list File) :
  (6 < n + List.length fileArray)%nat ->
  newVideos (select n (Some fileArray)) = []
  /\ (fileArray <> [] ->
      select n (Some fileArray)
      = {| setError := [Some "Maximum 6 videos allowed"]; newVideos := [] |}).
Proof.
  intros Hmany. apply Nat.ltb_lt in Hmany.
  destruct fileArray as [| f rest]; [split; [reflexivity | congruence] |].
  unfold VideoUploader.handleFileSelect. rewrite Hmany. split; reflexivity.
Qed.

Lemma uploader_select_sound (n : nat) (files : option (list File))
  (v : VideoUploader.VideoFile) :
  In v (newVideos (select n files)) ->
  size (VideoUploader.file v) <> 0%Z /\ (size (VideoUploader.file v) <= MAX_BYTES)%Z.
Proof.
  unfold VideoUploader.handleFileSelect.
  destruct files as [[| f rest] |]; try (intros []).
  destruct (6 <? n + List.length (f :: rest))%nat; [intros [] |].
  destruct (validate_all (f :: rest) [] []) as [vs errs] eqn:Hall. cbn [newVideos].
  intros Hin. apply uploader_valid_size.
  assert (Hfst : In v (fst (validate_all (f :: rest) [] []))) by (now rewrite Hall).
  apply uploader_validate_all_sound in Hfst as [[] | Hvalid]. exact Hvalid.
Qed.

Lemma uploader_select_length (st : VideoUploader.State) (files : option (list File)) :
  (List.length (VideoUploader.videos st) <= 6)%nat ->
  (List.length
     (VideoUploader.videos
        (VideoUploader.apply (select (List.length (VideoUploader.videos st)) files) st))
   <= 6)%nat.
Proof.
  intros Hsix. unfold VideoUploader.apply. cbn [VideoUploader.videos].
  rewrite length_app. unfold VideoUploader.handleFileSelect.
  destruct files as [[| f rest] |]; cbn [newVideos List.length]; try lia.
  destruct (6 <? _)%nat eqn:Hguard; cbn [newVideos List.length]; [lia |].
  apply Nat.ltb_ge in Hguard.
  pose proof (uploader_validate_all_length (f :: rest) [] []) as Hlen.
  destruct (validate_all (f :: rest) [] []) as [vs errs]. cbn [newVideos].
  cbn [fst List.length] in Hlen. cbn [List.length] in Hguard. lia.
Qed.

End UploaderFacts.

Section UploaderModesFacts.

Variable media : File -> MediaOutcome.
Variable createObjectURL : File -> ObjectURL.
Variable mode : VideoUploaderModes.AnalysisMode.

#[local] Arguments VideoUploaderModes.validateVideo : simpl never.

#[local] Abbreviation validate := (VideoUploaderModes.validateVideo media).
#[local] Abbreviation validate_all :=
  (VideoUploaderModes.validate_all media createObjectURL mode).
#[local] Abbreviation select :=
  (fun n => VideoUploaderModes.handleFileSelect media createObjectURL n mode).

Lemma modes_rejects_size (f : File) :
  (size f > MAX_BYTES)%Z \/ size f = 0%Z -> valid (validate (Some f) mode) = false.
Proof.
  unfold VideoUploaderModes.validateVideo, MAX_BYTES. intros Hsize.
  destruct (negb (startsWith (type f) "video/")); [reflexivity |].
  destruct (size f >? _)%Z eqn:Ebig; [reflexivity |].
  destruct (size f =? 0)%Z eqn:Ezero; [reflexivity |].
  apply Z.eqb_neq in Ezero. rewrite Z.gtb_ltb in Ebig. apply Z.ltb_ge in Ebig.
  destruct mode; lia.
Qed.

Lemma modes_valid_size (f : File) :
  valid (validate (Some f) mode) = true -> size f <> 0%Z /\ (size f <= MAX_BYTES)%Z.
Proof.
  intros Hvalid.
  destruct (Z.eq_dec (size f) 0) as [Hz | Hz].
  - rewrite modes_rejects_size in Hvalid by (now right). discriminate.
  - split; [exact Hz |].
    destruct (Z_le_gt_dec (size f) MAX_BYTES) as [Hle | Hgt]; [exact Hle |].
    rewrite modes_rejects_size in Hvalid by (now left). discriminate.
Qed.

Lemma modes_validate_all_sound (fileArray : list File) :
  forall (acc : list VideoUploaderModes.VideoFile) (errs : list string)
         (v : VideoUploaderModes.VideoFile),
    In v (fst (validate_all fileArray acc errs)) ->
    In v acc \/ valid (validate (Some (VideoUploaderModes.file v)) mode) = true.
Proof.
  induction fileArray as [| f rest IH]; intros acc errs v Hin; simpl in Hin.
  - now left.
  - destruct (valid (validate (Some f) mode)) eqn:Hvalid; simpl in Hin.
    + destruct (createObjectURL f) as [u | message].
      * apply IH in Hin as [Hin | Hin]; [| now right].
        apply in_app_or in Hin as [Hin | [<- | []]]; [now left |].
        right. exact Hvalid.
      * now apply IH in Hin.
    + now apply IH in Hin.
Qed.

Lemma modes_validate_all_length (fileArray : list File) :
  forall (acc : list VideoUploaderModes.VideoFile) (errs : list string),
    (List.length (fst (validate_all fileArray acc errs))
     <= List.length acc + List.length fileArray)%nat.
Proof.
  induction fileArray as [| f rest IH]; intros acc errs; simpl.
  - lia.
  - destruct (valid (validate (Some f) mode)); simpl.
    + destruct (createObjectURL f) as [u | message].
      * match goal with |- context [VideoUploaderModes.validate_all _ _ _ rest ?a ?e] =>
          specialize (IH a e) end.
        rewrite length_app in IH. simpl in IH. lia.
      * match goal with |- context [VideoUploaderModes.validate_all _ _ _ rest ?a ?e] =>
          specialize (IH a e) end. lia.
    + match goal with |- context [VideoUploaderModes.validate_all _ _ _ rest ?a ?e] =>
        specialize (IH a e) end. lia.
Qed.

Lemma modes_select_guard (n : nat) (fileArray : list File) :
  (6 < n + List.length fileArray)%nat ->
  newVideos (select n (Some fileArray)) = []
  /\ (fileArray <> [] ->
      select n (Some fileArray)
      = {| setError := [Some "Maximum 6 videos allowed"]; newVideos := [] |}).
Proof.
  intros Hmany. apply Nat.ltb_lt in Hmany.
  destruct fileArray as [| f rest]; [split; [reflexivity | congruence] |].
  unfold VideoUploaderModes.handleFileSelect. rewrite Hmany. split; reflexivity.
Qed.

Lemma modes_select_sound (n : nat) (files : option (list File))
  (v : VideoUploaderModes.VideoFile) :
  In v (newVideos (select n files)) ->
  size (VideoUploaderModes.file v) <> 0%Z
  /\ (size (VideoUploaderModes.file v) <= MAX_BYTES)%Z.
Proof.
  unfold VideoUploaderModes.handleFileSelect.
  destruct files as [[| f rest] |]; try (intros []).
  destruct (6 <? n + List.length (f :: rest))%nat; [intros [] |].
  destruct (validate_all (f :: rest) [] []) as [vs errs] eqn:Hall. cbn [newVideos].
  intros Hin. apply modes_valid_size.
  assert (Hfst : In v (fst (validate_all (f :: rest) [] []))) by (now rewrite Hall).
  apply modes_validate_all_sound in Hfst as [[] | Hvalid]. exact Hvalid.
Qed.

Lemma modes_select_length (st : VideoUploaderModes.State) (files : option (list File)) :
  (List.length (VideoUploaderModes.videos st) <= 6)%nat ->
  (List.length
     (VideoUploaderModes.videos
        (VideoUploaderModes.apply
           (select (List.length (VideoUploaderModes.videos st)) files) st))
   <= 6)%nat.
Proof.
  intros Hsix. unfold VideoUploaderModes.apply. cbn [VideoUploaderModes.videos].
  rewrite length_app. unfold VideoUploaderModes.handleFileSelect.
  destruct files as [[| f rest] |]; cbn [newVideos List.length]; try lia.
  destruct (6 <? _)%nat eqn:Hguard; cbn [newVideos List.length]; [lia |].
  apply Nat.ltb_ge in Hguard.
  pose proof (modes_validate_all_length (f :: rest) [] []) as Hlen.
  destruct (validate_all (f :: rest) [] []) as [vs errs]. cbn [newVideos].
  cbn [fst List.length] in Hlen. cbn [List.length] in Hguard. lia.
Qed.

End UploaderModesFacts.

Lemma uploadVideos_seven_files (API_URL : string) (server : Request -> Settled)
  (l : list (option File)) (config : Api.AnalysisConfig) :
  (6 < List.length l)%nat ->
  run (Api.uploadVideos API_URL server (Some l) config)
  = (Throw (Error (Str "Maximum 6 videos allowed")), []).
Proof.
  intros Hmany. unfold run, Api.uploadVideos, try_catch, bind, Api.check_files.
  destruct l as [| f rest]; [simpl in Hmany; lia |].
  apply Nat.ltb_lt in Hmany. rewrite Hmany. reflexivity.
Qed.

(** What holds of the limit of six and of the sizes: uploadVideos throws,
    before any request, when given more than six files; the selection
    handler of the uploader (in both of its versions) refuses a selection
    that, added to the count of videos the handler closed over, exceeds
    six, so that a handler whose count is the length of the list keeps a
    list of at most six so; and a file larger than 100MB or of size zero
    is refused by validateVideo, whatever the browser reports, and never
    enters the list that is uploaded. *)
Lemma limit_of_six_and_sizes :
  (forall API_URL server l config,
      (6 < List.length l)%nat ->
      run (Api.uploadVideos API_URL server (Some l) config)
      = (Throw (Error (Str "Maximum 6 videos allowed")), []))
  /\
  (forall Number_toString media createObjectURL maxDuration n fileArray,
      (6 < n + List.length fileArray)%nat -> fileArray <> [] ->
      VideoUploader.handleFileSelect Number_toString media createObjectURL maxDuration
        n (Some fileArray)
      = {| setError := [Some "Maximum 6 videos allowed"]; newVideos := [] |})
  /\
  (forall media createObjectURL mode n fileArray,
      (6 < n + List.length fileArray)%nat -> fileArray <> [] ->
      VideoUploaderModes.handleFileSelect media createObjectURL n mode (Some fileArray)
      = {| setError := [Some "Maximum 6 videos allowed"]; newVideos := [] |})
  /\
  (forall Number_toString media createObjectURL maxDuration st files,
      (List.length (VideoUploader.videos st) <= 6)%nat ->
      (List.length
         (VideoUploader.videos
            (VideoUploader.apply
               (VideoUploader.handleFileSelect Number_toString media createObjectURL
                  maxDuration (List.length (VideoUploader.videos st)) files) st))
       <= 6)%nat)
  /\
  (forall media createObjectURL mode st files,
      (List.length (VideoUploaderModes.videos st) <= 6)%nat ->
      (List.length
         (VideoUploaderModes.videos
            (VideoUploaderModes.apply
               (VideoUploaderModes.handleFileSelect media createObjectURL
                  (List.length (VideoUploaderModes.videos st)) mode files) st))
       <= 6)%nat)
  /\
  (forall Number_toString media maxDuration mediaModes mode f,
      (size f > 100 * 1024 * 1024)%Z \/ size f = 0%Z ->
      valid (VideoUploader.validateVideo Number_toString media maxDuration (Some f)) = false
      /\ valid (VideoUploaderModes.validateVideo mediaModes (Some f) mode) = false)
  /\
  (forall Number_toString media createObjectURL maxDuration n files v,
      In v (newVideos (VideoUploader.handleFileSelect Number_toString media
                         createObjectURL maxDuration n files)) ->
      size (VideoUploader.file v) <> 0%Z
      /\ (size (VideoUploader.file v) <= 100 * 1024 * 1024)%Z)
  /\
  (forall media createObjectURL mode n files v,
      In v (newVideos (VideoUploaderModes.handleFileSelect media createObjectURL
                         n mode files)) ->
      size (VideoUploaderModes.file v) <> 0%Z
      /\ (size (VideoUploaderModes.file v) <= 100 * 1024 * 1024)%Z).
Proof.
  change (100 * 1024 * 1024)%Z with MAX_BYTES.
  repeat split.
  - apply uploadVideos_seven_files.
  - intros. now apply uploader_select_guard.
  - intros. now apply (modes_select_guard media createObjectURL mode).
  - intros. now apply uploader_select_length.
  - intros. now apply (modes_select_length media createObjectURL mode).
  - now apply uploader_rejects_size.
  - now apply modes_rejects_size.
  - eapply uploader_select_sound; eassumption.
  - eapply uploader_select_sound; eassumption.
  - eapply (modes_select_sound media createObjectURL mode); eassumption.
  - eapply (modes_select_sound media createObjectURL mode); eassumption.
Qed.

Lemma limit_of_six_and_sizes_example :
  run (Api.uploadVideos Examples.base_url
         (fun _ => Resolved (Examples.respond Null))
         (Some Examples.seven_clips) Examples.default_config)
  = (Throw (Error (Str "Maximum 6 videos allowed")), [])
  /\ VideoUploader.handleFileSelect Examples.render Examples.plays Examples.blob_url
       (of_Z 10) 5 (Some [Examples.clip; Examples.clip])
     = {| setError := [Some "Maximum 6 videos allowed"]; newVideos := [] |}
  /\ VideoUploaderModes.handleFileSelect Examples.plays Examples.blob_url
       5 VideoUploaderModes.frame (Some [Examples.clip; Examples.clip])
     = {| setError := [Some "Maximum 6 videos allowed"]; newVideos := [] |}
  /\ (List.length
        (VideoUploader.videos
           (VideoUploader.apply
              (VideoUploader.handleFileSelect Examples.render Examples.plays
                 Examples.blob_url (of_Z 10) 0 (Some [Examples.clip]))
              {| VideoUploader.videos := []; VideoUploader.error := None |}))
      <= 6)%nat
  /\ valid (VideoUploader.validateVideo Examples.render Examples.plays (of_Z 10)
              (Some Examples.huge_clip)) = false
  /\ valid (VideoUploaderModes.validateVideo Examples.plays (Some Examples.empty_clip)
              VideoUploaderModes.multimodal) = false
  /\ size Examples.clip <> 0%Z.
Proof.
  destruct limit_of_six_and_sizes
    as (Hupload & Hselect & Hselect' & Hsix & Hsix' & Hsize & Hlist & Hlist').
  split; [apply Hupload; simpl; lia |].
  split; [apply Hselect; [simpl; lia | discriminate] |].
  split; [apply Hselect'; [simpl; lia | discriminate] |].
  split.
  { apply (Hsix Examples.render Examples.plays Examples.blob_url (of_Z 10)
             {| VideoUploader.videos := []; VideoUploader.error := None |}
             (Some [Examples.clip])).
    simpl. lia. }
  split.
  { apply (Hsize Examples.render Examples.plays (of_Z 10) Examples.plays
             VideoUploaderModes.frame Examples.huge_clip).
    left. reflexivity. }
  split.
  { apply (Hsize Examples.render Examples.plays (of_Z 10) Examples.plays
             VideoUploaderModes.multimodal Examples.empty_clip).
    right. reflexivity. }
  apply (Hlist Examples.render Examples.plays Examples.blob_url (of_Z 10) 0%nat
           (Some [Examples.clip])
           {| VideoUploader.file := Examples.clip;
              VideoUploader.preview := "blob:match.mp4";
              VideoUploader.duration := of_Z 8 |}).
  left. reflexivity.
Defined.

(** C4, the defect. The test of the selection handler reads the number
    of videos the handler closed over, and the handler waits for the
    validation of its files before it adds them. Two selections of four
    files, the second made before the first has added its videos, are both
    tested against the count 0: both pass, and the list ends with eight
    videos and no error, in both versions of the uploader. A handler made
    for the list of four refuses the same second selection. uploadVideos
    refuses the eight files, with nothing sent. *)
Theorem selection_limit_missed_by_overlapping_selections :
  let start := {| VideoUploader.videos := []; VideoUploader.error := None |} in
  let select :=
    VideoUploader.handleFileSelect Examples.render Examples.plays Examples.blob_url
      (of_Z 10) in
  let once := VideoUploader.apply (select 0%nat (Some Examples.four_clips)) start in
  let twice := VideoUploader.apply (select 0%nat (Some Examples.four_clips)) once in
  let start' := {| VideoUploaderModes.videos := []; VideoUploaderModes.error := None |} in
  let select' n :=
    VideoUploaderModes.handleFileSelect Examples.plays Examples.blob_url n
      VideoUploaderModes.frame in
  let once' := VideoUploaderModes.apply (select' 0%nat (Some Examples.four_clips)) start' in
  let twice' := VideoUploaderModes.apply (select' 0%nat (Some Examples.four_clips)) once' in
  List.length (VideoUploader.videos once) = 4%nat
  /\ List.length (VideoUploader.videos twice) = 8%nat
  /\ VideoUploader.error twice = None
  /\ select (List.length (VideoUploader.videos once)) (Some Examples.four_clips)
     = {| setError := [Some "Maximum 6 videos allowed"]; newVideos := [] |}
  /\ List.length (VideoUploaderModes.videos twice') = 8%nat
  /\ VideoUploaderModes.error twice' = None
  /\ select' (List.length (VideoUploaderModes.videos once')) (Some Examples.four_clips)
     = {| setError := [Some "Maximum 6 videos allowed"]; newVideos := [] |}
  /\ run (Api.uploadVideos Examples.base_url
            (fun _ => Resolved (Examples.respond Examples.success_body))
            (Some (map (fun v => Some (VideoUploader.file v)) (VideoUploader.videos twice)))
            Examples.default_config)
     = (Throw (Error (Str "Maximum 6 videos allowed")), []).
Proof.
  cbv zeta. repeat split; vm_compute; reflexivity.
Qed.

(** ** lib/api.ts: the response of the analysis *)

Lemma http_error_is_Error (default : string) (r : Response) :
  exists arg, Api.http_error default r = Error arg.
Proof.
  unfold Api.http_error.
  destruct (status r =? 400)%Z; [eexists; reflexivity |].
  destruct (status r =? 413)%Z; [eexists; reflexivity |].
  destruct (status r =? 500)%Z; [eexists; reflexivity |].
  destruct (status r >=? 500)%Z; eexists; reflexivity.
Qed.

(** The message of the error branch is never falsy: the text kept for a
    400 status is the one the server sent (or its fallbacks), never the
    Invalid request sentence. *)
Lemma errorMessage_truthy (default : string) (r : Response) :
  default <> "" -> truthy (Api.errorMessage default r) = true.
Proof.
  intros Hdefault.
  assert (Hd : truthy (Str default) = true).
  { simpl. destruct (default =? "") eqn:E; [| reflexivity].
    apply String.eqb_eq in E. contradiction. }
  assert (Hfallback :
            truthy (or_else (Str (statusText r))
                      (Str ("Server error (" ++ decimal (status r) ++ ")"))) = true).
  { unfold or_else. destruct (truthy (Str (statusText r))) eqn:E; [exact E | reflexivity]. }
  unfold Api.errorMessage.
  destruct (Api.response_json r) as [errorData | e]; [| exact Hfallback].
  destruct (get errorData "detail") as [detail | e]; [| exact Hfallback].
  destruct (truthy detail) eqn:Edetail; [exact Edetail |].
  destruct (get errorData "message") as [message | e]; [| exact Hfallback].
  unfold or_else. destruct (truthy message) eqn:Emessage; [exact Emessage | exact Hd].
Qed.

Lemma append_files_inv (files : list (option File)) :
  forall formData result,
    Api.append_files files formData = Return result ->
    result = formData ++ video_entries files
    /\ forallb (fun f => match f with Some _ => true | None => false end) files = true.
Proof.
  induction files as [| [file |] rest IH]; intros formData result H; simpl in H.
  - injection H as <-. now rewrite app_nil_r.
  - apply IH in H as [-> Hall]. split; [| exact Hall].
    rewrite <- app_assoc. reflexivity.
  - discriminate.
Qed.

Lemma uploadVideos_on_response (API_URL : string) (server : Request -> Settled)
  (l : list (option File)) (config : Api.AnalysisConfig) (r : Response) :
  accepted_files l = true ->
  gt (Api.frame_interval config) (of_Z 0) = true ->
  gt (Api.max_duration config) (of_Z 0) = true ->
  server (analyze_request API_URL l config) = Resolved r ->
  run (Api.uploadVideos API_URL server (Some l) config)
  = (response_outcome r, [analyze_request API_URL l config]).
Proof.
  intros Hacc Hfi Hmd Hserver.
  apply positive_not_le in Hfi. apply positive_not_le in Hmd.
  unfold run, Api.uploadVideos, try_catch, bind.
  rewrite (check_files_accepted l [] Hacc), Hfi, Hmd. simpl.
  apply andb_prop in Hacc as [_ Hall].
  unfold lift. rewrite (append_files_accepted l [] Hall). simpl.
  unfold Api.fetch. fold (analyze_request API_URL l config). rewrite Hserver.
  unfold response_outcome, throw_if, Api.response_json.
  destruct (ok r); simpl.
  - destruct (json r) as [v |]; [| reflexivity].
    destruct v as [| | b | n | s | items | props]; simpl; try reflexivity.
    + destruct b; reflexivity.
    + destruct n as [| q | sg]; simpl; try reflexivity.
      destruct (negb (is_zero q)); reflexivity.
    + destruct (negb (s =? "")); reflexivity.
    + destruct (isArray (lookup "frames" props)); reflexivity.
  - destruct (http_error_is_Error "Failed to upload videos" r) as [arg ->]. reflexivity.
Qed.

Lemma check_files_inv (files : option (list (option File))) (l : list (option File))
  (log log' : list Request) :
  Api.check_files files log = (Return l, log') ->
  files = Some l /\ log' = log
  /\ (0 <? List.length l)%nat = true /\ (List.length l <=? 6)%nat = true.
Proof.
  unfold Api.check_files.
  destruct files as [[| f rest] |]; try discriminate.
  destruct (6 <? List.length (f :: rest))%nat eqn:E; [discriminate |].
  intros H. injection H as <- <-. apply Nat.ltb_ge in E.
  repeat split. now apply Nat.leb_le.
Qed.

Lemma uploadVideos_returns_inv (API_URL : string) (server : Request -> Settled)
  (files : option (list (option File))) (config : Api.AnalysisConfig)
  (v : value) (log : list Request) :
  run (Api.uploadVideos API_URL server files config) = (Return v, log) ->
  exists l r items,
    files = Some l
    /\ accepted_files l = true
    /\ server (analyze_request API_URL l config) = Resolved r
    /\ ok r = true
    /\ json r = Some v
    /\ get v "frames" = Return (Array items)
    /\ log = [analyze_request API_URL l config].
Proof.
  unfold run, Api.uploadVideos. intros H.
  unfold try_catch in H.
  match type of H with
  | (let (o, log') := ?m [] in _) = _ => destruct (m []) as [[a | e] log0] eqn:Hbody
  end.
  2:{ destruct (rethrow_throws value e log0) as [e' He']. rewrite He' in H. discriminate. }
  injection H as -> ->.
  unfold bind in Hbody.
  destruct (Api.check_files files []) as [[l | e] log1] eqn:Hcheck; [| discriminate].
  apply check_files_inv in Hcheck as (-> & -> & Hpos & Hmax).
  unfold throw_if in Hbody.
  destruct (le (Api.frame_interval config) (of_Z 0)); [discriminate |].
  destruct (le (Api.max_duration config) (of_Z 0)); [discriminate |].
  simpl in Hbody. unfold lift in Hbody.
  destruct (Api.append_files l []) as [formData | e] eqn:Happend; [| discriminate].
  apply append_files_inv in Happend as [-> Hall]. simpl in Hbody.
  unfold Api.fetch in Hbody. fold (analyze_request API_URL l config) in Hbody.
  destruct (server (analyze_request API_URL l config)) as [e | r] eqn:Hserver;
    [discriminate |].
  destruct (ok r) eqn:Hok; simpl in Hbody; [| discriminate].
  unfold Api.response_json in Hbody.
  destruct (json r) as [result |] eqn:Hjson; [| discriminate].
  destruct (truthy result) eqn:Htruthy; simpl in Hbody; [| discriminate].
  destruct (get result "frames") as [fr | e] eqn:Hget; [| discriminate].
  destruct fr as [| | b | n | s | items | props]; simpl in Hbody; try discriminate.
  injection Hbody as <- <-.
  exists l, r, items. repeat split; try assumption; try reflexivity.
  unfold accepted_files. now rewrite Hpos, Hmax, Hall.
Qed.

(** What uploadVideos makes of a response. It returns normally only when
    the response is ok and the frames field of its parsed body is an array.
    Once the request is out (accepted files, positive configuration), it
    throws an Error for every response that is not ok: a fixed message for
    the statuses 413, 500 and the other ones from 500 on, and for every
    other status, 400 among them, the message computed from the body. It
    throws for every ok response whose body is missing, is falsy, or has
    no array under frames. Whatever the arguments, it throws when the
    server answers with a response of one of these kinds. *)
Lemma uploadVideos_outcomes :
  forall (API_URL : string) (server : Request -> Settled)
         (files : option (list (option File))) (config : Api.AnalysisConfig),
    let out := fst (run (Api.uploadVideos API_URL server files config)) in
    (forall v, out = Return v ->
       exists l r items,
         files = Some l
         /\ server (analyze_request API_URL l config) = Resolved r
         /\ ok r = true
         /\ json r = Some v
         /\ get v "frames" = Return (Array items))
    /\
    (forall l r,
        files = Some l -> accepted_files l = true ->
        gt (Api.frame_interval config) (of_Z 0) = true ->
        gt (Api.max_duration config) (of_Z 0) = true ->
        server (analyze_request API_URL l config) = Resolved r ->
        (ok r = false ->
           (exists arg, out = Throw (Error arg))
           /\ (status r = 413%Z ->
               out = Throw (Error (Str "File too large. Maximum file size is 100MB.")))
           /\ (status r = 500%Z ->
               out = Throw (Error (Str "Server error. Please try again later.")))
           /\ ((status r > 500)%Z ->
               out = Throw (Error (Str ("Server error (" ++ decimal (status r)
                                        ++ "). Please try again later."))))
           /\ ((status r < 500)%Z -> status r <> 413%Z ->
               out = Throw (Error (Api.errorMessage "Failed to upload videos" r))))
        /\ (ok r = true ->
            (json r = None -> exists e, out = Throw e)
            /\ (forall v, json r = Some v -> truthy v = false ->
                out = Throw (Error (Str "Invalid response from server")))
            /\ (forall v, json r = Some v -> truthy v = true ->
                (forall items, get v "frames" <> Return (Array items)) ->
                out = Throw (Error (Str "Invalid response format: frames must be an array")))
            /\ (forall v items, json r = Some v -> truthy v = true ->
                get v "frames" = Return (Array items) ->
                out = Return v)))
    /\
    (forall r,
        (forall req, server req = Resolved r) ->
        ok r = false \/ json r = None
        \/ (exists v, json r = Some v
                      /\ forall items, get v "frames" <> Return (Array items)) ->
        exists e, out = Throw e).
Proof.
  intros API_URL server files config out.
  assert (Hreturns :
            forall v, out = Return v ->
              exists l r items,
                files = Some l
                /\ server (analyze_request API_URL l config) = Resolved r
                /\ ok r = true
                /\ json r = Some v
                /\ get v "frames" = Return (Array items)).
  { intros v Hout. subst out.
    destruct (run (Api.uploadVideos API_URL server files config)) as [o log] eqn:Hrun.
    simpl in Hout. subst o.
    apply uploadVideos_returns_inv in Hrun
      as (l & r & items & Hfiles & _ & Hserver & Hok & Hjson & Hget & _).
    exists l, r, items. repeat split; assumption. }
  split; [exact Hreturns |].
  split.
  2:{ intros r Hserver Hbad.
      destruct out as [v | e] eqn:Hout; [| now exists e].
      destruct (Hreturns v eq_refl) as (l & r' & items & _ & Hr' & Hok & Hjson & Hget).
      rewrite Hserver in Hr'. injection Hr' as <-.
      destruct Hbad as [Hbad | [Hbad | (v' & Hv' & Hbad)]]; [congruence | congruence |].
      rewrite Hjson in Hv'. injection Hv' as <-. now destruct (Hbad items). }
  clear Hreturns.
  intros l r -> Hacc Hfi Hmd Hserver. subst out.
    rewrite (uploadVideos_on_response API_URL server l config r Hacc Hfi Hmd Hserver).
    cbn [fst]. unfold response_outcome. split.
    + intros ->. cbn [negb]. unfold Api.http_error. repeat split.
      * destruct (http_error_is_Error "Failed to upload videos" r) as [arg Harg].
        exists arg. unfold Api.http_error in Harg. now rewrite Harg.
      * intros ->. reflexivity.
      * intros ->. reflexivity.
      * intros Hbig.
        destruct (status r =? 400)%Z eqn:E1; [apply Z.eqb_eq in E1; lia |].
        destruct (status r =? 413)%Z eqn:E2; [apply Z.eqb_eq in E2; lia |].
        destruct (status r =? 500)%Z eqn:E3; [apply Z.eqb_eq in E3; lia |].
        destruct (status r >=? 500)%Z eqn:E4; [reflexivity |].
        rewrite Z.geb_leb in E4. apply Z.leb_gt in E4. lia.
      * intros Hsmall H413.
        destruct (status r =? 400)%Z eqn:E1.
        { unfold or_else.
          now rewrite (errorMessage_truthy "Failed to upload videos" r ltac:(discriminate)). }
        destruct (status r =? 413)%Z eqn:E2; [apply Z.eqb_eq in E2; contradiction |].
        destruct (status r =? 500)%Z eqn:E3; [apply Z.eqb_eq in E3; lia |].
        destruct (status r >=? 500)%Z eqn:E4; [| reflexivity].
        rewrite Z.geb_leb in E4. apply Z.leb_le in E4. lia.
    + intros ->. cbn [negb]. repeat split.
      * intros ->. eexists; reflexivity.
      * intros v -> Hfalsy. now rewrite Hfalsy.
      * intros v -> Htruthy Hnot. rewrite Htruthy. cbn [negb].
        destruct v as [| | b | n | s | items | props]; try reflexivity.
        destruct (lookup "frames" props) as [| | b | n | s | items | props'] eqn:Hl;
          try reflexivity.
        exfalso. apply (Hnot items). simpl. now rewrite Hl.
      * intros v items -> Htruthy Hget. rewrite Htruthy. cbn [negb].
        destruct v as [| | b | n | s | items' | props]; try discriminate.
        simpl in Hget. injection Hget as Hget. now rewrite Hget.
Qed.

(** ** The result boundary, as the client sees it *)

Lemma returned_object (API_URL : string) (server : Request -> Settled)
  (files : option (list (option File))) (config : Api.AnalysisConfig)
  (v : value) (log : list Request) :
  run (Api.uploadVideos API_URL server files config) = (Return v, log) ->
  exists props items, v = Object props /\ lookup "frames" props = Array items.
Proof.
  intros H. apply uploadVideos_returns_inv in H
    as (l & r & items & _ & _ & _ & _ & _ & Hget & _).
  destruct v as [| | b | n | s | items' | props]; try discriminate.
  exists props, items. split; [reflexivity |]. simpl in Hget. now injection Hget.
Qed.

Lemma delivered_as_it_came (API_URL : string) (server : Request -> Settled)
  (l : list (option File)) (config : Api.AnalysisConfig) (r : Response)
  (props : list (string * value)) :
  accepted_files l = true ->
  gt (Api.frame_interval config) (of_Z 0) = true ->
  gt (Api.max_duration config) (of_Z 0) = true ->
  server (analyze_request API_URL l config) = Resolved r ->
  ok r = true ->
  json r = Some (Object props) ->
  isArray (lookup "frames" props) = true ->
  run (Api.uploadVideos API_URL server (Some l) config)
  = (Return (Object props), [analyze_request API_URL l config]).
Proof.
  intros Hacc Hfi Hmd Hserver Hok Hjson Hframes.
  rewrite (uploadVideos_on_response API_URL server l config r Hacc Hfi Hmd Hserver).
  unfold response_outcome. rewrite Hok, Hjson. cbn [negb truthy]. now rewrite Hframes.
Qed.

(** The handler of the App reads two properties of the result, frames and
    status. *)
Lemma handler_reads_frames_and_status (props props' : list (string * value))
  (st : AppWithStatus.State) :
  lookup "frames" props' = lookup "frames" props ->
  lookup "status" props' = lookup "status" props ->
  AppWithStatus.handleAnalysisComplete (Object props') st
  = AppWithStatus.handleAnalysisComplete (Object props) st.
Proof.
  intros Hframes Hstatus. unfold AppWithStatus.handleAnalysisComplete.
  cbn [get]. now rewrite Hframes, Hstatus.
Qed.




(** ** Partial results *)

(** C2, as stated, fails: a partial body with its frames, total_frames
    and status and nothing besides is delivered by uploadVideos and shown
    with the notice about the quota; and the same body with a reason that
    names the unavailable service leaves the App in the very same state,
    with the same notice. *)
Lemma partial_reason_counterexample :
  fst (run (Api.uploadVideos Examples.base_url
              (fun _ => Resolved (Examples.respond Examples.partial_body))
              (Some Examples.one_clip) Examples.default_config))
  = Return Examples.partial_body
  /\ field Examples.partial_body "status" = Str "partial"
  /\ keys Examples.partial_body = ["frames"; "total_frames"; "status"]
  /\ ~ carries_reason Examples.partial_body
  /\ (exists st,
         AppWithStatus.handleAnalysisComplete Examples.partial_body AppWithStatus.initial
         = Return st
         /\ AppWithStatus.partial_notice st = Some AppWithStatus.quota_notice
         /\ AppWithStatus.handleAnalysisComplete Examples.partial_body_with_reason
              AppWithStatus.initial
            = Return st).
Proof.
  split; [reflexivity |]. split; [reflexivity |]. split; [reflexivity |]. split.
  - intros (p & Hnot & Htruthy). unfold response_fields in Hnot.
    cbn [field Examples.partial_body lookup] in Htruthy.
    destruct ("frames" =? p) eqn:E1;
      [apply String.eqb_eq in E1; apply Hnot; simpl; tauto |].
    destruct ("total_frames" =? p) eqn:E2;
      [apply String.eqb_eq in E2; apply Hnot; simpl; tauto |].
    destruct ("status" =? p) eqn:E3;
      [apply String.eqb_eq in E3; apply Hnot; simpl; tauto |].
    discriminate.
  - eexists. split; [reflexivity |]. split; reflexivity.
Qed.

(** C2, amended. Whenever a response with the status partial is
    delivered, the App stores its frames and that status and shows one
    fixed notice, the one about the exhausted quota. The handler reads
    the frames and the status of the result and nothing else: two results
    that agree on these two leave the App in the same state, so that a
    reason, whether the response carries one or not and whatever it says,
    changes nothing, and quota exhaustion and an unavailable service are
    not told apart. *)
Theorem partial_response_notice :
  forall (API_URL : string) (server : Request -> Settled)
         (files : option (list (option File))) (config : Api.AnalysisConfig)
         (v : value) (log : list Request) (st : AppWithStatus.State),
    run (Api.uploadVideos API_URL server files config) = (Return v, log) ->
    field v "status" = Str "partial" ->
    (exists items st',
        get v "frames" = Return (Array items)
        /\ AppWithStatus.handleAnalysisComplete v st = Return st'
        /\ AppWithStatus.frames st' = Array items
        /\ AppWithStatus.analysisStatus st' = Str "partial"
        /\ AppWithStatus.error st' = None
        /\ AppWithStatus.partial_notice st' = Some AppWithStatus.quota_notice)
    /\ (forall props props' : list (string * value),
           v = Object props ->
           lookup "frames" props' = lookup "frames" props ->
           lookup "status" props' = lookup "status" props ->
           AppWithStatus.handleAnalysisComplete (Object props') st
           = AppWithStatus.handleAnalysisComplete v st).
Proof.
  intros API_URL server files config v log st Hrun Hpartial. split.
  - apply returned_object in Hrun as (props & items & -> & Hframes).
    cbn [field] in Hpartial.
    exists items. eexists. split; [simpl; now rewrite Hframes |].
    unfold AppWithStatus.handleAnalysisComplete. cbn [get].
    rewrite Hframes, Hpartial. cbn.
    split; [reflexivity |]. repeat split.
  - intros props props' -> Hframes Hstatus.
    now apply handler_reads_frames_and_status.
Qed.

Lemma partial_response_notice_witness :
  (exists items st',
      get Examples.partial_body_with_reason "frames" = Return (Array items)
      /\ AppWithStatus.handleAnalysisComplete Examples.partial_body_with_reason
           AppWithStatus.initial = Return st'
      /\ AppWithStatus.frames st' = Array items
      /\ AppWithStatus.analysisStatus st' = Str "partial"
      /\ AppWithStatus.error st' = None
      /\ AppWithStatus.partial_notice st' = Some AppWithStatus.quota_notice).
Proof.
  apply (proj1 (partial_response_notice Examples.base_url
                  (fun _ => Resolved (Examples.respond Examples.partial_body_with_reason))
                  (Some Examples.one_clip) Examples.default_config
                  Examples.partial_body_with_reason
                  [analyze_request Examples.base_url Examples.one_clip
                     Examples.default_config]
                  AppWithStatus.initial eq_refl eq_refl)).
Defined.

(** ** components/SummaryPanel.tsx *)

Lemma visit_ball_count (frames : list Types.FrameAnalysis) :
  forall a : SummaryPanel.Acc,
    (SummaryPanel.ballVisibleCount (fold_left SummaryPanel.visit frames a)
     <= SummaryPanel.ballVisibleCount a + List.length frames)%nat.
Proof.
  induction frames as [| f rest IH]; intros a; simpl; [lia |].
  specialize (IH (SummaryPanel.visit a f)). simpl in IH.
  destruct (SummaryPanel.ball_visible f); lia.
Qed.

Lemma is_zero_inject_Z (z : Z) : z <> 0%Z -> is_zero (inject_Z z) = false.
Proof.
  intros Hz. unfold is_zero. destruct (Qeq_bool (inject_Z z) 0) eqn:E; [| reflexivity].
  apply Qeq_bool_eq in E. unfold Qeq in E. simpl in E. lia.
Qed.

Lemma ratio_bounds (c n : Z) :
  (0 <= c <= n)%Z -> (0 < n)%Z -> 0 <= inject_Z c / inject_Z n <= 1.
Proof.
  intros Hc Hn.
  assert (Hpos : 0 < inject_Z n) by (unfold Qlt; simpl; lia).
  split.
  - apply Qle_shift_div_l; [exact Hpos |]. rewrite Qmult_0_l.
    unfold Qle; simpl; lia.
  - apply Qle_shift_div_r; [exact Hpos |]. rewrite Qmult_1_l.
    unfold Qle; simpl; lia.
Qed.

Lemma percent_rounds_within (c n : nat) :
  (c <= n)%nat -> (0 < n)%nat ->
  exists z, Math_round (mul (div (of_nat c) (of_nat n)) (of_Z 100)) = Fin z
            /\ (0 <= z <= 100)%Z.
Proof.
  intros Hc Hn. unfold of_nat, of_Z, div.
  rewrite is_zero_inject_Z by lia.
  unfold mul, Math_round. eexists. split; [reflexivity |].
  destruct (ratio_bounds (Z.of_nat c) (Z.of_nat n)) as [Hlo Hhi]; [lia | lia |].
  set (x := inject_Z (Z.of_nat c) / inject_Z (Z.of_nat n)) in *.
  assert (Hx : Qred (Qred x * inject_Z 100) == x * inject_Z 100).
  { rewrite Qred_correct. now rewrite Qred_correct. }
  split.
  - change 0%Z with (Qfloor 0). apply Qfloor_resp_le.
    rewrite Hx.
    apply Qle_trans with (0 + (1 # 2)); [discriminate |].
    apply Qplus_le_compat; [| apply Qle_refl].
    apply Qmult_le_0_compat; [exact Hlo | discriminate].
  - change 100%Z with (Qfloor (201 # 2)). apply Qfloor_resp_le.
    rewrite Hx.
    apply Qle_trans with (1 * inject_Z 100 + (1 # 2)); [| discriminate].
    apply Qplus_le_compat; [| apply Qle_refl].
    apply Qmult_le_compat_r; [exact Hhi | discriminate].
Qed.

(** C9. For the empty frame list the summary has avgPlayersDetected = 0
    and ballVisibilityRate = 0: both quotients by frames.length are
    guarded, and without the guard each would be 0/0, that is NaN. For
    every frame list whose players_detected values are non-negative,
    ballVisibilityRate is an integer from 0 to 100. *)
Theorem summary_rates_guarded :
  (SummaryPanel.avgPlayersDetected (SummaryPanel.summary []) = of_Z 0
   /\ SummaryPanel.ballVisibilityRate (SummaryPanel.summary []) = Fin 0%Z
   /\ SummaryPanel.unguarded_average [] = NaN
   /\ SummaryPanel.unguarded_rate [] = NaN)
  /\
  (forall frames : list Types.FrameAnalysis,
      (forall f, In f frames -> le (of_Z 0) (Types.players_detected f) = true) ->
      exists z : Z,
        SummaryPanel.ballVisibilityRate (SummaryPanel.summary frames) = Fin z
        /\ (0 <= z <= 100)%Z).
Proof.
  split; [repeat split |].
  intros frames _. unfold SummaryPanel.summary. cbn [SummaryPanel.ballVisibilityRate].
  destruct frames as [| f rest] eqn:Hframes.
  - exists 0%Z. split; [reflexivity | lia].
  - rewrite <- Hframes.
    assert (Hlen : (0 < List.length frames)%nat) by (subst frames; simpl; lia).
    pose proof Hlen as Hguard. apply Nat.ltb_lt in Hguard. rewrite Hguard.
    apply percent_rounds_within; [| exact Hlen].
    apply (visit_ball_count frames SummaryPanel.acc0).
Qed.

Lemma summary_rates_guarded_witness :
  exists z : Z,
    SummaryPanel.ballVisibilityRate
      (SummaryPanel.summary [Examples.kickoff; Examples.kickoff; Examples.kickoff])
    = Fin z
    /\ (0 <= z <= 100)%Z.
Proof.
  apply (proj2 summary_rates_guarded).
  intros f [<- | [<- | [<- | []]]]; reflexivity.
Defined.

(** ** The duration text of the overlay component *)

Lemma count_char_app (c : ascii) (s t : string) :
  count_char c (s ++ t)%string = (count_char c s + count_char c t)%nat.
Proof.
  induction s as [| c' s IH]; simpl; [reflexivity |]. rewrite IH. lia.
Qed.

Lemma uint_all_digits (d : Decimal.uint) :
  all_digits (NilEmpty.string_of_uint d) = true.
Proof. induction d; simpl; auto. Qed.

Lemma decimal_numeral (z : Z) : (0 <= z)%Z -> numeral (decimal z).
Proof.
  intros Hz. unfold decimal, numeral.
  destruct z as [| p | p]; [split; [discriminate | reflexivity] | | lia].
  simpl. unfold NilZero.string_of_uint.
  pose proof (uint_all_digits (Pos.to_uint p)) as Hd.
  destruct (Pos.to_uint p); simpl in *; split; try discriminate; auto.
Qed.

Lemma padded_digits (width bound : nat) (z : Z) :
  padded_below width bound = true ->
  (0 <= z < Z.of_nat bound)%Z ->
  digits width (padStart (decimal z) width "0").
Proof.
  intros Hall Hz. unfold padded_below in Hall.
  rewrite forallb_forall in Hall.
  specialize (Hall (Z.to_nat z)). rewrite Z2Nat.id in Hall by lia.
  assert (Hin : In (Z.to_nat z) (seq 0 bound)) by (apply in_seq; lia).
  apply Hall in Hin. apply andb_prop in Hin as [Hlen Hdig].
  apply Nat.eqb_eq in Hlen. now split.
Qed.

Lemma short_decimal (width bound : nat) (z : Z) :
  short_below width bound = true ->
  (0 <= z < Z.of_nat bound)%Z ->
  (String.length (decimal z) <= width)%nat.
Proof.
  intros Hall Hz. unfold short_below in Hall.
  rewrite forallb_forall in Hall.
  specialize (Hall (Z.to_nat z)). rewrite Z2Nat.id in Hall by lia.
  apply Nat.leb_le. apply Hall. apply in_seq. lia.
Qed.

Lemma two_digits_below_100 : padded_below 2 100 = true.
Proof. vm_compute. reflexivity. Qed.

Lemma three_digits_below_1000 : padded_below 3 1000 = true.
Proof. vm_compute. reflexivity. Qed.

Lemma short_below_60 : short_below 2 60 = true.
Proof. vm_compute. reflexivity. Qed.

Lemma floor_range (x : Q) (lo hi : Z) :
  inject_Z lo <= x -> x < inject_Z hi -> (lo <= Qfloor x < hi)%Z.
Proof.
  intros Hlo Hhi. split.
  - rewrite <- (Qfloor_Z lo). now apply Qfloor_resp_le.
  - rewrite Zlt_Qlt. apply Qle_lt_trans with x; [apply Qfloor_le | exact Hhi].
Qed.

(** The remainder of a non-negative dividend by a positive integer. *)
Lemma rem_range (q : Q) (b : Z) :
  0 <= q -> (0 < b)%Z ->
  let r := q - inject_Z b * inject_Z (Qtrunc (q / inject_Z b)) in
  0 <= r /\ r < inject_Z b.
Proof.
  intros Hq Hb r.
  assert (Hbpos : 0 < inject_Z b) by (unfold Qlt; simpl; lia).
  assert (Hquot : 0 <= q / inject_Z b).
  { apply Qle_shift_div_l; [exact Hbpos |]. now rewrite Qmult_0_l. }
  assert (Htrunc : Qtrunc (q / inject_Z b) = Qfloor (q / inject_Z b)).
  { unfold Qtrunc, Qltb. destruct (Qle_bool 0 (q / inject_Z b)) eqn:E; [reflexivity |].
    apply Qle_bool_iff in Hquot. congruence. }
  subst r. rewrite Htrunc.
  set (k := Qfloor (q / inject_Z b)).
  assert (Hk1 : inject_Z k <= q / inject_Z b) by apply Qfloor_le.
  assert (Hk2 : q / inject_Z b < inject_Z (k + 1)) by apply Qlt_floor.
  assert (Hmul1 : inject_Z b * inject_Z k <= q).
  { rewrite Qmult_comm. apply Qmult_le_r with (z := / inject_Z b).
    - now apply Qinv_lt_0_compat.
    - rewrite <- Qmult_assoc, Qmult_inv_r, Qmult_1_r; [exact Hk1 |].
      intros Hzero. rewrite Hzero in Hbpos. now apply Qlt_irrefl in Hbpos. }
  assert (Hmul2 : q < inject_Z b * inject_Z (k + 1)).
  { rewrite Qmult_comm. apply Qmult_lt_r with (z := / inject_Z b).
    - now apply Qinv_lt_0_compat.
    - rewrite <- Qmult_assoc, Qmult_inv_r, Qmult_1_r; [exact Hk2 |].
      intros Hzero. rewrite Hzero in Hbpos. now apply Qlt_irrefl in Hbpos. }
  rewrite inject_Z_plus in Hmul2.
  split.
  - apply Qle_minus_iff in Hmul1. unfold Qminus. exact Hmul1.
  - apply Qlt_minus_iff. apply Qlt_minus_iff in Hmul2.
    setoid_replace (inject_Z b + - (q - inject_Z b * inject_Z k))
      with (inject_Z b * (inject_Z k + inject_Z 1) + - q) by ring.
    exact Hmul2.
Qed.

Lemma toString_below (exponential : Z -> string) (z : Z) :
  (0 <= z < EXPONENT_FROM)%Z -> toString exponential (Fin z) = decimal z.
Proof.
  intros Hz. unfold toString.
  destruct (Z.abs z <? EXPONENT_FROM)%Z eqn:E; [reflexivity |].
  apply Z.ltb_ge in E. lia.
Qed.

Lemma toString_from (exponential : Z -> string) (z : Z) :
  (EXPONENT_FROM <= z)%Z -> toString exponential (Fin z) = exponential z.
Proof.
  intros Hz. unfold toString.
  destruct (Z.abs z <? EXPONENT_FROM)%Z eqn:E; [| reflexivity].
  apply Z.ltb_lt in E. lia.
Qed.

Lemma formatDuration_finite (exponential : Z -> string) (q : Q) :
  let h := Qfloor (Qred (q / inject_Z 3600)) in
  let m := Qfloor (Qred (Qred (q - inject_Z 3600 * inject_Z (Qtrunc (q / inject_Z 3600)))
                         / inject_Z 60)) in
  let s := Qfloor (Qred (q - inject_Z 60 * inject_Z (Qtrunc (q / inject_Z 60)))) in
  let ms := Qfloor (Qred (Qred (q - inject_Z 1 * inject_Z (Qtrunc (q / inject_Z 1)))
                          * inject_Z 1000)) in
  VideoTimestampOverlay.formatDuration exponential (Fin q)
  = (if Qltb (inject_Z 0) (inject_Z h)
     then toString exponential (Fin h)
          ++ ":" ++ padStart (toString exponential (Fin m)) 2 "0"
          ++ ":" ++ padStart (toString exponential (Fin s)) 2 "0"
          ++ "." ++ padStart (toString exponential (Fin ms)) 3 "0"
     else toString exponential (Fin m)
          ++ ":" ++ padStart (toString exponential (Fin s)) 2 "0"
          ++ "." ++ padStart (toString exponential (Fin ms)) 3 "0")%string.
Proof. reflexivity. Qed.

Lemma duration_fields (q : Q) :
  0 <= q ->
  let h := Qfloor (Qred (q / inject_Z 3600)) in
  let m := Qfloor (Qred (Qred (q - inject_Z 3600 * inject_Z (Qtrunc (q / inject_Z 3600)))
                         / inject_Z 60)) in
  let s := Qfloor (Qred (q - inject_Z 60 * inject_Z (Qtrunc (q / inject_Z 60)))) in
  let ms := Qfloor (Qred (Qred (q - inject_Z 1 * inject_Z (Qtrunc (q / inject_Z 1)))
                          * inject_Z 1000)) in
  (0 <= h)%Z /\ (inject_Z 3600 <= q -> (1 <= h)%Z) /\ (q < inject_Z 3600 -> h = 0%Z)
  /\ (0 <= m < 60)%Z /\ (0 <= s < 60)%Z /\ (0 <= ms < 1000)%Z.
Proof.
  intros Hq h m s ms.
  assert (H3600 : 0 < inject_Z 3600) by reflexivity.
  assert (H60 : 0 < inject_Z 60) by reflexivity.
  destruct (rem_range q 3600 Hq ltac:(lia)) as [Hr1 Hr2].
  destruct (rem_range q 60 Hq ltac:(lia)) as [Hs1 Hs2].
  destruct (rem_range q 1 Hq ltac:(lia)) as [Hf1 Hf2].
  assert (Hh : (0 <= h)%Z).
  { subst h. change 0%Z with (Qfloor 0). apply Qfloor_resp_le.
    rewrite Qred_correct. apply Qle_shift_div_l; [exact H3600 |]. now rewrite Qmult_0_l. }
  assert (Hbig : inject_Z 3600 <= q -> (1 <= h)%Z).
  { intros Hbig. subst h. change 1%Z with (Qfloor 1). apply Qfloor_resp_le.
    rewrite Qred_correct. apply Qle_shift_div_l; [exact H3600 |]. now rewrite Qmult_1_l. }
  assert (Hsmall : q < inject_Z 3600 -> h = 0%Z).
  { intros Hsmall. subst h.
    assert (Hrange : (0 <= Qfloor (Qred (q / inject_Z 3600)) < 1)%Z).
    { apply floor_range; rewrite Qred_correct.
      - apply Qle_shift_div_l; [exact H3600 |]. now rewrite Qmult_0_l.
      - apply Qlt_shift_div_r; [exact H3600 |]. now rewrite Qmult_1_l. }
    lia. }
  assert (Hm : (0 <= m < 60)%Z).
  { subst m. apply floor_range; rewrite Qred_correct, Qred_correct.
    - apply Qle_shift_div_l; [exact H60 |]. now rewrite Qmult_0_l.
    - apply Qlt_shift_div_r; [exact H60 |]. exact Hr2. }
  assert (Hs : (0 <= s < 60)%Z).
  { subst s. apply floor_range; rewrite Qred_correct; [exact Hs1 | exact Hs2]. }
  assert (Hms : (0 <= ms < 1000)%Z).
  { subst ms. apply floor_range; rewrite Qred_correct, Qred_correct.
    - apply Qmult_le_0_compat; [exact Hf1 | discriminate].
    - apply Qlt_le_trans with (inject_Z 1 * inject_Z 1000); [| discriminate].
      apply Qmult_lt_compat_r; [reflexivity | exact Hf2]. }
  tauto.
Qed.

Lemma hours_bounds (q : Q) :
  0 <= q ->
  let h := Qfloor (Qred (q / inject_Z 3600)) in
  (q < inject_Z EXPONENT_SECONDS -> (h < EXPONENT_FROM)%Z)
  /\ (inject_Z EXPONENT_SECONDS <= q -> (EXPONENT_FROM <= h)%Z).
Proof.
  intros Hq h. subst h.
  assert (H3600 : 0 < inject_Z 3600) by reflexivity.
  assert (Hprod : inject_Z EXPONENT_SECONDS == inject_Z EXPONENT_FROM * inject_Z 3600).
  { unfold EXPONENT_SECONDS. rewrite <- inject_Z_mult. now rewrite Z.mul_comm. }
  split.
  - intros Hlt.
    apply (floor_range (Qred (q / inject_Z 3600)) 0 EXPONENT_FROM); rewrite Qred_correct.
    + apply Qle_shift_div_l; [exact H3600 |]. now rewrite Qmult_0_l.
    + apply Qlt_shift_div_r; [exact H3600 |]. now rewrite <- Hprod.
  - intros Hge. rewrite <- (Qfloor_Z EXPONENT_FROM). apply Qfloor_resp_le.
    rewrite Qred_correct. apply Qle_shift_div_l; [exact H3600 |]. now rewrite <- Hprod.
Qed.




(** ** The normalizer *)

Lemma normalize_team_cases (v : value) :
  Normalizer.normalize_team v = "A"
  \/ Normalizer.normalize_team v = "B"
  \/ Normalizer.normalize_team v = "unknown".
Proof.
  unfold Normalizer.normalize_team.
  destruct v; auto.
  destruct (Normalizer.mem _ Normalizer.team_a_names); auto.
  destruct (Normalizer.mem _ Normalizer.team_b_names); auto.
Qed.

Lemma normalize_team_again (v : value) :
  Normalizer.normalize_team (Str (Normalizer.normalize_team v))
  = Normalizer.normalize_team v.
Proof.
  destruct (normalize_team_cases v) as [-> | [-> | ->]]; reflexivity.
Qed.

Lemma normalize_players_nonneg (v : value) : (0 <= Normalizer.normalize_players v)%Z.
Proof.
  unfold Normalizer.normalize_players.
  destruct v as [| | b | [| q | s] | s | items | props]; try lia.
  unfold Qltb. destruct (Qle_bool 0 q) eqn:E; simpl; [| lia].
  apply Qle_bool_iff in E. change 0%Z with (Qfloor 0). now apply Qfloor_resp_le.
Qed.

Lemma normalize_players_again (v : value) :
  Normalizer.normalize_players (Number (of_Z (Normalizer.normalize_players v)))
  = Normalizer.normalize_players v.
Proof.
  pose proof (normalize_players_nonneg v) as Hpos.
  set (z := Normalizer.normalize_players v) in *.
  unfold Normalizer.normalize_players, of_Z, Qltb.
  assert (E : Qle_bool 0 (inject_Z z) = true).
  { apply Qle_bool_iff. change 0 with (inject_Z 0). now rewrite <- Zle_Qle. }
  rewrite E. simpl. apply Qfloor_Z.
Qed.

Lemma normalize_text_again (sentinel : string) (v : value) :
  Normalizer.normalize_text sentinel (Str (Normalizer.normalize_text sentinel v))
  = Normalizer.normalize_text sentinel v.
Proof.
  unfold Normalizer.normalize_text.
  destruct v as [| | b | n | s | items | props];
    try (destruct (sentinel =? "") eqn:E; [apply String.eqb_eq in E; now subst | reflexivity]).
  destruct (s =? "") eqn:Es.
  - destruct (sentinel =? "") eqn:E; [apply String.eqb_eq in E; now subst | reflexivity].
  - now rewrite Es.
Qed.

(** C5. normalize gives a record for every raw output, whatever its shape;
    normalizing a normalized record again leaves it unchanged; the team of
    the result is A, B or unknown; and the raw output with team "TEAM 1"
    and players_detected -3 gives team A and players_detected 0. *)
Theorem normalize_total_idempotent :
  forall (notes_sentinel : string) (raw : value),
    (exists f : Normalizer.FrameAnalysis,
        Normalizer.normalize notes_sentinel raw = f
        /\ Normalizer.normalize notes_sentinel (Normalizer.to_raw f) = f
        /\ In (Normalizer.team f) ["A"; "B"; "unknown"]
        /\ (0 <= Normalizer.players_detected f)%Z)
    /\ Normalizer.team
         (Normalizer.normalize notes_sentinel
            (Object [("team", Str "TEAM 1"); ("players_detected", Number (of_Z (-3)))]))
       = "A"
    /\ Normalizer.players_detected
         (Normalizer.normalize notes_sentinel
            (Object [("team", Str "TEAM 1"); ("players_detected", Number (of_Z (-3)))]))
       = 0%Z.
Proof.
  intros notes_sentinel raw. split; [| split; reflexivity].
  eexists. split; [reflexivity |]. split; [| split].
  - unfold Normalizer.normalize at 1.
    cbn [field Normalizer.to_raw lookup String.eqb Ascii.eqb Bool.eqb
         Normalizer.timestamp Normalizer.event Normalizer.ball_position
         Normalizer.players_detected Normalizer.team Normalizer.team_a_shape
         Normalizer.team_b_shape Normalizer.tactical_notes Normalizer.normalize
         Normalizer.normalize_timestamp].
    rewrite !normalize_text_again, normalize_players_again, normalize_team_again.
    reflexivity.
  - cbn [Normalizer.team Normalizer.normalize In].
    destruct (normalize_team_cases (field raw "team")) as [-> | [-> | ->]]; auto.
  - apply normalize_players_nonneg.
Qed.

(** ** The frame sampler *)

Section SamplerFacts.

Variable Image : Type.

Lemma times_in (frame_interval : Q) (count : nat) :
  forall (from : Z) (t : Q),
    In t (FrameSampler.times frame_interval from count) ->
    exists k : Z, (from <= k < from + Z.of_nat count)%Z
                  /\ t = Qred (inject_Z k * frame_interval).
Proof.
  induction count as [| count IH]; intros from t Hin; simpl in Hin; [contradiction |].
  destruct Hin as [<- | Hin].
  - exists from. split; [lia | reflexivity].
  - apply IH in Hin as (k & Hk & ->). exists k. split; [lia | reflexivity].
Qed.

Lemma times_length (frame_interval : Q) (count : nat) :
  forall from : Z, List.length (FrameSampler.times frame_interval from count) = count.
Proof.
  induction count as [| count IH]; intros from; simpl; [reflexivity |].
  now rewrite IH.
Qed.

Lemma decode_all_in (decode : Q -> option Image) (ts : list Q) (t : Q) (image : Image) :
  In (t, image) (FrameSampler.decode_all Image decode ts) -> In t ts.
Proof.
  induction ts as [| t' rest IH]; simpl; [tauto |].
  destruct (decode t') as [image' |]; simpl.
  - intros [Heq | Hin]; [left; congruence | right; auto].
  - intros Hin. right. auto.
Qed.

Lemma decode_all_length (decode : Q -> option Image) (ts : list Q) :
  (List.length (FrameSampler.decode_all Image decode ts) <= List.length ts)%nat.
Proof.
  induction ts as [| t' rest IH]; simpl; [lia |].
  destruct (decode t'); simpl; lia.
Qed.

Lemma sample_frames (v : FrameSampler.VideoSource Image) (frames : list (Q * Image)) :
  FrameSampler.sample v = inr frames ->
  frames
  = FrameSampler.decode_all Image (FrameSampler.decode v)
      (FrameSampler.times (FrameSampler.frame_interval v) 0
         (Z.to_nat (Qfloor (Qmin (FrameSampler.duration v) (FrameSampler.max_duration v)
                            / FrameSampler.frame_interval v) + 1))).
Proof.
  unfold FrameSampler.sample.
  destruct (Qle_bool (FrameSampler.frame_interval v) 0
            || Qle_bool (FrameSampler.max_duration v) 0); [discriminate |].
  cbv zeta.
  destruct (FrameSampler.decode_all Image _ _) as [| frame rest]; [discriminate |].
  intros H. now injection H.
Qed.

Lemma sampler_bounds (v : FrameSampler.VideoSource Image) (frames : list (Q * Image)) :
  0 < FrameSampler.frame_interval v ->
  0 < FrameSampler.max_duration v ->
  FrameSampler.sample v = inr frames ->
  (forall t image, In (t, image) frames -> t <= FrameSampler.max_duration v)
  /\ (Z.of_nat (List.length frames)
      <= Qceiling (FrameSampler.max_duration v / FrameSampler.frame_interval v) + 1)%Z.
Proof.
  intros Hfi Hmd Hsample. apply sample_frames in Hsample.
  set (fi := FrameSampler.frame_interval v) in *.
  set (md := FrameSampler.max_duration v) in *.
  set (limit := Qmin (FrameSampler.duration v) md) in *.
  set (last := Qfloor (limit / fi)) in *.
  assert (Hlimit : limit <= md) by apply Q.le_min_r.
  split.
  - intros t image Hin. rewrite Hsample in Hin.
    apply decode_all_in in Hin. apply times_in in Hin as (k & Hk & ->).
    rewrite Qred_correct.
    apply Qle_trans with limit; [| exact Hlimit].
    assert (Hklast : (k <= last)%Z) by lia.
    apply Qle_trans with (inject_Z last * fi).
    + apply Qmult_le_compat_r; [| now apply Qlt_le_weak].
      now rewrite <- Zle_Qle.
    + apply Qle_trans with (limit / fi * fi).
      * apply Qmult_le_compat_r; [apply Qfloor_le | now apply Qlt_le_weak].
      * unfold Qdiv. rewrite <- Qmult_assoc, (Qmult_comm (/ fi)), Qmult_inv_r, Qmult_1_r.
        -- apply Qle_refl.
        -- intros Hzero. rewrite Hzero in Hfi. now apply Qlt_irrefl in Hfi.
  - rewrite Hsample.
    pose proof (decode_all_length (FrameSampler.decode v)
                  (FrameSampler.times fi 0 (Z.to_nat (last + 1)))) as Hlen.
    rewrite times_length in Hlen.
    assert (Hquot : limit / fi <= md / fi).
    { apply Qmult_le_compat_r; [exact Hlimit |].
      apply Qlt_le_weak. now apply Qinv_lt_0_compat. }
    assert (Hlast : (last <= Qceiling (md / fi))%Z).
    { apply Z.le_trans with (Qfloor (md / fi)).
      - now apply Qfloor_resp_le.
      - rewrite Zle_Qle. apply Qle_floor_ceiling. }
    assert (Hceil : (0 <= Qceiling (md / fi))%Z).
    { change 0%Z with (Qceiling 0). apply Qceiling_resp_le.
      apply Qle_shift_div_l; [exact Hfi |]. rewrite Qmult_0_l. now apply Qlt_le_weak. }
    lia.
Qed.

End SamplerFacts.

(** C6. For every configuration with frame_interval > 0 and
    max_duration > 0, no frame the sampler emits has a timestamp beyond
    max_duration, and it emits at most ceil(max_duration / frame_interval)
    + 1 frames for a video; for a video of 15 seconds with max_duration 10
    and frame_interval 2 it emits the six frames at 0, 2, 4, 6, 8 and 10. *)
Theorem sampler_respects_max_duration :
  (forall (Image : Type) (v : FrameSampler.VideoSource Image) (frames : list (Q * Image)),
      0 < FrameSampler.frame_interval v ->
      0 < FrameSampler.max_duration v ->
      FrameSampler.sample v = inr frames ->
      (forall t image, In (t, image) frames -> t <= FrameSampler.max_duration v)
      /\ (Z.of_nat (List.length frames)
          <= Qceiling (FrameSampler.max_duration v / FrameSampler.frame_interval v) + 1)%Z)
  /\
  (forall (Image : Type) (decode : Q -> Image),
      FrameSampler.sample
        {| FrameSampler.duration := 15;
           FrameSampler.frame_interval := 2;
           FrameSampler.max_duration := 10;
           FrameSampler.decode := fun t => Some (decode t) |}
      = inr [(0, decode 0); (2, decode 2); (4, decode 4);
             (6, decode 6); (8, decode 8); (10, decode 10)]).
Proof.
  split.
  - intros Image v frames. apply sampler_bounds.
  - intros Image decode. reflexivity.
Qed.

Lemma sampler_respects_max_duration_witness :
  (forall t image,
      In (t, image) [(0, tt); (3, tt); (6, tt); (9, tt)] -> t <= 10)
  /\ (Z.of_nat (List.length [(0, tt); (3, tt); (6, tt); (9, tt)])
      <= Qceiling (10 / 3) + 1)%Z.
Proof.
  apply (proj1 sampler_respects_max_duration unit
           {| FrameSampler.duration := 15;
              FrameSampler.frame_interval := 3;
              FrameSampler.max_duration := 10;
              FrameSampler.decode := fun _ => Some tt |}
           [(0, tt); (3, tt); (6, tt); (9, tt)]);
    reflexivity.
Defined.

(* ===================================================================== *)
(** * Further properties *)
(* ===================================================================== *)

(** ** lib/api.ts: one request at most, and what comes back *)

Lemma rethrow_rejection (A : Type) (e : exn) (log : list Request) :
  @Api.rethrow A e log = (Throw (rejection e), log).
Proof.
  destruct e as [arg | message | message]; try reflexivity.
  simpl. destruct (includes message "fetch"); reflexivity.
Qed.

Lemma rejection_of_Error (arg : value) : rejection (Error arg) = Error arg.
Proof. reflexivity. Qed.

Lemma config_passes_inv (config : Api.AnalysisConfig) :
  config_passes config = true ->
  le (Api.frame_interval config) (of_Z 0) = false
  /\ le (Api.max_duration config) (of_Z 0) = false.
Proof.
  unfold config_passes. intros H. apply andb_prop in H as [H1 H2].
  now apply negb_true_iff in H1, H2.
Qed.

(** The whole of uploadVideos once its arguments pass the tests. *)
Lemma uploadVideos_sent (API_URL : string) (server : Request -> Settled)
  (l : list (option File)) (config : Api.AnalysisConfig) :
  accepted_files l = true ->
  config_passes config = true ->
  run (Api.uploadVideos API_URL server (Some l) config)
  = (match server (analyze_request API_URL l config) with
     | Rejected e => Throw (rejection e)
     | Resolved r => response_outcome r
     end, [analyze_request API_URL l config]).
Proof.
  intros Hacc Hconfig. apply config_passes_inv in Hconfig as [Hfi Hmd].
  unfold run, Api.uploadVideos, try_catch, bind.
  rewrite (check_files_accepted l [] Hacc), Hfi, Hmd. simpl.
  apply andb_prop in Hacc as [_ Hall].
  unfold lift. rewrite (append_files_accepted l [] Hall). simpl.
  unfold Api.fetch. fold (analyze_request API_URL l config).
  destruct (server (analyze_request API_URL l config)) as [e | r] eqn:Hserver.
  - apply rethrow_rejection.
  - unfold response_outcome, throw_if, Api.response_json.
    destruct (ok r); simpl.
    + destruct (json r) as [v |]; [| reflexivity].
      destruct v as [| | b | n | s | items | props]; simpl; try reflexivity.
      * destruct b; reflexivity.
      * destruct n as [| q | sg]; simpl; try reflexivity.
        destruct (negb (is_zero q)); reflexivity.
      * destruct (negb (s =? "")); reflexivity.
      * destruct (isArray (lookup "frames" props)); reflexivity.
    + destruct (http_error_is_Error "Failed to upload videos" r) as [arg ->]. reflexivity.
Qed.

(** The whole of addTimestampOverlay once its arguments pass the tests. *)
Lemma addTimestampOverlay_sent (API_URL : string) (server : Request -> Settled)
  (l : list (option File)) (maxDuration : Api.optional_number) :
  accepted_files l = true ->
  duration_passes maxDuration = true ->
  run (Api.addTimestampOverlay API_URL server (Some l) maxDuration)
  = (match server (overlay_request API_URL l maxDuration) with
     | Rejected e => Throw (rejection e)
     | Resolved r => overlay_outcome r
     end, [overlay_request API_URL l maxDuration]).
Proof.
  intros Hacc Hduration.
  unfold run, Api.addTimestampOverlay, try_catch, bind.
  rewrite (check_files_accepted l [] Hacc).
  apply andb_prop in Hacc as [_ Hall].
  assert (Htests :
            (match maxDuration with
             | Api.Given n =>
                 (fun log =>
                    let (o, log') :=
                      throw_if (le n (of_Z 0))
                        (Error (Str "Max duration must be greater than 0")) log in
                    match o with
                    | Return _ =>
                        throw_if (gt n (of_Z 60))
                          (Error (Str "Max duration cannot exceed 60 seconds")) log'
                    | Throw e => (Throw e, log')
                    end)
             | _ => ret tt
             end) [] = (Return tt, [])).
  { destruct maxDuration as [| | n]; try reflexivity.
    simpl in Hduration. apply andb_prop in Hduration as [H1 H2].
    apply negb_true_iff in H1, H2. rewrite H1. simpl. rewrite H2. reflexivity. }
  rewrite Htests. unfold lift. rewrite (append_files_accepted l [] Hall). simpl.
  unfold Api.fetch.
  assert (Hreq :
            {| url := API_URL ++ "/api/video/timestamp-overlay";
               method := "POST";
               body := match maxDuration with
                       | Api.Given n => video_entries l ++ [("max_duration", FormNumber n)]
                       | _ => video_entries l
                       end |}
            = overlay_request API_URL l maxDuration).
  { unfold overlay_request. destruct maxDuration; try reflexivity;
      now rewrite app_nil_r. }
  rewrite Hreq.
  destruct (server (overlay_request API_URL l maxDuration)) as [e | r].
  - apply rethrow_rejection.
  - unfold overlay_outcome, throw_if.
    destruct (ok r); simpl.
    + destruct (blob r) as [b |]; [| reflexivity].
      destruct (blob_size b =? 0)%Z; reflexivity.
    + destruct (http_error_is_Error "Failed to process video" r) as [arg ->]. reflexivity.
Qed.

Lemma append_files_rejects (files : list (option File)) :
  forall formData,
    forallb (fun f => match f with Some _ => true | None => false end) files = false ->
    Api.append_files files formData = Throw (Error (Str "Invalid file provided")).
Proof.
  induction files as [| [file |] rest IH]; intros formData H; simpl in *.
  - discriminate.
  - now apply IH.
  - reflexivity.
Qed.

#[local] Arguments Api.append_files : simpl never.

(** uploadVideos refuses, with nothing sent, whatever fails one of its
    tests, and names the first test that failed. *)
Lemma uploadVideos_refuses (API_URL : string) (server : Request -> Settled)
  (files : option (list (option File))) (config : Api.AnalysisConfig) :
  (forall l, files = Some l -> accepted_files l && config_passes config = false) ->
  exists message,
    run (Api.uploadVideos API_URL server files config) = (Throw (Error (Str message)), [])
    /\ In message ["No files provided"; "Maximum 6 videos allowed";
                   "Frame interval must be greater than 0";
                   "Max duration must be greater than 0";
                   "Invalid file provided"].
Proof.
  intros Hbad. unfold run, Api.uploadVideos, try_catch, bind.
  destruct files as [l |]; [| eexists; split; [reflexivity | simpl; tauto]].
  specialize (Hbad l eq_refl).
  destruct l as [| f rest]; [eexists; split; [reflexivity | simpl; tauto] |].
  unfold Api.check_files.
  destruct (6 <? List.length (f :: rest))%nat eqn:Hlen;
    [eexists; split; [reflexivity | simpl; tauto] |].
  cbn [ret].
  destruct (le (Api.frame_interval config) (of_Z 0)) eqn:Hfi;
    [eexists; split; [reflexivity | simpl; tauto] |].
  destruct (le (Api.max_duration config) (of_Z 0)) eqn:Hmd;
    [eexists; split; [reflexivity | simpl; tauto] |].
  assert (Hall : forallb (fun f => match f with Some _ => true | None => false end)
                   (f :: rest) = false).
  { unfold accepted_files, config_passes in Hbad. rewrite Hfi, Hmd in Hbad.
    apply Nat.ltb_ge in Hlen. apply Nat.leb_le in Hlen. rewrite Hlen in Hbad.
    simpl in Hbad. rewrite andb_true_r in Hbad. exact Hbad. }
  simpl. unfold lift. rewrite (append_files_rejects _ [] Hall).
  eexists; split; [reflexivity | simpl; tauto].
Qed.

Lemma addTimestampOverlay_refuses (API_URL : string) (server : Request -> Settled)
  (files : option (list (option File))) (maxDuration : Api.optional_number) :
  (forall l, files = Some l -> accepted_files l && duration_passes maxDuration = false) ->
  exists message,
    run (Api.addTimestampOverlay API_URL server files maxDuration)
    = (Throw (Error (Str message)), [])
    /\ In message ["No files provided"; "Maximum 6 videos allowed";
                   "Max duration must be greater than 0";
                   "Max duration cannot exceed 60 seconds";
                   "Invalid file provided"].
Proof.
  intros Hbad. unfold run, Api.addTimestampOverlay, try_catch, bind.
  destruct files as [l |]; [| eexists; split; [reflexivity | simpl; tauto]].
  specialize (Hbad l eq_refl).
  destruct l as [| f rest]; [eexists; split; [reflexivity | simpl; tauto] |].
  unfold Api.check_files.
  destruct (6 <? List.length (f :: rest))%nat eqn:Hlen;
    [eexists; split; [reflexivity | simpl; tauto] |].
  cbn [ret].
  assert (Hfiles : duration_passes maxDuration = true ->
                   forallb (fun f => match f with Some _ => true | None => false end)
                     (f :: rest) = false).
  { intros Hd. unfold accepted_files in Hbad. rewrite Hd in Hbad.
    apply Nat.ltb_ge in Hlen. apply Nat.leb_le in Hlen. rewrite Hlen in Hbad.
    simpl in Hbad. rewrite andb_true_r in Hbad. exact Hbad. }
  destruct maxDuration as [| | n].
  - simpl. unfold lift. rewrite (append_files_rejects _ [] (Hfiles eq_refl)).
    eexists; split; [reflexivity | simpl; tauto].
  - simpl. unfold lift. rewrite (append_files_rejects _ [] (Hfiles eq_refl)).
    eexists; split; [reflexivity | simpl; tauto].
  - unfold duration_passes in Hfiles.
    destruct (le n (of_Z 0)) eqn:Hle;
      [eexists; split; [reflexivity | simpl; tauto] |].
    destruct (gt n (of_Z 60)) eqn:Hgt;
      [eexists; split; [reflexivity | simpl; tauto] |].
    simpl. unfold lift.
    rewrite (append_files_rejects _ [] (Hfiles eq_refl)).
    eexists; split; [reflexivity | simpl; tauto].
Qed.

Lemma uploadVideos_cases (API_URL : string) (server : Request -> Settled)
  (files : option (list (option File))) (config : Api.AnalysisConfig) :
  (exists e, run (Api.uploadVideos API_URL server files config) = (Throw e, []))
  \/ (exists l,
         files = Some l /\ accepted_files l = true /\ config_passes config = true
         /\ snd (run (Api.uploadVideos API_URL server files config))
            = [analyze_request API_URL l config]).
Proof.
  destruct files as [l |].
  - destruct (accepted_files l && config_passes config) eqn:Hok.
    + apply andb_prop in Hok as [Hacc Hconfig]. right. exists l.
      repeat split; try assumption.
      now rewrite (uploadVideos_sent API_URL server l config Hacc Hconfig).
    + left. destruct (uploadVideos_refuses API_URL server (Some l) config)
        as (message & Hrun & _).
      { intros l' Hl'. injection Hl' as <-. exact Hok. }
      eexists. exact Hrun.
  - left. destruct (uploadVideos_refuses API_URL server None config)
      as (message & Hrun & _); [discriminate |]. eexists. exact Hrun.
Qed.

Lemma addTimestampOverlay_cases (API_URL : string) (server : Request -> Settled)
  (files : option (list (option File))) (maxDuration : Api.optional_number) :
  (exists e, run (Api.addTimestampOverlay API_URL server files maxDuration)
             = (Throw e, []))
  \/ (exists l,
         files = Some l /\ accepted_files l = true
         /\ duration_passes maxDuration = true
         /\ snd (run (Api.addTimestampOverlay API_URL server files maxDuration))
            = [overlay_request API_URL l maxDuration]).
Proof.
  destruct files as [l |].
  - destruct (accepted_files l && duration_passes maxDuration) eqn:Hok.
    + apply andb_prop in Hok as [Hacc Hduration]. right. exists l.
      repeat split; try assumption.
      now rewrite (addTimestampOverlay_sent API_URL server l maxDuration Hacc Hduration).
    + left. destruct (addTimestampOverlay_refuses API_URL server (Some l) maxDuration)
        as (message & Hrun & _).
      { intros l' Hl'. injection Hl' as <-. exact Hok. }
      eexists. exact Hrun.
  - left. destruct (addTimestampOverlay_refuses API_URL server None maxDuration)
      as (message & Hrun & _); [discriminate |]. eexists. exact Hrun.
Qed.

Lemma http_error_text (default : string) (r : Response) :
  default <> "" ->
  Api.http_error default r
  = Error (Str "Invalid request. Please check your video files and settings.") ->
  Api.errorMessage default r
  = Str "Invalid request. Please check your video files and settings.".
Proof.
  intros Hdefault. unfold Api.http_error.
  destruct (status r =? 400)%Z.
  { unfold or_else. rewrite (errorMessage_truthy default r Hdefault). congruence. }
  destruct (status r =? 413)%Z; [discriminate |].
  destruct (status r =? 500)%Z; [discriminate |].
  destruct (status r >=? 500)%Z; [discriminate | congruence].
Qed.

(** C8, the defect. The branch for the status 400 throws
    [errorMessage || 'Invalid request. ...'], and errorMessage is never
    falsy: a 400 response with the body {} is answered with Failed to
    upload videos, the default that the same body gets under the status
    404, and a 400 response without a body with its status text; neither
    is a message of the status 400. Whatever the call and the server, the
    Invalid request sentence is thrown only if it came from outside: as
    the detail or message of the body, as the status text, or as the error
    fetch rejected with. *)
Theorem uploadVideos_400_message_is_the_generic_one :
  fst (run (Api.uploadVideos Examples.base_url
              (fun _ => Resolved (Examples.fail_with 400 "Bad Request" (Some (Object []))))
              (Some Examples.one_clip) Examples.default_config))
  = Throw (Error (Str "Failed to upload videos"))
  /\ fst (run (Api.uploadVideos Examples.base_url
                 (fun _ => Resolved (Examples.fail_with 404 "Not Found" (Some (Object []))))
                 (Some Examples.one_clip) Examples.default_config))
     = Throw (Error (Str "Failed to upload videos"))
  /\ fst (run (Api.uploadVideos Examples.base_url
                 (fun _ => Resolved (Examples.fail_with 400 "Bad Request" None))
                 (Some Examples.one_clip) Examples.default_config))
     = Throw (Error (Str "Bad Request"))
  /\ (forall (API_URL : string) (server : Request -> Settled)
             (files : option (list (option File))) (config : Api.AnalysisConfig),
         fst (run (Api.uploadVideos API_URL server files config))
         = Throw (Error (Str "Invalid request. Please check your video files and settings."))
         ->
         exists l,
           files = Some l
           /\ (server (analyze_request API_URL l config)
               = Rejected
                   (Error (Str "Invalid request. Please check your video files and settings."))
               \/ exists r,
                   server (analyze_request API_URL l config) = Resolved r
                   /\ Api.errorMessage "Failed to upload videos" r
                      = Str "Invalid request. Please check your video files and settings.")).
Proof.
  split; [reflexivity |]. split; [reflexivity |]. split; [reflexivity |].
  intros API_URL server files config Hout.
  assert (Hrefused :
            (forall l, files = Some l -> accepted_files l && config_passes config = false) ->
            False).
  { intros Hbad.
    destruct (uploadVideos_refuses API_URL server files config Hbad)
      as (message & Hrun & Hin).
    rewrite Hrun in Hout. cbn [fst] in Hout. injection Hout as ->.
    simpl in Hin. repeat (destruct Hin as [Hin | Hin]; [discriminate |]). contradiction. }
  destruct files as [l |]; [| exfalso; apply Hrefused; discriminate].
  destruct (accepted_files l && config_passes config) eqn:Hok.
  2:{ exfalso. apply Hrefused. intros l' Hl'. injection Hl' as <-. exact Hok. }
  apply andb_prop in Hok as [Hacc Hconfig].
  rewrite (uploadVideos_sent API_URL server l config Hacc Hconfig) in Hout.
  cbn [fst] in Hout. exists l. split; [reflexivity |].
  destruct (server (analyze_request API_URL l config)) as [e | r] eqn:Hserver.
  - left. injection Hout as Hout.
    destruct e as [arg | message | message]; simpl in Hout; try discriminate.
    + now rewrite Hout.
    + destruct (includes message "fetch"); discriminate.
  - right. exists r. split; [reflexivity |].
    unfold response_outcome in Hout.
    destruct (negb (ok r)).
    + apply http_error_text; [discriminate | congruence].
    + exfalso. destruct (json r) as [v |]; [| discriminate].
      destruct (negb (truthy v)); [discriminate |].
      destruct v as [| | b | n | s | items | props]; try discriminate.
      destruct (isArray (lookup "frames" props)); discriminate.
Qed.

Lemma uploadVideos_400_message_is_the_generic_one_witness :
  exists l,
    Some Examples.one_clip = Some l
    /\ ((fun _ : Request =>
           Resolved (Examples.fail_with 400 "Bad Request"
                       (Some (Object
                                [("detail",
                                  Str "Invalid request. Please check your video files and settings.")]))))
          (analyze_request Examples.base_url l Examples.default_config)
        = Rejected
            (Error (Str "Invalid request. Please check your video files and settings."))
        \/ exists r,
            (fun _ : Request =>
               Resolved (Examples.fail_with 400 "Bad Request"
                           (Some (Object
                                    [("detail",
                                      Str "Invalid request. Please check your video files and settings.")]))))
              (analyze_request Examples.base_url l Examples.default_config)
            = Resolved r
            /\ Api.errorMessage "Failed to upload videos" r
               = Str "Invalid request. Please check your video files and settings.").
Proof.
  apply (proj2 (proj2 (proj2 uploadVideos_400_message_is_the_generic_one))
           Examples.base_url
           (fun _ => Resolved (Examples.fail_with 400 "Bad Request"
                                 (Some (Object
                                          [("detail",
                                            Str "Invalid request. Please check your video files and settings.")]))))
           (Some Examples.one_clip) Examples.default_config).
  reflexivity.
Defined.

(** X1. Each call of uploadVideos or addTimestampOverlay either throws with
    no request sent, or sends exactly one request, and this only for an
    accepted file list whose numbers passed the tests: there is no second
    request and no retry. *)
Theorem api_sends_one_request_or_none :
  forall (API_URL : string) (server : Request -> Settled)
         (files : option (list (option File)))
         (config : Api.AnalysisConfig) (maxDuration : Api.optional_number),
    ((exists e, run (Api.uploadVideos API_URL server files config) = (Throw e, []))
     \/ (exists l,
            files = Some l /\ accepted_files l = true /\ config_passes config = true
            /\ snd (run (Api.uploadVideos API_URL server files config))
               = [analyze_request API_URL l config]))
    /\
    ((exists e, run (Api.addTimestampOverlay API_URL server files maxDuration)
                = (Throw e, []))
     \/ (exists l,
            files = Some l /\ accepted_files l = true
            /\ duration_passes maxDuration = true
            /\ snd (run (Api.addTimestampOverlay API_URL server files maxDuration))
               = [overlay_request API_URL l maxDuration])).
Proof.
  intros API_URL server files config maxDuration. split.
  - apply uploadVideos_cases.
  - apply addTimestampOverlay_cases.
Qed.

Lemma check_files_sized (l : list (option File)) (log : list Request) :
  (0 < List.length l <= 6)%nat ->
  Api.check_files (Some l) log = (Return l, log).
Proof.
  intros [Hpos Hmax]. unfold Api.check_files.
  destruct l as [| f rest]; [simpl in Hpos; lia |].
  destruct (6 <? List.length (f :: rest))%nat eqn:E; [| reflexivity].
  apply Nat.ltb_lt in E. lia.
Qed.

Lemma not_all_files (l : list (option File)) :
  In None l ->
  forallb (fun f => match f with Some _ => true | None => false end) l = false.
Proof.
  induction l as [| [file |] rest IH]; simpl; intros Hin.
  - contradiction.
  - destruct Hin as [Hin | Hin]; [discriminate | auto].
  - reflexivity.
Qed.

(** X2. A missing or empty file list makes both calls throw No files
    provided; a list of one to six elements one of which is not a File
    makes them throw Invalid file provided (when the numbers pass their
    tests, which come first). In both cases nothing is sent: the form
    built so far is dropped. *)
Theorem api_rejects_bad_file_lists :
  forall (API_URL : string) (server : Request -> Settled)
         (config : Api.AnalysisConfig) (maxDuration : Api.optional_number),
    (forall files,
        files = None \/ files = Some [] ->
        run (Api.uploadVideos API_URL server files config)
        = (Throw (Error (Str "No files provided")), [])
        /\ run (Api.addTimestampOverlay API_URL server files maxDuration)
           = (Throw (Error (Str "No files provided")), []))
    /\
    (forall l,
        (0 < List.length l <= 6)%nat -> In None l ->
        (config_passes config = true ->
         run (Api.uploadVideos API_URL server (Some l) config)
         = (Throw (Error (Str "Invalid file provided")), []))
        /\ (duration_passes maxDuration = true ->
            run (Api.addTimestampOverlay API_URL server (Some l) maxDuration)
            = (Throw (Error (Str "Invalid file provided")), []))).
Proof.
  intros API_URL server config maxDuration. split.
  - intros files [-> | ->]; split; reflexivity.
  - intros l Hsize Hin. apply not_all_files in Hin. split.
    + intros Hconfig. apply config_passes_inv in Hconfig as [Hfi Hmd].
      unfold run, Api.uploadVideos, try_catch, bind.
      rewrite (check_files_sized l [] Hsize), Hfi, Hmd. simpl.
      unfold lift. rewrite (append_files_rejects l [] Hin). reflexivity.
    + intros Hduration.
      unfold run, Api.addTimestampOverlay, try_catch, bind.
      rewrite (check_files_sized l [] Hsize).
      destruct maxDuration as [| | n]; simpl.
      * unfold lift. rewrite (append_files_rejects l [] Hin). reflexivity.
      * unfold lift. rewrite (append_files_rejects l [] Hin). reflexivity.
      * simpl in Hduration. apply andb_prop in Hduration as [H1 H2].
        apply negb_true_iff in H1, H2. rewrite H1. simpl. rewrite H2. simpl.
        unfold lift. rewrite (append_files_rejects l [] Hin). reflexivity.
Qed.

Lemma api_rejects_bad_file_lists_witness :
  run (Api.uploadVideos Examples.base_url (fun _ => Resolved (Examples.respond Null))
         (Some []) Examples.default_config)
  = (Throw (Error (Str "No files provided")), [])
  /\ run (Api.uploadVideos Examples.base_url (fun _ => Resolved (Examples.respond Null))
            (Some [Some Examples.clip; None]) Examples.default_config)
     = (Throw (Error (Str "Invalid file provided")), [])
  /\ run (Api.addTimestampOverlay Examples.base_url
            (fun _ => Resolved (Examples.respond Null))
            (Some [Some Examples.clip; None]) (Api.Given (of_Z 30)))
     = (Throw (Error (Str "Invalid file provided")), []).
Proof.
  destruct (api_rejects_bad_file_lists Examples.base_url
              (fun _ => Resolved (Examples.respond Null))
              Examples.default_config (Api.Given (of_Z 30))) as [Hnone Hbad].
  split; [apply (Hnone (Some [])); now right |].
  destruct (Hbad [Some Examples.clip; None]) as [Hup Hov];
    [simpl; lia | simpl; tauto |].
  split; [apply Hup | apply Hov]; reflexivity.
Defined.

(** X3. When fetch rejects, the request having been sent, both calls throw:
    a TypeError whose message mentions fetch becomes the Network error
    message, any other rejection is thrown again as it is. *)
Theorem network_failure_is_reported :
  forall (API_URL : string) (server : Request -> Settled) (l : list (option File))
         (config : Api.AnalysisConfig) (maxDuration : Api.optional_number) (e : exn),
    accepted_files l = true ->
    (config_passes config = true ->
     server (analyze_request API_URL l config) = Rejected e ->
     run (Api.uploadVideos API_URL server (Some l) config)
     = (Throw (rejection e), [analyze_request API_URL l config]))
    /\ (duration_passes maxDuration = true ->
        server (overlay_request API_URL l maxDuration) = Rejected e ->
        run (Api.addTimestampOverlay API_URL server (Some l) maxDuration)
        = (Throw (rejection e), [overlay_request API_URL l maxDuration]))
    /\ (forall message,
           e = TypeError message -> includes message "fetch" = true ->
           rejection e
           = Error (Str "Network error. Please check your connection and try again."))
    /\ ((forall message, e = TypeError message -> includes message "fetch" = false) ->
        rejection e = e).
Proof.
  intros API_URL server l config maxDuration e Hacc. repeat split.
  - intros Hconfig Hserver.
    rewrite (uploadVideos_sent API_URL server l config Hacc Hconfig), Hserver.
    reflexivity.
  - intros Hduration Hserver.
    rewrite (addTimestampOverlay_sent API_URL server l maxDuration Hacc Hduration), Hserver.
    reflexivity.
  - intros message -> Hfetch. simpl. now rewrite Hfetch.
  - intros Hother. destruct e as [arg | message | message]; try reflexivity.
    simpl. now rewrite (Hother message eq_refl).
Qed.

Lemma network_failure_is_reported_witness :
  run (Api.uploadVideos Examples.base_url
         (fun _ => Rejected (TypeError "Failed to fetch"))
         (Some Examples.one_clip) Examples.default_config)
  = (Throw (Error (Str "Network error. Please check your connection and try again.")),
     [analyze_request Examples.base_url Examples.one_clip Examples.default_config])
  /\ run (Api.addTimestampOverlay Examples.base_url
            (fun _ => Rejected (TypeError "Load failed"))
            (Some Examples.one_clip) Api.Omitted)
     = (Throw (TypeError "Load failed"),
        [overlay_request Examples.base_url Examples.one_clip Api.Omitted]).
Proof.
  split.
  - apply (proj1 (network_failure_is_reported Examples.base_url
                    (fun _ => Rejected (TypeError "Failed to fetch"))
                    Examples.one_clip Examples.default_config Api.Omitted
                    (TypeError "Failed to fetch") eq_refl));
      reflexivity.
  - apply (proj1 (proj2 (network_failure_is_reported Examples.base_url
                           (fun _ => Rejected (TypeError "Load failed"))
                           Examples.one_clip Examples.default_config Api.Omitted
                           (TypeError "Load failed") eq_refl)));
      reflexivity.
Defined.

(** X4. addTimestampOverlay returns a blob only when the response is ok
    and has a blob that is not empty, and what it returns is that blob;
    an ok response with an empty blob makes it throw. *)
Theorem overlay_returns_the_response_blob :
  forall (API_URL : string) (server : Request -> Settled)
         (files : option (list (option File))) (maxDuration : Api.optional_number),
    let out := fst (run (Api.addTimestampOverlay API_URL server files maxDuration)) in
    (forall b, out = Return b ->
       exists l r,
         files = Some l
         /\ server (overlay_request API_URL l maxDuration) = Resolved r
         /\ ok r = true /\ blob r = Some b /\ blob_size b <> 0%Z)
    /\
    (forall l r,
        files = Some l -> accepted_files l = true -> duration_passes maxDuration = true ->
        server (overlay_request API_URL l maxDuration) = Resolved r ->
        ok r = true ->
        (forall b, blob r = Some b -> blob_size b <> 0%Z -> out = Return b)
        /\ (forall b, blob r = Some b -> blob_size b = 0%Z ->
            out = Throw (Error (Str "Invalid response from server: empty video file")))).
Proof.
  intros API_URL server files maxDuration out. subst out. split.
  - intros b Hout.
    destruct (addTimestampOverlay_cases API_URL server files maxDuration)
      as [(e & He) | (l & -> & Hacc & Hduration & _)].
    + rewrite He in Hout. discriminate.
    + rewrite (addTimestampOverlay_sent API_URL server l maxDuration Hacc Hduration) in Hout.
      cbn [fst] in Hout.
      destruct (server (overlay_request API_URL l maxDuration)) as [e | r] eqn:Hserver;
        [discriminate |].
      unfold overlay_outcome in Hout.
      destruct (ok r) eqn:Hok; cbn [negb] in Hout; [| discriminate].
      destruct (blob r) as [b' |] eqn:Hblob; [| discriminate].
      destruct (blob_size b' =? 0)%Z eqn:Hsize; [discriminate |].
      injection Hout as ->. apply Z.eqb_neq in Hsize.
      exists l, r. repeat split; assumption.
  - intros l r -> Hacc Hduration Hserver Hok.
    rewrite (addTimestampOverlay_sent API_URL server l maxDuration Hacc Hduration), Hserver.
    cbn [fst]. unfold overlay_outcome. rewrite Hok. cbn [negb]. split.
    + intros b -> Hsize. apply Z.eqb_neq in Hsize. now rewrite Hsize.
    + intros b -> Hsize. apply Z.eqb_eq in Hsize. now rewrite Hsize.
Qed.

Lemma overlay_returns_the_response_blob_witness :
  exists l r,
    Some Examples.one_clip = Some l
    /\ Resolved (Examples.respond Null) = Resolved r
    /\ ok r = true /\ blob r = Some {| blob_size := 1024 |}
    /\ blob_size {| blob_size := 1024 |} <> 0%Z.
Proof.
  apply (proj1 (overlay_returns_the_response_blob Examples.base_url
                  (fun _ => Resolved (Examples.respond Null))
                  (Some Examples.one_clip) Api.Omitted)
           {| blob_size := 1024 |}).
  reflexivity.
Defined.

Lemma errorMessage_of_object (default : string) (r : Response)
  (props : list (string * value)) :
  json r = Some (Object props) ->
  Api.errorMessage default r
  = or_else (lookup "detail" props) (or_else (lookup "message" props) (Str default)).
Proof.
  intros Hjson. unfold Api.errorMessage, Api.response_json. rewrite Hjson.
  cbn [get]. unfold or_else.
  destruct (truthy (lookup "detail" props)); reflexivity.
Qed.

Lemma http_error_client_side (default : string) (r : Response) :
  (status r < 500)%Z -> status r <> 413%Z ->
  Api.http_error default r = Error (Api.errorMessage default r) \/
  (status r = 400%Z /\
   Api.http_error default r
   = Error (or_else (Api.errorMessage default r)
              (Str "Invalid request. Please check your video files and settings."))).
Proof.
  intros Hsmall H413. unfold Api.http_error.
  destruct (status r =? 400)%Z eqn:E1; [right; apply Z.eqb_eq in E1; now split |].
  destruct (status r =? 413)%Z eqn:E2; [apply Z.eqb_eq in E2; contradiction |].
  destruct (status r =? 500)%Z eqn:E3; [apply Z.eqb_eq in E3; lia |].
  destruct (status r >=? 500)%Z eqn:E4; [| now left].
  rewrite Z.geb_leb in E4. apply Z.leb_le in E4. lia.
Qed.

(** X5. For a response that is not ok with a status below 500 other than
    413, whose body is a JSON object, the error both calls throw carries
    the detail of the body when it has one, else its message, else the
    default text of the call; the Invalid request text of the 400 branch
    is never the one. *)
Theorem server_detail_reaches_the_user :
  forall (API_URL : string) (server : Request -> Settled) (l : list (option File))
         (config : Api.AnalysisConfig) (maxDuration : Api.optional_number)
         (r : Response) (props : list (string * value)),
    accepted_files l = true ->
    ok r = false -> (status r < 500)%Z -> status r <> 413%Z ->
    json r = Some (Object props) ->
    (config_passes config = true ->
     server (analyze_request API_URL l config) = Resolved r ->
     fst (run (Api.uploadVideos API_URL server (Some l) config))
     = Throw (Error (or_else (lookup "detail" props)
                       (or_else (lookup "message" props)
                          (Str "Failed to upload videos")))))
    /\ (duration_passes maxDuration = true ->
        server (overlay_request API_URL l maxDuration) = Resolved r ->
        fst (run (Api.addTimestampOverlay API_URL server (Some l) maxDuration))
        = Throw (Error (or_else (lookup "detail" props)
                          (or_else (lookup "message" props)
                             (Str "Failed to process video"))))).
Proof.
  intros API_URL server l config maxDuration r props Hacc Hok Hsmall H413 Hjson.
  assert (Herror : forall default, default <> "" ->
            Api.http_error default r
            = Error (or_else (lookup "detail" props)
                       (or_else (lookup "message" props) (Str default)))).
  { intros default Hdefault.
    rewrite <- (errorMessage_of_object default r props Hjson).
    destruct (http_error_client_side default r Hsmall H413) as [H | [_ H]];
      [exact H |].
    rewrite H. unfold or_else at 1.
    now rewrite (errorMessage_truthy default r Hdefault). }
  split.
  - intros Hconfig Hserver.
    rewrite (uploadVideos_sent API_URL server l config Hacc Hconfig), Hserver.
    cbn [fst]. unfold response_outcome. rewrite Hok. cbn [negb].
    now rewrite Herror.
  - intros Hduration Hserver.
    rewrite (addTimestampOverlay_sent API_URL server l maxDuration Hacc Hduration), Hserver.
    cbn [fst]. unfold overlay_outcome. rewrite Hok. cbn [negb].
    now rewrite Herror.
Qed.

Lemma server_detail_reaches_the_user_witness :
  fst (run (Api.uploadVideos Examples.base_url
              (fun _ => Resolved
                          (Examples.fail_with 422 "Unprocessable Entity"
                             (Some (Object [("detail", Str "Video too short")]))))
              (Some Examples.one_clip) Examples.default_config))
  = Throw (Error (Str "Video too short")).
Proof.
  apply (proj1 (server_detail_reaches_the_user Examples.base_url
                  (fun _ => Resolved
                              (Examples.fail_with 422 "Unprocessable Entity"
                                 (Some (Object [("detail", Str "Video too short")]))))
                  Examples.one_clip Examples.default_config Api.Omitted
                  (Examples.fail_with 422 "Unprocessable Entity"
                     (Some (Object [("detail", Str "Video too short")])))
                  [("detail", Str "Video too short")]
                  eq_refl eq_refl ltac:(simpl; lia) ltac:(discriminate) eq_refl));
    reflexivity.
Defined.

(** ** The upload components: what validateVideo accepts *)

Section OldUploaderValidation.

Variable Number_toString : number -> string.
Variable media : File -> MediaOutcome.
Variable maxDuration : number.

#[local] Abbreviation validate :=
  (VideoUploader.validateVideo Number_toString media maxDuration).

Lemma uploader_valid_inv (f : File) :
  valid (validate (Some f)) = true ->
  startsWith (type f) "video/" = true
  /\ size f <> 0%Z /\ (size f <= MAX_BYTES)%Z
  /\ exists d, media f = LoadedMetadata d
               /\ isNaN d = false /\ le d (of_Z 0) = false
               /\ gt d maxDuration = false
               /\ Media.duration (validate (Some f)) = d
               /\ error (validate (Some f)) = None.
Proof.
  intros Hvalid. destruct (uploader_valid_size Number_toString media maxDuration f Hvalid)
    as [Hzero Hmax].
  revert Hvalid. unfold VideoUploader.validateVideo.
  destruct (startsWith (type f) "video/") eqn:Htype; cbn [negb]; [| discriminate].
  destruct (size f >? 100 * 1024 * 1024)%Z; [discriminate |].
  destruct (size f =? 0)%Z; [discriminate |].
  destruct (media f) as [d | code | |]; try discriminate.
  destruct (isNaN d) eqn:Hnan; cbn [orb]; [discriminate |].
  destruct (le d (of_Z 0)) eqn:Hle; [discriminate |].
  destruct (gt d maxDuration) eqn:Hgt; [discriminate |].
  intros _. repeat split; try assumption.
  exists d. repeat split; assumption.
Qed.

Lemma uploader_valid_intro (f : File) (d : number) :
  startsWith (type f) "video/" = true ->
  size f <> 0%Z -> (size f <= MAX_BYTES)%Z ->
  media f = LoadedMetadata d ->
  isNaN d = false -> le d (of_Z 0) = false -> gt d maxDuration = false ->
  valid (validate (Some f)) = true.
Proof.
  intros Htype Hzero Hmax Hmedia Hnan Hle Hgt.
  unfold VideoUploader.validateVideo, MAX_BYTES in *.
  rewrite Htype. cbn [negb].
  assert (Hbig : (size f >? 100 * 1024 * 1024)%Z = false).
  { rewrite Z.gtb_ltb. apply Z.ltb_ge. exact Hmax. }
  rewrite Hbig. apply Z.eqb_neq in Hzero. rewrite Hzero, Hmedia, Hnan, Hle, Hgt.
  reflexivity.
Qed.

Lemma uploader_invalid_reason (f : option File) :
  valid (validate f) = false ->
  exists m, error (validate f) = Some m /\ m <> "".
Proof.
  unfold VideoUploader.validateVideo.
  destruct f as [f |]; [| intros _; eexists; split; [reflexivity | discriminate]].
  destruct (negb (startsWith (type f) "video/"));
    [intros _; eexists; split; [reflexivity | discriminate] |].
  destruct (size f >? 100 * 1024 * 1024)%Z;
    [intros _; eexists; split; [reflexivity | discriminate] |].
  destruct (size f =? 0)%Z;
    [intros _; eexists; split; [reflexivity | discriminate] |].
  destruct (media f) as [d | code | |].
  - destruct (isNaN d || le d (of_Z 0));
      [intros _; eexists; split; [reflexivity | discriminate] |].
    destruct (gt d maxDuration); [| discriminate].
    intros _; eexists; split; [reflexivity | discriminate].
  - intros _.
    destruct code as [[| [| [| [| [| n]]]]] |];
      eexists; (split; [reflexivity | discriminate]).
  - intros _; eexists; split; [reflexivity | discriminate].
  - intros _; eexists; split; [reflexivity | discriminate].
Qed.

End OldUploaderValidation.

(** X6. The uploader of VideoUploader.tsx accepts a file exactly when its
    type starts with video/, its size is not zero and at most 100MB, and
    the browser loaded its metadata with a duration that is a number,
    greater than 0 and not greater than maxDuration; it then reports that
    duration and no error. Everything it rejects comes with a reason that
    is not empty. *)
Theorem uploader_accepts_readable_videos_only :
  forall (Number_toString : number -> string) (media : File -> MediaOutcome)
         (maxDuration : number) (f : File),
    let v := VideoUploader.validateVideo Number_toString media maxDuration (Some f) in
    (valid v = true <->
     startsWith (type f) "video/" = true
     /\ size f <> 0%Z /\ (size f <= MAX_BYTES)%Z
     /\ exists d, media f = LoadedMetadata d
                  /\ isNaN d = false /\ le d (of_Z 0) = false
                  /\ gt d maxDuration = false
                  /\ Media.duration v = d /\ error v = None)
    /\ (valid v = false -> exists m, error v = Some m /\ m <> "").
Proof.
  intros Number_toString media maxDuration f v. subst v. split; [split |].
  - apply uploader_valid_inv.
  - intros (Htype & Hzero & Hmax & d & Hmedia & Hnan & Hle & Hgt & _).
    now apply (uploader_valid_intro Number_toString media maxDuration f d).
  - apply uploader_invalid_reason.
Qed.

Lemma uploader_accepts_readable_videos_only_witness :
  startsWith (type Examples.clip) "video/" = true
  /\ size Examples.clip <> 0%Z /\ (size Examples.clip <= MAX_BYTES)%Z
  /\ exists d, Examples.plays Examples.clip = LoadedMetadata d
               /\ isNaN d = false /\ le d (of_Z 0) = false
               /\ gt d (of_Z 10) = false
               /\ Media.duration
                    (VideoUploader.validateVideo Examples.render Examples.plays (of_Z 10)
                       (Some Examples.clip)) = d
               /\ error
                    (VideoUploader.validateVideo Examples.render Examples.plays (of_Z 10)
                       (Some Examples.clip)) = None.
Proof.
  apply (proj1 (proj1 (uploader_accepts_readable_videos_only Examples.render
                         Examples.plays (of_Z 10) Examples.clip))).
  reflexivity.
Defined.

Lemma estimatedDuration_positive (size : Z) :
  gt (estimatedDuration size) (of_Z 0) = true
  /\ ge (estimatedDuration size) (of_Z 1) = true.
Proof.
  unfold estimatedDuration, megabytes, of_Z, div.
  change (is_zero (inject_Z (1024 * 1024))) with false. cbv iota.
  change (is_zero (3 # 2)) with false. cbv iota.
  set (x := Qred (Qred (inject_Z size / inject_Z (1024 * 1024)) / (3 # 2))).
  unfold Math_max. cbv iota beta.
  destruct (lt (Fin (inject_Z 1)) (Fin x)) eqn:Hlt.
  - unfold gt, ge, lt, le in *. unfold Qltb in *.
    apply negb_true_iff in Hlt.
    assert (H1 : inject_Z 1 < x).
    { apply Qnot_le_lt. intros H. apply Qle_bool_iff in H. congruence. }
    split.
    + apply negb_true_iff. destruct (Qle_bool x (inject_Z 0)) eqn:E; [| reflexivity].
      apply Qle_bool_iff in E. exfalso.
      apply (Qlt_irrefl x). apply Qle_lt_trans with (inject_Z 0); [exact E |].
      apply Qlt_trans with (inject_Z 1); [reflexivity | exact H1].
    + apply Qle_bool_iff. now apply Qlt_le_weak.
  - split; reflexivity.
Qed.

Section ModesValidation.

Variable media : File -> MediaOutcome.
Variable mode : VideoUploaderModes.AnalysisMode.

#[local] Abbreviation validate := (VideoUploaderModes.validateVideo media).

Lemma modes_valid_iff (f : File) :
  valid (validate (Some f) mode) = true <->
  startsWith (type f) "video/" = true
  /\ size f <> 0%Z /\ (size f <= mode_limit mode)%Z.
Proof.
  unfold VideoUploaderModes.validateVideo, mode_limit.
  destruct (startsWith (type f) "video/") eqn:Htype; cbn [negb].
  2:{ split; [discriminate | intros (H & _); discriminate]. }
  set (limit := (match mode with
                 | VideoUploaderModes.frame => 100
                 | VideoUploaderModes.multimodal => 50
                 end * 1024 * 1024)%Z).
  assert (Hlimit : limit = match mode with
                           | VideoUploaderModes.multimodal => (50 * 1024 * 1024)%Z
                           | VideoUploaderModes.frame => (100 * 1024 * 1024)%Z
                           end) by (subst limit; now destruct mode).
  rewrite <- Hlimit. clear Hlimit.
  destruct (size f >? limit)%Z eqn:Hbig.
  { rewrite Z.gtb_ltb in Hbig. apply Z.ltb_lt in Hbig.
    split; [discriminate | intros (_ & _ & H); lia]. }
  rewrite Z.gtb_ltb in Hbig. apply Z.ltb_ge in Hbig.
  destruct (size f =? 0)%Z eqn:Hzero.
  { apply Z.eqb_eq in Hzero. split; [discriminate | intros (_ & H & _); contradiction]. }
  apply Z.eqb_neq in Hzero.
  split; [intros _; repeat split; assumption | intros _].
  destruct (media f) as [d | code | |]; try reflexivity.
  destruct (isNaN d || le d (of_Z 0)); reflexivity.
Qed.

Lemma modes_valid_duration (f : File) :
  valid (validate (Some f) mode) = true ->
  gt (Media.duration (validate (Some f) mode)) (of_Z 0) = true
  /\ (Media.durationEstimated (validate (Some f) mode) = Some false ->
      media f = LoadedMetadata (Media.duration (validate (Some f) mode))).
Proof.
  unfold VideoUploaderModes.validateVideo.
  destruct (negb (startsWith (type f) "video/")); [discriminate |].
  destruct (size f >? _)%Z; [discriminate |].
  destruct (size f =? 0)%Z; [discriminate |].
  intros _.
  pose proof (proj1 (estimatedDuration_positive (size f))) as Hest.
  destruct (media f) as [d | code | |];
    try (split; [exact Hest | discriminate]).
  destruct (isNaN d) eqn:Hnan; cbn [orb]; [split; [exact Hest | discriminate] |].
  destruct (le d (of_Z 0)) eqn:Hle; [split; [exact Hest | discriminate] |].
  split; [| reflexivity].
  cbn [Media.duration]. unfold gt, lt, le, of_Z in *.
  destruct d as [| q | s]; try discriminate.
  - unfold Qltb. now rewrite Hle.
  - destruct s; [discriminate | reflexivity].
Qed.

End ModesValidation.

(** X7. The uploader with analysis modes accepts a file exactly when its
    type starts with video/ and its size is not zero and within the limit
    of the mode (100MB for frame, 50MB for multimodal): what the browser
    makes of the file never rejects it. The duration it reports for an
    accepted file is always greater than 0, and it is marked as not
    estimated only when it is the one the browser read. *)
Theorem modes_uploader_accepts_by_type_and_size :
  forall (media : File -> MediaOutcome) (mode : VideoUploaderModes.AnalysisMode)
         (f : File),
    let v := VideoUploaderModes.validateVideo media (Some f) mode in
    (valid v = true <->
     startsWith (type f) "video/" = true
     /\ size f <> 0%Z /\ (size f <= mode_limit mode)%Z)
    /\ (forall media', valid (VideoUploaderModes.validateVideo media' (Some f) mode)
                       = valid v)
    /\ (valid v = true ->
        gt (Media.duration v) (of_Z 0) = true
        /\ (Media.durationEstimated v = Some false ->
            media f = LoadedMetadata (Media.duration v))).
Proof.
  intros media mode f v. subst v. split; [apply modes_valid_iff |]. split.
  - intros media'.
    destruct (valid (VideoUploaderModes.validateVideo media (Some f) mode)) eqn:H.
    + apply modes_valid_iff. now apply modes_valid_iff in H.
    + destruct (valid (VideoUploaderModes.validateVideo media' (Some f) mode)) eqn:H';
        [| reflexivity].
      apply modes_valid_iff in H'. apply (modes_valid_iff media) in H'. congruence.
  - apply modes_valid_duration.
Qed.

Lemma modes_uploader_accepts_by_type_and_size_witness :
  gt (Media.duration
        (VideoUploaderModes.validateVideo (fun _ => TimedOut) (Some Examples.clip)
           VideoUploaderModes.multimodal)) (of_Z 0) = true
  /\ (Media.durationEstimated
        (VideoUploaderModes.validateVideo (fun _ => TimedOut) (Some Examples.clip)
           VideoUploaderModes.multimodal) = Some false ->
      TimedOut
      = LoadedMetadata
          (Media.duration
             (VideoUploaderModes.validateVideo (fun _ => TimedOut) (Some Examples.clip)
                VideoUploaderModes.multimodal))).
Proof.
  apply (proj2 (proj2 (modes_uploader_accepts_by_type_and_size (fun _ => TimedOut)
                         VideoUploaderModes.multimodal Examples.clip))).
  reflexivity.
Defined.

(** ** The upload components: what a selection adds *)

Section OldUploaderSelection.

Variable Number_toString : number -> string.
Variable media : File -> MediaOutcome.
Variable createObjectURL : File -> ObjectURL.
Variable maxDuration : number.

#[local] Arguments VideoUploader.validateVideo : simpl never.

#[local] Abbreviation validate :=
  (VideoUploader.validateVideo Number_toString media maxDuration).
#[local] Abbreviation validate_all :=
  (VideoUploader.validate_all Number_toString media createObjectURL maxDuration).
#[local] Abbreviation select :=
  (VideoUploader.handleFileSelect Number_toString media createObjectURL maxDuration).
#[local] Abbreviation accepted :=
  (fun f => valid (validate (Some f)) && is_url (createObjectURL f)).

Lemma uploader_validate_all_files (fileArray : list File) :
  forall (acc : list VideoUploader.VideoFile) (errs : list string),
    map VideoUploader.file (fst (validate_all fileArray acc errs))
    = map VideoUploader.file acc ++ filter accepted fileArray
    /\ List.length (snd (validate_all fileArray acc errs))
       = (List.length errs
          + List.length (filter (fun f => negb (accepted f)) fileArray))%nat.
Proof.
  induction fileArray as [| f rest IH]; intros acc errs; simpl.
  - rewrite app_nil_r. split; [reflexivity | lia].
  - destruct (valid (validate (Some f))) eqn:Hvalid; simpl.
    + destruct (createObjectURL f) as [u | message]; simpl.
      * match goal with |- context [VideoUploader.validate_all _ _ _ _ rest ?a ?e] =>
          destruct (IH a e) as [IH1 IH2] end.
        rewrite IH1, IH2, map_app, <- app_assoc. split; reflexivity.
      * match goal with |- context [VideoUploader.validate_all _ _ _ _ rest ?a ?e] =>
          destruct (IH a e) as [IH1 IH2] end.
        rewrite IH1, IH2, length_app. simpl. split; [reflexivity | lia].
    + match goal with |- context [VideoUploader.validate_all _ _ _ _ rest ?a ?e] =>
        destruct (IH a e) as [IH1 IH2] end.
      rewrite IH1, IH2, length_app. simpl. split; [reflexivity | lia].
Qed.

Lemma uploader_select_accounts (n : nat) (fileArray : list File) :
  fileArray <> [] -> (n + List.length fileArray <= 6)%nat ->
  map VideoUploader.file (newVideos (select n (Some fileArray)))
  = filter accepted fileArray
  /\ (forallb accepted fileArray = true ->
      setError (select n (Some fileArray)) = [None])
  /\ (forallb accepted fileArray = false ->
      exists message, setError (select n (Some fileArray)) = [None; Some message]).
Proof.
  intros Hnonempty Hroom. unfold VideoUploader.handleFileSelect.
  destruct fileArray as [| f rest]; [congruence |].
  assert (Hguard : (6 <? n + List.length (f :: rest))%nat = false)
    by (apply Nat.ltb_ge; exact Hroom).
  rewrite Hguard.
  destruct (uploader_validate_all_files (f :: rest) [] []) as [Hfiles Herrs].
  destruct (validate_all (f :: rest) [] []) as [vs errs].
  cbn [fst snd] in Hfiles, Herrs. cbn [newVideos setError].
  split; [exact Hfiles |].
  assert (Hcount : forall l : list File,
             forallb accepted l = true <->
             List.length (filter (fun f => negb (accepted f)) l) = 0%nat).
  { induction l as [| x l IHl]; simpl; [tauto |].
    destruct (accepted x); simpl; [exact IHl | split; discriminate]. }
  split.
  - intros Hall. apply Hcount in Hall. rewrite Hall in Herrs.
    change (List.length (@nil string) + 0)%nat with 0%nat in Herrs.
    rewrite Herrs. reflexivity.
  - intros Hsome.
    assert (Hpos : (0 < List.length errs)%nat).
    { rewrite Herrs. change (List.length (@nil string)) with 0%nat.
      rewrite Nat.add_0_l.
      destruct (List.length (filter (fun f => negb (accepted f)) (f :: rest))) eqn:E;
        [| lia].
      apply Hcount in E. congruence. }
    apply Nat.ltb_lt in Hpos. rewrite Hpos.
    destruct (List.length vs =? 0)%nat; eexists; reflexivity.
Qed.

End OldUploaderSelection.

Section ModesSelection.

Variable media : File -> MediaOutcome.
Variable createObjectURL : File -> ObjectURL.
Variable mode : VideoUploaderModes.AnalysisMode.

#[local] Arguments VideoUploaderModes.validateVideo : simpl never.

#[local] Abbreviation validate := (VideoUploaderModes.validateVideo media).
#[local] Abbreviation validate_all :=
  (VideoUploaderModes.validate_all media createObjectURL mode).
#[local] Abbreviation select :=
  (fun n => VideoUploaderModes.handleFileSelect media createObjectURL n mode).
#[local] Abbreviation accepted :=
  (fun f => valid (validate (Some f) mode) && is_url (createObjectURL f)).

Lemma modes_validate_all_files (fileArray : list File) :
  forall (acc : list VideoUploaderModes.VideoFile) (errs : list string),
    map VideoUploaderModes.file (fst (validate_all fileArray acc errs))
    = map VideoUploaderModes.file acc ++ filter accepted fileArray
    /\ List.length (snd (validate_all fileArray acc errs))
       = (List.length errs
          + List.length (filter (fun f => negb (accepted f)) fileArray))%nat.
Proof.
  induction fileArray as [| f rest IH]; intros acc errs; simpl.
  - rewrite app_nil_r. split; [reflexivity | lia].
  - destruct (valid (validate (Some f) mode)) eqn:Hvalid; simpl.
    + destruct (createObjectURL f) as [u | message]; simpl.
      * match goal with |- context [VideoUploaderModes.validate_all _ _ _ rest ?a ?e] =>
          destruct (IH a e) as [IH1 IH2] end.
        rewrite IH1, IH2, map_app, <- app_assoc. split; reflexivity.
      * match goal with |- context [VideoUploaderModes.validate_all _ _ _ rest ?a ?e] =>
          destruct (IH a e) as [IH1 IH2] end.
        rewrite IH1, IH2, length_app. simpl. split; [reflexivity | lia].
    + match goal with |- context [VideoUploaderModes.validate_all _ _ _ rest ?a ?e] =>
        destruct (IH a e) as [IH1 IH2] end.
      rewrite IH1, IH2, length_app. simpl. split; [reflexivity | lia].
Qed.

Lemma modes_select_accounts (n : nat) (fileArray : list File) :
  fileArray <> [] -> (n + List.length fileArray <= 6)%nat ->
  map VideoUploaderModes.file (newVideos (select n (Some fileArray)))
  = filter accepted fileArray
  /\ (forallb accepted fileArray = true ->
      setError (select n (Some fileArray)) = [None])
  /\ (forallb accepted fileArray = false ->
      exists message, setError (select n (Some fileArray)) = [None; Some message]).
Proof.
  intros Hnonempty Hroom. unfold VideoUploaderModes.handleFileSelect.
  destruct fileArray as [| f rest]; [congruence |].
  assert (Hguard : (6 <? n + List.length (f :: rest))%nat = false)
    by (apply Nat.ltb_ge; exact Hroom).
  rewrite Hguard.
  destruct (modes_validate_all_files (f :: rest) [] []) as [Hfiles Herrs].
  destruct (validate_all (f :: rest) [] []) as [vs errs].
  cbn [fst snd] in Hfiles, Herrs. cbn [newVideos setError].
  split; [exact Hfiles |].
  assert (Hcount : forall l : list File,
             forallb accepted l = true <->
             List.length (filter (fun f => negb (accepted f)) l) = 0%nat).
  { induction l as [| x l IHl]; simpl; [tauto |].
    destruct (accepted x); simpl; [exact IHl | split; discriminate]. }
  split.
  - intros Hall. apply Hcount in Hall. rewrite Hall in Herrs.
    change (List.length (@nil string) + 0)%nat with 0%nat in Herrs.
    rewrite Herrs. reflexivity.
  - intros Hsome.
    assert (Hpos : (0 < List.length errs)%nat).
    { rewrite Herrs. change (List.length (@nil string)) with 0%nat.
      rewrite Nat.add_0_l.
      destruct (List.length (filter (fun f => negb (accepted f)) (f :: rest))) eqn:E;
        [| lia].
      apply Hcount in E. congruence. }
    apply Nat.ltb_lt in Hpos. rewrite Hpos.
    destruct (List.length vs =? 0)%nat; eexists; reflexivity.
Qed.

End ModesSelection.

(** X8. A selection that fits under the limit of six adds exactly the
    files that validateVideo accepts and for which a preview URL could be
    made, in the order of the selection; it clears the error when every
    file was added and sets one otherwise. A null or empty selection
    changes nothing. (Both versions of the uploader.) *)
Theorem selection_adds_the_accepted_files_in_order :
  (forall Number_toString media createObjectURL maxDuration n fileArray,
      fileArray <> [] -> (n + List.length fileArray <= 6)%nat ->
      let u := VideoUploader.handleFileSelect Number_toString media createObjectURL
                 maxDuration n (Some fileArray) in
      let accepted f :=
        valid (VideoUploader.validateVideo Number_toString media maxDuration (Some f))
        && is_url (createObjectURL f) in
      map VideoUploader.file (newVideos u) = filter accepted fileArray
      /\ (forallb accepted fileArray = true -> setError u = [None])
      /\ (forallb accepted fileArray = false ->
          exists message, setError u = [None; Some message]))
  /\
  (forall media createObjectURL mode n fileArray,
      fileArray <> [] -> (n + List.length fileArray <= 6)%nat ->
      let u := VideoUploaderModes.handleFileSelect media createObjectURL n mode
                 (Some fileArray) in
      let accepted f :=
        valid (VideoUploaderModes.validateVideo media (Some f) mode)
        && is_url (createObjectURL f) in
      map VideoUploaderModes.file (newVideos u) = filter accepted fileArray
      /\ (forallb accepted fileArray = true -> setError u = [None])
      /\ (forallb accepted fileArray = false ->
          exists message, setError u = [None; Some message]))
  /\
  (forall Number_toString media createObjectURL maxDuration mode n st st' files,
      files = None \/ files = Some [] ->
      VideoUploader.apply
        (VideoUploader.handleFileSelect Number_toString media createObjectURL
           maxDuration n files) st = st
      /\ VideoUploaderModes.apply
           (VideoUploaderModes.handleFileSelect media createObjectURL n mode files) st'
         = st').
Proof.
  split; [| split].
  - intros. now apply uploader_select_accounts.
  - intros. now apply (modes_select_accounts media createObjectURL mode).
  - intros Number_toString media createObjectURL maxDuration mode n st st' files Hfiles.
    destruct st as [vs e], st' as [vs' e'].
    destruct Hfiles as [-> | ->];
      unfold VideoUploader.apply, VideoUploaderModes.apply; simpl;
      now rewrite !app_nil_r.
Qed.

Lemma selection_adds_the_accepted_files_in_order_witness :
  map VideoUploader.file
    (newVideos
       (VideoUploader.handleFileSelect Examples.render Examples.plays Examples.blob_url
          (of_Z 10) 2 (Some [Examples.clip; Examples.empty_clip; Examples.clip])))
  = [Examples.clip; Examples.clip]
  /\ exists message,
      setError
        (VideoUploader.handleFileSelect Examples.render Examples.plays Examples.blob_url
           (of_Z 10) 2 (Some [Examples.clip; Examples.empty_clip; Examples.clip]))
      = [None; Some message].
Proof.
  destruct (proj1 selection_adds_the_accepted_files_in_order
              Examples.render Examples.plays Examples.blob_url (of_Z 10) 2%nat
              [Examples.clip; Examples.empty_clip; Examples.clip])
    as (Hfiles & _ & Hsome); [discriminate | simpl; lia |].
  split; [exact Hfiles | apply Hsome; reflexivity].
Defined.

(** ** components/SummaryPanel.tsx: the counters *)

Lemma kept_add_one (k : string) (t : SummaryPanel.tally) :
  kept k t -> kept k (SummaryPanel.add_one t).
Proof.
  intros (Hproto & Htext & Hpos). destruct t as [n |]; simpl.
  - split; [exact Hproto |]. split.
    + split; [discriminate |]. intros H. apply Htext in H. discriminate.
    + intros m Hm. injection Hm as <-. lia.
  - split; [exact Hproto |]. split; [exact Htext | exact Hpos].
Qed.

Lemma kept_new (key : string) :
  key <> "__proto__" ->
  kept key (if SummaryPanel.inherited key then SummaryPanel.Text else SummaryPanel.Count 1).
Proof.
  intros Hproto. split; [exact Hproto |].
  destruct (SummaryPanel.inherited key); split.
  - tauto.
  - discriminate.
  - split; discriminate.
  - intros n Hn. injection Hn as <-. lia.
Qed.

Lemma store_well_kept (key : string) (c : SummaryPanel.counts) :
  key <> "__proto__" -> well_kept c -> well_kept (SummaryPanel.store key c).
Proof.
  intros Hproto. unfold well_kept.
  induction c as [| [k0 t0] rest IH]; intros Hc; simpl.
  - constructor; [now apply kept_new | constructor].
  - inversion Hc as [| ? ? Hhead Hrest]; subst.
    destruct (k0 =? key); constructor; auto.
    now apply kept_add_one.
Qed.

Lemma store_keys (key : string) (c : SummaryPanel.counts) :
  map fst (SummaryPanel.store key c)
  = if existsb (fun k => k =? key) (map fst c) then map fst c else map fst c ++ [key].
Proof.
  induction c as [| [k0 t0] rest IH]; simpl; [reflexivity |].
  destruct (k0 =? key); simpl; [reflexivity |].
  rewrite IH. destruct (existsb (fun k => k =? key) (map fst rest)); reflexivity.
Qed.

Lemma store_NoDup (key : string) (c : SummaryPanel.counts) :
  NoDup (map fst c) -> NoDup (map fst (SummaryPanel.store key c)).
Proof.
  intros Hnd. rewrite store_keys.
  destruct (existsb (fun k => k =? key) (map fst c)) eqn:E; [exact Hnd |].
  apply NoDup_app; [exact Hnd | repeat constructor; simpl; tauto |].
  intros k Hin [Hk | []]. subst k.
  assert (Hex : existsb (fun k' => k' =? key) (map fst c) = true).
  { apply existsb_exists. exists key. split; [exact Hin | apply String.eqb_refl]. }
  congruence.
Qed.

Lemma store_In_keys (key : string) (c : SummaryPanel.counts) (k : string) :
  In k (map fst (SummaryPanel.store key c)) <-> k = key \/ In k (map fst c).
Proof.
  rewrite store_keys.
  destruct (existsb (fun k' => k' =? key) (map fst c)) eqn:E.
  - apply existsb_exists in E as (k' & Hin & Heq). apply String.eqb_eq in Heq. subst k'.
    split; [tauto |]. intros [-> | H]; assumption.
  - rewrite in_app_iff. simpl. split; [intros [H | [H | []]]; auto | intros [H | H]; auto].
Qed.

Lemma store_count_for (key k : string) (c : SummaryPanel.counts) :
  well_kept c ->
  count_for k (SummaryPanel.store key c)
  = (count_for k c
     + if (key =? k)%string && negb (SummaryPanel.inherited key) then 1 else 0)%nat.
Proof.
  unfold well_kept. induction c as [| [k0 t0] rest IH]; intros Hc; simpl.
  - destruct (key =? k), (SummaryPanel.inherited key); reflexivity.
  - inversion Hc as [| ? ? Hhead Hrest]; subst. cbn [fst snd] in Hhead.
    destruct (k0 =? key) eqn:E0; simpl.
    + apply String.eqb_eq in E0. subst k0.
      destruct (key =? k); simpl; [| lia].
      destruct Hhead as (_ & Htext & _).
      destruct t0 as [n |], (SummaryPanel.inherited key); simpl.
      * assert (H : SummaryPanel.Count n = SummaryPanel.Text) by now apply Htext.
        discriminate.
      * lia.
      * lia.
      * assert (H : false = true) by now apply Htext.
        discriminate.
    + destruct (k0 =? k) eqn:E1; [| now apply IH].
      apply String.eqb_eq in E1. subst k0. rewrite String.eqb_sym, E0. simpl. lia.
Qed.

Lemma store_total (key : string) (c : SummaryPanel.counts) :
  well_kept c ->
  total (SummaryPanel.store key c)
  = (total c + if SummaryPanel.inherited key then 0 else 1)%nat.
Proof.
  unfold well_kept. induction c as [| [k0 t0] rest IH]; intros Hc; simpl.
  - destruct (SummaryPanel.inherited key); reflexivity.
  - inversion Hc as [| ? ? Hhead Hrest]; subst. cbn [fst snd] in Hhead.
    destruct (k0 =? key) eqn:E0; simpl.
    + apply String.eqb_eq in E0. subst k0.
      destruct Hhead as (_ & Htext & _).
      destruct t0 as [n |], (SummaryPanel.inherited key); simpl.
      * assert (H : SummaryPanel.Count n = SummaryPanel.Text) by now apply Htext.
        discriminate.
      * lia.
      * lia.
      * assert (H : false = true) by now apply Htext.
        discriminate.
    + rewrite (IH Hrest). lia.
Qed.

Lemma bump_well_kept (key : string) (c : SummaryPanel.counts) :
  well_kept c -> well_kept (SummaryPanel.bump key c).
Proof.
  intros Hc. unfold SummaryPanel.bump.
  destruct (key =? "__proto__") eqn:E; [exact Hc |].
  apply String.eqb_neq in E. now apply store_well_kept.
Qed.

Lemma bump_NoDup (key : string) (c : SummaryPanel.counts) :
  NoDup (map fst c) -> NoDup (map fst (SummaryPanel.bump key c)).
Proof.
  intros Hnd. unfold SummaryPanel.bump.
  destruct (key =? "__proto__"); [exact Hnd | now apply store_NoDup].
Qed.

Lemma bump_In_keys (key : string) (c : SummaryPanel.counts) (k : string) :
  In k (map fst (SummaryPanel.bump key c))
  <-> (k = key /\ key <> "__proto__") \/ In k (map fst c).
Proof.
  unfold SummaryPanel.bump. destruct (key =? "__proto__") eqn:E.
  - apply String.eqb_eq in E. split; [tauto |]. intros [[_ H] | H]; [contradiction | exact H].
  - apply String.eqb_neq in E. rewrite store_In_keys. tauto.
Qed.

Lemma bump_count_for (key k : string) (c : SummaryPanel.counts) :
  well_kept c ->
  count_for k (SummaryPanel.bump key c)
  = (count_for k c + if (key =? k)%string && negb (special key) then 1 else 0)%nat.
Proof.
  intros Hc. unfold SummaryPanel.bump, special.
  destruct (key =? "__proto__"); simpl.
  - rewrite andb_false_r. lia.
  - now apply store_count_for.
Qed.

Lemma bump_total (key : string) (c : SummaryPanel.counts) :
  well_kept c ->
  total (SummaryPanel.bump key c) = (total c + if special key then 0 else 1)%nat.
Proof.
  intros Hc. unfold SummaryPanel.bump, special.
  destruct (key =? "__proto__"); simpl; [lia | now apply store_total].
Qed.

Lemma tally_up_counts (p : Types.FrameAnalysis -> bool)
  (key : Types.FrameAnalysis -> string) (frames : list Types.FrameAnalysis) :
  forall c : SummaryPanel.counts,
    well_kept c ->
    let c' := tally_up p key frames c in
    well_kept c'
    /\ (forall k,
           count_for k c'
           = (count_for k c
              + List.length
                  (filter (fun f => p f && ((key f =? k)%string && negb (special (key f))))
                     frames))%nat)
    /\ total c'
       = (total c
          + List.length (filter (fun f => p f && negb (special (key f))) frames))%nat
    /\ (NoDup (map fst c) -> NoDup (map fst c'))
    /\ (forall k,
           In k (map fst c')
           <-> In k (map fst c)
               \/ (k <> "__proto__"
                   /\ exists f, In f frames /\ p f = true /\ key f = k)).
Proof.
  unfold tally_up.
  induction frames as [| f rest IH]; intros c Hc; cbv zeta; simpl.
  - split; [exact Hc |]. split; [intros k; lia |]. split; [lia |]. split; [auto |].
    intros k. split; [tauto |]. intros [H | (_ & f & [] & _)]. exact H.
  - destruct (p f) eqn:Hp; simpl.
    + destruct (IH (SummaryPanel.bump (key f) c) (bump_well_kept _ _ Hc))
        as (Hkept & Hcount & Htotal & Hnd & Hkeys).
      cbv zeta in Hkept, Hcount, Htotal, Hnd, Hkeys.
      split; [exact Hkept |]. split; [| split; [| split]].
      * intros k. rewrite Hcount, (bump_count_for _ _ _ Hc).
        destruct ((key f =? k) && negb (special (key f))); simpl; lia.
      * rewrite Htotal, (bump_total _ _ Hc).
        destruct (special (key f)); simpl; lia.
      * intros H. apply Hnd. now apply bump_NoDup.
      * intros k. rewrite Hkeys, bump_In_keys. split.
        -- intros [[[-> Hproto] | H] | (Hproto & g & Hg & Hpg & Hkg)].
           ++ right. split; [exact Hproto |]. exists f. auto.
           ++ now left.
           ++ right. split; [exact Hproto |]. exists g. auto.
        -- intros [H | (Hproto & g & [<- | Hg] & Hpg & Hkg)].
           ++ left. now right.
           ++ left. left. subst k. split; [reflexivity | exact Hproto].
           ++ right. split; [exact Hproto |]. exists g. auto.
    + destruct (IH c Hc) as (Hkept & Hcount & Htotal & Hnd & Hkeys).
      cbv zeta in Hkept, Hcount, Htotal, Hnd, Hkeys.
      split; [exact Hkept |]. split; [exact Hcount |]. split; [exact Htotal |].
      split; [exact Hnd |].
      intros k. rewrite Hkeys. split.
      * intros [H | (Hproto & g & Hg & Hpg & Hkg)]; [now left |].
        right. split; [exact Hproto |]. exists g. auto.
      * intros [H | (Hproto & g & [<- | Hg] & Hpg & Hkg)]; [now left | congruence |].
        right. split; [exact Hproto |]. exists g. auto.
Qed.

Lemma well_kept_In (c : SummaryPanel.counts) (k : string) (t : SummaryPanel.tally) :
  well_kept c -> In (k, t) c -> kept k t.
Proof.
  unfold well_kept. rewrite Forall_forall. intros Hc Hin. apply (Hc (k, t) Hin).
Qed.

Lemma split_length {A : Type} (p s : A -> bool) (l : list A) :
  List.length (filter p l)
  = (List.length (filter (fun x => p x && negb (s x)) l)
     + List.length (filter (fun x => p x && s x) l))%nat.
Proof.
  induction l as [| x rest IH]; simpl; [reflexivity |].
  destruct (p x), (s x); simpl; lia.
Qed.

Lemma visit_events (frames : list Types.FrameAnalysis) :
  forall a : SummaryPanel.Acc,
    SummaryPanel.eventBreakdown_acc (fold_left SummaryPanel.visit frames a)
    = tally_up SummaryPanel.is_event Types.event frames (SummaryPanel.eventBreakdown_acc a).
Proof.
  unfold tally_up. induction frames as [| f rest IH]; intros a; simpl; [reflexivity |].
  now rewrite IH.
Qed.

Lemma inherited_is_special (key : string) :
  SummaryPanel.inherited key = true -> special key = true /\ key <> "__proto__".
Proof.
  intros H. unfold special. rewrite H, orb_true_r. split; [reflexivity |].
  intros ->. discriminate.
Qed.

Lemma listed_key (c : SummaryPanel.counts) (k : string) :
  In k (map fst c) <-> exists t, In (k, t) c.
Proof.
  rewrite in_map_iff. split.
  - intros ([k' t] & Heq & Hin). simpl in Heq. subst k'. now exists t.
  - intros (t & Hin). now exists (k, t).
Qed.

(** X9. In the summary the events are counted in a plain object. For an
    event that is neither __proto__ nor the name of a method that objects
    inherit (constructor, toString and the like), the count kept is the
    number of frames with that event (empty, none and unknown events are
    not counted). Under __proto__ nothing is kept. Under the name of an
    inherited method a text is kept, not a count, exactly when a frame
    has that event. No event is listed twice, and no count is 0.
    totalEvents is the sum of the counts plus the number of frames whose
    event is __proto__ or the name of an inherited method. *)
Theorem event_breakdown_counts_frames :
  forall frames : list Types.FrameAnalysis,
    let s := SummaryPanel.summary frames in
    (forall key,
        special key = false ->
        count_for key (SummaryPanel.eventBreakdown s)
        = List.length (frames_with_event key frames))
    /\ (forall key t, In (key, t) (SummaryPanel.eventBreakdown s) -> kept key t)
    /\ (forall key,
           SummaryPanel.inherited key = true ->
           (In (key, SummaryPanel.Text) (SummaryPanel.eventBreakdown s)
            <-> frames_with_event key frames <> []))
    /\ NoDup (map fst (SummaryPanel.eventBreakdown s))
    /\ SummaryPanel.totalEvents s
       = (total (SummaryPanel.eventBreakdown s)
          + List.length (frames_with_special_event frames))%nat.
Proof.
  intros frames s. subst s. unfold SummaryPanel.summary.
  cbn [SummaryPanel.eventBreakdown SummaryPanel.totalEvents].
  rewrite visit_events. cbn [SummaryPanel.eventBreakdown_acc SummaryPanel.acc0].
  destruct (tally_up_counts SummaryPanel.is_event Types.event frames [])
    as (Hkept & Hcount & Htotal & Hnd & Hkeys); [constructor |].
  cbv zeta in Hkept, Hcount, Htotal, Hnd, Hkeys.
  split; [| split; [| split; [| split]]].
  - intros key Hkey. rewrite Hcount. simpl. unfold frames_with_event.
    f_equal. apply filter_ext. intros f.
    destruct (Types.event f =? key) eqn:E; [| reflexivity].
    apply String.eqb_eq in E. rewrite E, Hkey. reflexivity.
  - intros key t Hin. now apply (well_kept_In _ _ _ Hkept).
  - intros key Hinh. destruct (inherited_is_special key Hinh) as [_ Hproto].
    split.
    + intros Hin.
      assert (Hk : In key (map fst (tally_up SummaryPanel.is_event Types.event frames [])))
        by (apply listed_key; eexists; exact Hin).
      apply Hkeys in Hk as [[] | (_ & f & Hf & Hp & Hkf)].
      intros Hnone.
      assert (Hff : In f (frames_with_event key frames)).
      { unfold frames_with_event. apply filter_In. split; [exact Hf |].
        rewrite Hp, Hkf, String.eqb_refl. reflexivity. }
      rewrite Hnone in Hff. contradiction.
    + intros Hsome.
      destruct (frames_with_event key frames) as [| f rest] eqn:Hfs; [congruence |].
      assert (Hff : In f (frames_with_event key frames)) by (rewrite Hfs; now left).
      unfold frames_with_event in Hff. apply filter_In in Hff as [Hf Hpf].
      apply andb_prop in Hpf as [Hp Hkf]. apply String.eqb_eq in Hkf.
      assert (Hk : In key (map fst (tally_up SummaryPanel.is_event Types.event frames []))).
      { apply Hkeys. right. split; [exact Hproto |]. exists f. auto. }
      apply listed_key in Hk as (t & Hin).
      destruct (well_kept_In _ _ _ Hkept Hin) as (_ & Htext & _).
      assert (Ht : t = SummaryPanel.Text) by now apply Htext.
      now subst t.
  - apply Hnd. constructor.
  - rewrite Htotal. simpl. unfold frames_with_special_event.
    apply (split_length SummaryPanel.is_event (fun f => special (Types.event f))).
Qed.

Lemma event_breakdown_counts_frames_witness :
  count_for "pass" (SummaryPanel.eventBreakdown (SummaryPanel.summary Footage.odd_events))
  = 2%nat
  /\ SummaryPanel.eventBreakdown (SummaryPanel.summary Footage.odd_events)
     = [("pass", SummaryPanel.Count 2); ("constructor", SummaryPanel.Text)]
  /\ SummaryPanel.totalEvents (SummaryPanel.summary Footage.odd_events) = 4%nat
  /\ total (SummaryPanel.eventBreakdown (SummaryPanel.summary Footage.odd_events)) = 2%nat.
Proof.
  split; [| repeat split].
  exact (proj1 (event_breakdown_counts_frames Footage.odd_events) "pass" eq_refl).
Defined.

(** ** components/SummaryPanel.tsx: the most common entries *)

Lemma insert_index_In (e : Z * (string * SummaryPanel.tally))
  (l : list (Z * (string * SummaryPanel.tally))) (y : Z * (string * SummaryPanel.tally)) :
  In y (SummaryPanel.insert_index e l) <-> y = e \/ In y l.
Proof.
  induction l as [| x rest IH]; simpl; [intuition |].
  destruct (fst e <? fst x)%Z; simpl; [intuition |].
  rewrite IH. intuition.
Qed.

Lemma index_entries_In (c : SummaryPanel.counts) (i : Z) (kv : string * SummaryPanel.tally) :
  In (i, kv) (SummaryPanel.index_entries c)
  <-> In kv c /\ SummaryPanel.array_index (fst kv) = Some i.
Proof.
  induction c as [| [k n] rest IH]; simpl; [intuition |].
  destruct (SummaryPanel.array_index k) as [j |] eqn:Hk.
  - rewrite insert_index_In, IH. split.
    + intros [Heq | [Hin Hidx]]; [| tauto].
      injection Heq as -> ->. split; [now left | exact Hk].
    + intros [[<- | Hin] Hidx]; [| tauto].
      left. simpl in Hidx. congruence.
  - rewrite IH. split; [tauto |].
    intros [[<- | Hin] Hidx]; [simpl in Hidx; congruence | tauto].
Qed.

Lemma Object_entries_In (c : SummaryPanel.counts) (kv : string * SummaryPanel.tally) :
  In kv (SummaryPanel.Object_entries c) <-> In kv c.
Proof.
  unfold SummaryPanel.Object_entries. rewrite in_app_iff, in_map_iff, filter_In.
  split.
  - intros [([i kv'] & Heq & Hin) | [Hin _]]; [| exact Hin].
    simpl in Heq. subst kv'. now apply index_entries_In in Hin.
  - intros Hin. destruct (SummaryPanel.array_index (fst kv)) as [i |] eqn:Hidx.
    + left. exists (i, kv). split; [reflexivity |]. now apply index_entries_In.
    + right. now split.
Qed.

Lemma Object_entries_keys (c : SummaryPanel.counts) (k : string) :
  In k (map fst (SummaryPanel.Object_entries c)) <-> In k (map fst c).
Proof.
  rewrite !listed_key. split; intros (t & Hin); exists t; now apply Object_entries_In.
Qed.

Lemma largest_count (rest : SummaryPanel.counts) :
  forall e : string * SummaryPanel.tally,
    let best :=
      fold_left (fun best x =>
                   if (SummaryPanel.count_of (snd best) <? SummaryPanel.count_of (snd x))%nat
                   then x else best)
        rest e in
    In best (e :: rest)
    /\ forall x, In x (e :: rest) ->
                 (SummaryPanel.count_of (snd x) <= SummaryPanel.count_of (snd best))%nat.
Proof.
  induction rest as [| y rest IH]; intros e; simpl.
  - split; [now left |]. intros x [<- | []]. lia.
  - set (next := if (SummaryPanel.count_of (snd e) <? SummaryPanel.count_of (snd y))%nat
                 then y else e).
    destruct (IH next) as [Hin Hmax]. simpl in Hin, Hmax.
    assert (Hstep : (SummaryPanel.count_of (snd e) <= SummaryPanel.count_of (snd next))%nat
                    /\ (SummaryPanel.count_of (snd y)
                        <= SummaryPanel.count_of (snd next))%nat
                    /\ (next = e \/ next = y)).
    { subst next.
      destruct (SummaryPanel.count_of (snd e) <? SummaryPanel.count_of (snd y))%nat eqn:E.
      - apply Nat.ltb_lt in E. repeat split; try lia. now right.
      - apply Nat.ltb_ge in E. repeat split; try lia. now left. }
    destruct Hstep as (He & Hy & Hnext). split.
    + destruct Hin as [Heq | Hin]; [| tauto].
      rewrite <- Heq. destruct Hnext as [-> | ->]; tauto.
    + intros x Hx.
      destruct Hx as [<- | [<- | Hx]].
      * apply Nat.le_trans with (SummaryPanel.count_of (snd next));
          [exact He | apply Hmax; now left].
      * apply Nat.le_trans with (SummaryPanel.count_of (snd next));
          [exact Hy | apply Hmax; now left].
      * apply Hmax. now right.
Qed.

Lemma key_or_key (fallback key : string) :
  key <> "" -> SummaryPanel.key_or fallback key = key.
Proof.
  intros H. unfold SummaryPanel.key_or. apply String.eqb_neq in H. now rewrite H.
Qed.

Lemma most_common_spec (c : SummaryPanel.counts) (fallback : string) :
  (forall k, In k (map fst c) -> k <> "") ->
  (c = [] -> SummaryPanel.most_common c fallback = SummaryPanel.Chosen fallback)
  /\ (c <> [] ->
      (forall k, ~ In (k, SummaryPanel.Text) c) ->
      exists key,
        SummaryPanel.most_common c fallback = SummaryPanel.Chosen key
        /\ most_frequent key c)
  /\ (c <> [] -> among_keys (SummaryPanel.most_common c fallback) c).
Proof.
  intros Hkeys. split; [intros ->; reflexivity |].
  assert (Hentries : c <> [] -> exists e rest, SummaryPanel.Object_entries c = e :: rest).
  { intros Hne. destruct (SummaryPanel.Object_entries c) as [| e rest] eqn:Hentries.
    - destruct c as [| kv c']; [congruence |].
      assert (Hin : In kv (SummaryPanel.Object_entries (kv :: c')))
        by (apply Object_entries_In; now left).
      rewrite Hentries in Hin. contradiction.
    - now exists e, rest. }
  assert (Hkey : forall x, In x (SummaryPanel.Object_entries c) -> fst x <> "").
  { intros [k t] Hx. apply Hkeys. apply listed_key. exists t.
    now apply Object_entries_In. }
  split.
  - intros Hne Hcounts. destruct (Hentries Hne) as (e & rest & He).
    unfold SummaryPanel.most_common. rewrite He.
    assert (Hall : forallb (fun x => SummaryPanel.is_count (snd x)) (e :: rest) = true).
    { apply forallb_forall. intros [k [n |]] Hx; [reflexivity |].
      exfalso. apply (Hcounts k). apply Object_entries_In. now rewrite He. }
    rewrite Hall. cbv zeta.
    destruct (largest_count rest e) as [Hin Hmax]. cbv zeta in Hin, Hmax.
    remember (fold_left (fun best x =>
                           if (SummaryPanel.count_of (snd best)
                               <? SummaryPanel.count_of (snd x))%nat
                           then x else best)
                rest e) as best eqn:Hbest.
    clear Hbest. rewrite <- He in Hin, Hmax.
    pose proof (Hkey best Hin) as Hk.
    apply (proj1 (Object_entries_In _ _)) in Hin.
    destruct best as [k [n |]]; [| exfalso; now apply (Hcounts k)].
    cbn [fst snd] in *. rewrite (key_or_key _ _ Hk).
    exists k. split; [reflexivity |]. exists n. split; [exact Hin |].
    intros k' n' Hin'. apply (proj2 (Object_entries_In _ _)) in Hin'.
    apply (Hmax (k', SummaryPanel.Count n') Hin').
  - intros Hne. destruct (Hentries Hne) as (e & rest & He).
    unfold SummaryPanel.most_common. rewrite He.
    assert (Hfirst : In (fst e) (map fst c)).
    { apply Object_entries_keys. rewrite He. now left. }
    assert (Hfirst' : SummaryPanel.key_or fallback (fst e) = fst e).
    { apply key_or_key. apply (Hkey e). rewrite He. now left. }
    destruct (forallb (fun x => SummaryPanel.is_count (snd x)) (e :: rest)).
    + cbv zeta. destruct (largest_count rest e) as [Hin _]. cbv zeta in Hin.
      remember (fold_left (fun best x =>
                             if (SummaryPanel.count_of (snd best)
                                 <? SummaryPanel.count_of (snd x))%nat
                             then x else best)
                  rest e) as best eqn:Hbest.
      clear Hbest. rewrite <- He in Hin.
      rewrite (key_or_key _ _ (Hkey best Hin)). simpl.
      apply Object_entries_keys. now apply in_map.
    + destruct (filter (fun x => SummaryPanel.is_count (snd x)) (e :: rest)) as [| x others].
      * rewrite Hfirst'. exact Hfirst.
      * destruct (forallb (fun y => (SummaryPanel.count_of (snd y)
                                     =? SummaryPanel.count_of (snd x))%nat) others).
        -- rewrite Hfirst'. exact Hfirst.
        -- unfold among_keys. intros k. rewrite <- He. apply Object_entries_keys.
Qed.

Lemma visit_shapes (frames : list Types.FrameAnalysis) :
  forall a : SummaryPanel.Acc,
    SummaryPanel.teamAShapes (fold_left SummaryPanel.visit frames a)
    = tally_up (fun f => SummaryPanel.has_shape (Types.team_a_shape f)) Types.team_a_shape
        frames (SummaryPanel.teamAShapes a)
    /\ SummaryPanel.teamBShapes (fold_left SummaryPanel.visit frames a)
       = tally_up (fun f => SummaryPanel.has_shape (Types.team_b_shape f)) Types.team_b_shape
           frames (SummaryPanel.teamBShapes a).
Proof.
  unfold tally_up.
  induction frames as [| f rest IH]; intros a; simpl; [split; reflexivity |].
  destruct (IH (SummaryPanel.visit a f)) as [-> ->]. split; reflexivity.
Qed.

Lemma nonempty_not_empty (s : string) : SummaryPanel.nonempty s = true -> s <> "".
Proof.
  unfold SummaryPanel.nonempty. intros H ->. discriminate.
Qed.

Lemma tally_up_most_common (p : Types.FrameAnalysis -> bool)
  (key : Types.FrameAnalysis -> string) (frames : list Types.FrameAnalysis)
  (fallback : string) :
  (forall f, p f = true -> key f <> "") ->
  let c := tally_up p key frames [] in
  (c = [] -> SummaryPanel.most_common c fallback = SummaryPanel.Chosen fallback)
  /\ (c <> [] ->
      (forall f, In f frames -> p f = true -> SummaryPanel.inherited (key f) = false) ->
      exists k,
        SummaryPanel.most_common c fallback = SummaryPanel.Chosen k /\ most_frequent k c)
  /\ (c <> [] -> among_keys (SummaryPanel.most_common c fallback) c).
Proof.
  intros Hp c.
  destruct (tally_up_counts p key frames []) as (Hkept & _ & _ & _ & Hkeys);
    [constructor |].
  cbv zeta in Hkept, Hkeys. fold c in Hkept, Hkeys.
  assert (Hne : forall k, In k (map fst c) -> k <> "").
  { intros k Hk. apply Hkeys in Hk as [[] | (_ & f & _ & Hpf & <-)]. now apply Hp. }
  destruct (most_common_spec c fallback Hne) as (H0 & H1 & H2).
  split; [exact H0 |]. split; [| exact H2].
  intros Hc Hplain. apply (H1 Hc).
  intros k Hin.
  destruct (well_kept_In _ _ _ Hkept Hin) as (_ & Htext & _).
  assert (Hinh : SummaryPanel.inherited k = true) by now apply Htext.
  assert (Hk : In k (map fst c)) by (apply listed_key; eexists; exact Hin).
  apply Hkeys in Hk as [[] | (_ & f & Hf & Hpf & Hkf)].
  rewrite <- Hkf in Hinh. rewrite (Hplain f Hf Hpf) in Hinh. discriminate.
Qed.

(** X10. The most common event of the summary is None when the breakdown
    is empty. When the breakdown is not empty and no counted frame has
    the name of an inherited method for its event, it is an event of the
    breakdown with the largest count. In every case with a breakdown that
    is not empty it is one of the keys of the breakdown, or, where a text
    stands beside counts that differ, left to the sort of the engine
    among these keys. Likewise each most common formation, with Unknown
    when no shape of the team is counted. *)
Theorem most_common_entries_are_most_frequent :
  forall frames : list Types.FrameAnalysis,
    let s := SummaryPanel.summary frames in
    let a := fold_left SummaryPanel.visit frames SummaryPanel.acc0 in
    (SummaryPanel.eventBreakdown s = [] ->
     SummaryPanel.mostCommonEvent s = SummaryPanel.Chosen "None")
    /\ (SummaryPanel.eventBreakdown s <> [] ->
        (forall f, In f frames -> SummaryPanel.is_event f = true ->
                   SummaryPanel.inherited (Types.event f) = false) ->
        exists key,
          SummaryPanel.mostCommonEvent s = SummaryPanel.Chosen key
          /\ most_frequent key (SummaryPanel.eventBreakdown s))
    /\ (SummaryPanel.eventBreakdown s <> [] ->
        among_keys (SummaryPanel.mostCommonEvent s) (SummaryPanel.eventBreakdown s))
    /\ (SummaryPanel.teamAShapes a = [] ->
        SummaryPanel.teamA (SummaryPanel.mostCommonFormation s)
        = SummaryPanel.Chosen "Unknown")
    /\ (SummaryPanel.teamAShapes a <> [] ->
        (forall f, In f frames -> SummaryPanel.has_shape (Types.team_a_shape f) = true ->
                   SummaryPanel.inherited (Types.team_a_shape f) = false) ->
        exists shape,
          SummaryPanel.teamA (SummaryPanel.mostCommonFormation s) = SummaryPanel.Chosen shape
          /\ most_frequent shape (SummaryPanel.teamAShapes a))
    /\ (SummaryPanel.teamAShapes a <> [] ->
        among_keys (SummaryPanel.teamA (SummaryPanel.mostCommonFormation s))
          (SummaryPanel.teamAShapes a))
    /\ (SummaryPanel.teamBShapes a = [] ->
        SummaryPanel.teamB (SummaryPanel.mostCommonFormation s)
        = SummaryPanel.Chosen "Unknown")
    /\ (SummaryPanel.teamBShapes a <> [] ->
        (forall f, In f frames -> SummaryPanel.has_shape (Types.team_b_shape f) = true ->
                   SummaryPanel.inherited (Types.team_b_shape f) = false) ->
        exists shape,
          SummaryPanel.teamB (SummaryPanel.mostCommonFormation s) = SummaryPanel.Chosen shape
          /\ most_frequent shape (SummaryPanel.teamBShapes a))
    /\ (SummaryPanel.teamBShapes a <> [] ->
        among_keys (SummaryPanel.teamB (SummaryPanel.mostCommonFormation s))
          (SummaryPanel.teamBShapes a)).
Proof.
  intros frames s a. subst s a. unfold SummaryPanel.summary.
  cbn [SummaryPanel.eventBreakdown SummaryPanel.mostCommonEvent
       SummaryPanel.mostCommonFormation SummaryPanel.teamA SummaryPanel.teamB].
  destruct (visit_shapes frames SummaryPanel.acc0) as [-> ->].
  rewrite visit_events.
  cbn [SummaryPanel.eventBreakdown_acc SummaryPanel.teamAShapes SummaryPanel.teamBShapes
       SummaryPanel.acc0].
  destruct (tally_up_most_common SummaryPanel.is_event Types.event frames "None")
    as (He0 & He1 & He2).
  { intros f Hf. unfold SummaryPanel.is_event in Hf.
    apply andb_prop in Hf as [Hf _]. apply andb_prop in Hf as [Hf _].
    now apply nonempty_not_empty. }
  destruct (tally_up_most_common (fun f => SummaryPanel.has_shape (Types.team_a_shape f))
              Types.team_a_shape frames "Unknown") as (HA0 & HA1 & HA2).
  { intros f Hf. unfold SummaryPanel.has_shape in Hf.
    apply andb_prop in Hf as [Hf _]. now apply nonempty_not_empty. }
  destruct (tally_up_most_common (fun f => SummaryPanel.has_shape (Types.team_b_shape f))
              Types.team_b_shape frames "Unknown") as (HB0 & HB1 & HB2).
  { intros f Hf. unfold SummaryPanel.has_shape in Hf.
    apply andb_prop in Hf as [Hf _]. now apply nonempty_not_empty. }
  cbv zeta in He0, He1, He2, HA0, HA1, HA2, HB0, HB1, HB2.
  repeat split; assumption.
Qed.

Lemma most_common_entries_are_most_frequent_witness :
  (exists key,
      SummaryPanel.mostCommonEvent (SummaryPanel.summary [Examples.kickoff; Footage.shot;
                                                          Examples.kickoff])
      = SummaryPanel.Chosen key
      /\ most_frequent key
           (SummaryPanel.eventBreakdown
              (SummaryPanel.summary [Examples.kickoff; Footage.shot; Examples.kickoff])))
  /\ SummaryPanel.mostCommonEvent
       (SummaryPanel.summary [Examples.kickoff; Footage.shot; Examples.kickoff])
     = SummaryPanel.Chosen "pass"
  /\ SummaryPanel.mostCommonEvent (SummaryPanel.summary [Footage.named "__proto__"])
     = SummaryPanel.Chosen "None"
  /\ SummaryPanel.totalEvents (SummaryPanel.summary [Footage.named "__proto__"]) = 1%nat.
Proof.
  split; [| repeat split].
  apply (proj1 (proj2 (most_common_entries_are_most_frequent
                         [Examples.kickoff; Footage.shot; Examples.kickoff]))).
  - discriminate.
  - intros f [<- | [<- | [<- | []]]] _; reflexivity.
Defined.

(** ** components/SummaryPanel.tsx: the average *)

Lemma visit_players (frames : list Types.FrameAnalysis) :
  forall a : SummaryPanel.Acc,
    SummaryPanel.totalPlayers (fold_left SummaryPanel.visit frames a)
    = fold_left (fun t f => add t (Types.players_detected f)) frames
        (SummaryPanel.totalPlayers a).
Proof.
  induction frames as [| f rest IH]; intros a; simpl; [reflexivity |].
  now rewrite IH.
Qed.

Lemma players_sum_bounds (N : Z) (frames : list Types.FrameAnalysis) :
  (forall f, In f frames ->
             exists q, Types.players_detected f = Fin q /\ 0 <= q <= inject_Z N) ->
  forall s0 : Q,
    exists s,
      fold_left (fun t f => add t (Types.players_detected f)) frames (Fin s0) = Fin s
      /\ s0 <= s
      /\ s <= s0 + inject_Z N * inject_Z (Z.of_nat (List.length frames)).
Proof.
  induction frames as [| f rest IH]; intros Hall s0.
  - exists s0. simpl. split; [reflexivity |]. split; [apply Qle_refl |].
    rewrite Qmult_0_r, Qplus_0_r. apply Qle_refl.
  - destruct (Hall f (or_introl eq_refl)) as (q & Hq & Hlo & Hhi).
    destruct (IH (fun g Hg => Hall g (or_intror Hg)) (Qred (s0 + q)))
      as (s & Hs & Hs1 & Hs2).
    exists s. cbn [fold_left]. rewrite Hq. cbn [add]. split; [exact Hs |].
    rewrite Qred_correct in Hs1, Hs2. split.
    + apply Qle_trans with (s0 + q); [| exact Hs1].
      rewrite <- (Qplus_0_r s0) at 1. apply Qplus_le_compat; [apply Qle_refl | exact Hlo].
    + apply Qle_trans with (s0 + q + inject_Z N * inject_Z (Z.of_nat (List.length rest)));
        [exact Hs2 |].
      change (List.length (f :: rest)) with (S (List.length rest)).
      rewrite Nat2Z.inj_succ. unfold Z.succ. rewrite inject_Z_plus.
      setoid_replace (s0 + inject_Z N
                           * (inject_Z (Z.of_nat (List.length rest)) + inject_Z 1))
        with (s0 + inject_Z N + inject_Z N * inject_Z (Z.of_nat (List.length rest)))
        by ring.
      apply Qplus_le_compat; [| apply Qle_refl].
      apply Qplus_le_compat; [apply Qle_refl | exact Hhi].
Qed.

(** X11. When every frame has a finite players_detected between 0 and an
    integer N, the average of the summary is a number of tenths between 0
    and N. *)
Theorem average_stays_in_range :
  forall (N : Z) (frames : list Types.FrameAnalysis),
    (0 <= N)%Z ->
    (forall f, In f frames ->
               exists q, Types.players_detected f = Fin q /\ 0 <= q <= inject_Z N) ->
    exists z : Z,
      SummaryPanel.avgPlayersDetected (SummaryPanel.summary frames)
      = Fin (Qred (inject_Z z / inject_Z 10))
      /\ (0 <= z <= 10 * N)%Z.
Proof.
  intros N frames HN Hall. unfold SummaryPanel.summary.
  cbn [SummaryPanel.avgPlayersDetected].
  destruct frames as [| f rest] eqn:Hframes.
  - exists 0%Z. split; [reflexivity | lia].
  - rewrite <- Hframes in *.
    assert (Hlen : (0 < List.length frames)%nat) by (subst frames; simpl; lia).
    pose proof Hlen as Hguard. apply Nat.ltb_lt in Hguard. rewrite Hguard.
    rewrite visit_players. cbn [SummaryPanel.totalPlayers SummaryPanel.acc0].
    destruct (players_sum_bounds N frames Hall (inject_Z 0)) as (s & Hs & Hs1 & Hs2).
    change (of_Z 0) with (Fin (inject_Z 0)) at 1. rewrite Hs.
    unfold of_nat, of_Z, div at 2.
    rewrite is_zero_inject_Z by lia.
    set (n := inject_Z (Z.of_nat (List.length frames))) in *.
    assert (Hn : 0 < n) by (subst n; unfold Qlt; simpl; lia).
    assert (Havg : 0 <= s / n /\ s / n <= inject_Z N).
    { split.
      - apply Qle_shift_div_l; [exact Hn |]. now rewrite Qmult_0_l.
      - apply Qle_shift_div_r; [exact Hn |].
        rewrite Qplus_0_l in Hs2. exact Hs2. }
    destruct Havg as [Hlo Hhi].
    cbn [mul Math_round of_integral]. unfold of_Z, div.
    change (is_zero (inject_Z 10)) with false. cbv iota.
    eexists. split; [reflexivity |].
    assert (Hx : Qred (Qred (s / n) * inject_Z 10) == s / n * inject_Z 10).
    { rewrite Qred_correct. now rewrite Qred_correct. }
    split.
    + change 0%Z with (Qfloor 0). apply Qfloor_resp_le. rewrite Hx.
      apply Qle_trans with (0 + (1 # 2)); [discriminate |].
      apply Qplus_le_compat; [| apply Qle_refl].
      apply Qmult_le_0_compat; [exact Hlo | discriminate].
    + assert (Hfloor : (Qfloor (Qred (Qred (s / n) * inject_Z 10) + (1 # 2))
                        < 10 * N + 1)%Z).
      { apply floor_range with (lo := 0%Z).
        - rewrite Hx. apply Qle_trans with (0 + (1 # 2)); [discriminate |].
          apply Qplus_le_compat; [| apply Qle_refl].
          apply Qmult_le_0_compat; [exact Hlo | discriminate].
        - rewrite Hx, inject_Z_plus, inject_Z_mult.
          apply Qle_lt_trans with (inject_Z N * inject_Z 10 + (1 # 2)).
          + apply Qplus_le_compat; [| apply Qle_refl].
            apply Qmult_le_compat_r; [exact Hhi | discriminate].
          + rewrite (Qmult_comm (inject_Z 10)).
            apply Qplus_lt_r. reflexivity. }
      lia.
Qed.

Lemma average_stays_in_range_witness :
  exists z : Z,
    SummaryPanel.avgPlayersDetected
      (SummaryPanel.summary [Examples.kickoff; Examples.kickoff])
    = Fin (Qred (inject_Z z / inject_Z 10))
    /\ (0 <= z <= 10 * 22)%Z.
Proof.
  apply (average_stays_in_range 22 [Examples.kickoff; Examples.kickoff]); [lia |].
  intros f [<- | [<- | []]]; exists (inject_Z 12); repeat split; discriminate.
Defined.

(** ** components/AnalysisTable.tsx *)

Lemma table_insert_perm (A : Type) (compare : A -> A -> Z) (x : A) (l : list A) :
  Permutation (AnalysisTable.insert compare x l) (x :: l).
Proof.
  induction l as [| y rest IH]; simpl; [apply Permutation_refl |].
  destruct (0 <? compare x y)%Z; [| apply Permutation_refl].
  apply Permutation_trans with (y :: x :: rest); [now constructor | apply perm_swap].
Qed.

Lemma table_sort_perm (A : Type) (compare : A -> A -> Z) (l : list A) :
  Permutation (AnalysisTable.sort compare l) l.
Proof.
  induction l as [| x rest IH]; simpl; [constructor |].
  apply Permutation_trans with (x :: AnalysisTable.sort compare rest);
    [apply table_insert_perm | now constructor].
Qed.

Lemma table_insert_sorted (A : Type) (compare : A -> A -> Z) (P : A -> Prop)
  (x : A) (l : list A) :
  (forall a b, (0 < compare a b)%Z -> (compare b a <= 0)%Z) ->
  (forall a b c, P b -> (compare a b <= 0)%Z -> (compare b c <= 0)%Z ->
                 (compare a c <= 0)%Z) ->
  Forall P l ->
  StronglySorted (fun a b => (compare a b <= 0)%Z) l ->
  StronglySorted (fun a b => (compare a b <= 0)%Z) (AnalysisTable.insert compare x l).
Proof.
  intros Hcmp Htrans. induction l as [| y rest IH]; intros HP Hsorted; simpl.
  - repeat constructor.
  - inversion Hsorted as [| y' rest' Hrest Hall]; subst.
    inversion HP as [| y' rest' Hy HPrest]; subst.
    destruct (0 <? compare x y)%Z eqn:E.
    + apply Z.ltb_lt in E. constructor; [now apply IH |].
      apply (Permutation_Forall (Permutation_sym (table_insert_perm A compare x rest))).
      constructor; [now apply Hcmp | exact Hall].
    + apply Z.ltb_ge in E. constructor; [exact Hsorted |].
      constructor; [exact E |].
      apply Forall_impl with (P := fun b => (compare y b <= 0)%Z); [| exact Hall].
      intros b Hyb. now apply Htrans with y.
Qed.

Lemma table_sort_sorted (A : Type) (compare : A -> A -> Z) (P : A -> Prop)
  (l : list A) :
  (forall a b, (0 < compare a b)%Z -> (compare b a <= 0)%Z) ->
  (forall a b c, P b -> (compare a b <= 0)%Z -> (compare b c <= 0)%Z ->
                 (compare a c <= 0)%Z) ->
  Forall P l ->
  StronglySorted (fun a b => (compare a b <= 0)%Z) (AnalysisTable.sort compare l).
Proof.
  intros Hcmp Htrans. induction l as [| x rest IH]; intros HP; simpl; [constructor |].
  inversion HP as [| x' rest' Hx HPrest]; subst.
  apply table_insert_sorted with P; [exact Hcmp | exact Htrans | | now apply IH].
  apply (Permutation_Forall (Permutation_sym (table_sort_perm A compare rest))).
  exact HPrest.
Qed.

Lemma number_lt_asym (x y : number) : lt x y = true -> lt y x = false.
Proof.
  unfold lt, Qltb.
  destruct x as [| a | s], y as [| b | s']; try discriminate; try reflexivity.
  - intros H. apply negb_true_iff in H. apply negb_false_iff.
    apply Qle_bool_iff. apply Qlt_le_weak. apply Qnot_le_lt.
    intros Hle. apply Qle_bool_iff in Hle. congruence.
  - destruct s'; [discriminate | reflexivity].
  - destruct s; [reflexivity | discriminate].
  - destruct s, s'; try discriminate; reflexivity.
Qed.

Lemma string_lt_asym (a b : string) :
  AnalysisTable.string_lt a b = true -> AnalysisTable.string_lt b a = false.
Proof.
  unfold AnalysisTable.string_lt, String.ltb.
  rewrite (String.compare_antisym b a).
  destruct (String.compare a b); simpl; congruence.
Qed.

Lemma string_lt_total (a b : string) :
  AnalysisTable.string_lt b a = false -> a <> b -> AnalysisTable.string_lt a b = true.
Proof.
  unfold AnalysisTable.string_lt, String.ltb. intros Hba Hne.
  rewrite (String.compare_antisym b a) in Hba.
  destruct (String.compare a b) eqn:E; simpl in *; try congruence.
  apply String.compare_eq_iff in E. congruence.
Qed.

Lemma compare_frames_consistent (field : AnalysisTable.SortField)
  (direction : AnalysisTable.SortDirection) (a b : Types.FrameAnalysis) :
  ((0 < AnalysisTable.compare_frames field direction a b)%Z ->
   (AnalysisTable.compare_frames field direction b a <= 0)%Z)
  /\ ((AnalysisTable.compare_frames field direction a b <= 0)%Z ->
      out_of_order field direction a b = false).
Proof.
  unfold AnalysisTable.compare_frames, out_of_order, gt.
  destruct field, direction;
    repeat match goal with
           | |- context [lt ?x ?y] =>
               let E := fresh "E" in
               destruct (lt x y) eqn:E;
               try (apply number_lt_asym in E; rewrite ?E in *)
           | |- context [AnalysisTable.string_lt ?x ?y] =>
               let E := fresh "E" in
               destruct (AnalysisTable.string_lt x y) eqn:E;
               try (apply string_lt_asym in E; rewrite ?E in *)
           end;
    split; intros; try reflexivity; try lia; try congruence.
Qed.

Lemma number_not_lt_trans (x y z : number) :
  isNaN y = false -> lt y x = false -> lt z y = false -> lt z x = false.
Proof.
  unfold lt, Qltb.
  destruct x as [| a | [|]], y as [| b | [|]], z as [| c | [|]]; simpl;
    try reflexivity; try (intros; congruence).
  intros _ Hab Hbc. apply negb_false_iff in Hab, Hbc. apply negb_false_iff.
  apply Qle_bool_iff in Hab, Hbc. apply Qle_bool_iff.
  now apply Qle_trans with b.
Qed.

Lemma string_not_lt_trans (a b c : string) :
  AnalysisTable.string_lt b a = false -> AnalysisTable.string_lt c b = false ->
  AnalysisTable.string_lt c a = false.
Proof.
  intros Hba Hcb. destruct (AnalysisTable.string_lt c a) eqn:Hca; [| reflexivity].
  destruct (string_dec a b) as [-> | Hne]; [congruence |].
  pose proof (string_lt_total a b Hba Hne) as Hab.
  unfold AnalysisTable.string_lt, String.ltb in *.
  assert (Hlt : forall s t, (if String.compare s t is Lt then true else false) = true ->
                            OrderedTypeEx.String_as_OT.lt s t).
  { intros s t H. apply OrderedTypeEx.String_as_OT.cmp_lt.
    unfold OrderedTypeEx.String_as_OT.cmp. destruct (String.compare s t); congruence. }
  pose proof (OrderedTypeEx.String_as_OT.lt_trans _ _ _ (Hlt _ _ Hca) (Hlt _ _ Hab)) as H.
  apply OrderedTypeEx.String_as_OT.cmp_lt in H.
  unfold OrderedTypeEx.String_as_OT.cmp in H. rewrite H in Hcb. discriminate.
Qed.

(** The comparator says [a] may stand before [b] exactly when [b] is not
    out of order after [a]. *)
Lemma compare_frames_in_order (field : AnalysisTable.SortField)
  (direction : AnalysisTable.SortDirection) (a b : Types.FrameAnalysis) :
  (AnalysisTable.compare_frames field direction a b <= 0)%Z
  <-> out_of_order field direction a b = false.
Proof.
  unfold AnalysisTable.compare_frames, out_of_order, gt.
  destruct field, direction;
    repeat match goal with
           | |- context [lt ?x ?y] =>
               let E := fresh "E" in
               destruct (lt x y) eqn:E;
               try (apply number_lt_asym in E; rewrite ?E in * )
           | |- context [AnalysisTable.string_lt ?x ?y] =>
               let E := fresh "E" in
               destruct (AnalysisTable.string_lt x y) eqn:E;
               try (apply string_lt_asym in E; rewrite ?E in * )
           end;
    split; intros; try reflexivity; try lia; try congruence.
Qed.

Lemma out_of_order_trans (field : AnalysisTable.SortField)
  (direction : AnalysisTable.SortDirection) (a b c : Types.FrameAnalysis) :
  isNaN (Types.timestamp b) = false /\ isNaN (Types.players_detected b) = false ->
  out_of_order field direction a b = false ->
  out_of_order field direction b c = false ->
  out_of_order field direction a c = false.
Proof.
  intros [Ht Hp]. unfold out_of_order, gt.
  destruct field, direction; intros Hab Hbc.
  - now apply number_not_lt_trans with (Types.timestamp b).
  - now apply number_not_lt_trans with (Types.timestamp b).
  - now apply string_not_lt_trans with (Types.event b).
  - now apply string_not_lt_trans with (Types.event b).
  - now apply number_not_lt_trans with (Types.players_detected b).
  - now apply number_not_lt_trans with (Types.players_detected b).
Qed.

Lemma strongly_sorted_weaken (A : Type) (R R' : A -> A -> Prop) (l : list A) :
  (forall a b, R a b -> R' a b) -> StronglySorted R l -> StronglySorted R' l.
Proof.
  intros Himp Hsorted.
  induction Hsorted as [| a l Hl IH Hall]; constructor; [exact IH |].
  apply Forall_impl with (P := R a); [apply Himp | exact Hall].
Qed.

Lemma filtered_comparable (frames : list Types.FrameAnalysis) (st : AnalysisTable.State) :
  numbers_comparable frames ->
  Forall (fun f => isNaN (Types.timestamp f) = false
                   /\ isNaN (Types.players_detected f) = false)
    (if negb (AnalysisTable.eventFilter st =? "all")
     then filter (fun f => Types.event f =? AnalysisTable.eventFilter st) frames
     else frames).
Proof.
  intros Hnum. apply Forall_forall. intros f Hin. apply Hnum.
  destruct (negb (AnalysisTable.eventFilter st =? "all")); [| exact Hin].
  apply filter_In in Hin. tauto.
Qed.

(** X12. The rows of the table are the frames the event filter lets
    through, each one once (all of the frames under the filter all), and
    no row is followed, anywhere below it, by one that belongs before it in
    the chosen order. After a click on a column header the rows are
    ordered by that column. (No number of a frame is NaN: with NaN the
    comparator is not an order and the result of the sort is not
    specified.) *)
Theorem table_rows_are_the_filtered_frames_in_order :
  forall (frames : list Types.FrameAnalysis) (st : AnalysisTable.State),
    numbers_comparable frames ->
    Permutation (AnalysisTable.sortedAndFilteredFrames frames st) (filtered frames st)
    /\ (List.length (AnalysisTable.sortedAndFilteredFrames frames st)
        <= List.length frames)%nat
    /\ (AnalysisTable.eventFilter st = "all" ->
        List.length (AnalysisTable.sortedAndFilteredFrames frames st)
        = List.length frames)
    /\ StronglySorted (fun a b => out_of_order (AnalysisTable.sortField st)
                                    (AnalysisTable.sortDirection st) a b = false)
         (AnalysisTable.sortedAndFilteredFrames frames st)
    /\ (forall field,
           let st' := AnalysisTable.handleSort field st in
           AnalysisTable.sortField st' = field
           /\ AnalysisTable.eventFilter st' = AnalysisTable.eventFilter st
           /\ StronglySorted
                (fun a b => out_of_order field (AnalysisTable.sortDirection st') a b
                            = false)
                (AnalysisTable.sortedAndFilteredFrames frames st')).
Proof.
  intros frames st Hnum.
  assert (Hperm : forall st0,
             Permutation (AnalysisTable.sortedAndFilteredFrames frames st0)
               (filtered frames st0)).
  { intros st0. unfold AnalysisTable.sortedAndFilteredFrames, filtered.
    destruct (AnalysisTable.eventFilter st0 =? "all"); apply table_sort_perm. }
  assert (Hsorted : forall st0,
             StronglySorted
               (fun a b => out_of_order (AnalysisTable.sortField st0)
                             (AnalysisTable.sortDirection st0) a b = false)
               (AnalysisTable.sortedAndFilteredFrames frames st0)).
  { intros st0. unfold AnalysisTable.sortedAndFilteredFrames.
    apply strongly_sorted_weaken
      with (R := fun a b =>
                   (AnalysisTable.compare_frames (AnalysisTable.sortField st0)
                      (AnalysisTable.sortDirection st0) a b <= 0)%Z).
    - intros a b. apply compare_frames_in_order.
    - apply table_sort_sorted
        with (P := fun f => isNaN (Types.timestamp f) = false
                            /\ isNaN (Types.players_detected f) = false).
      + intros a b. apply compare_frames_consistent.
      + intros a b c Hb Hab Hbc. apply compare_frames_in_order.
        apply compare_frames_in_order in Hab, Hbc.
        now apply out_of_order_trans with b.
      + now apply filtered_comparable. }
  split; [apply Hperm |]. split; [| split; [| split; [apply Hsorted |]]].
  - rewrite (Permutation_length (Hperm st)). unfold filtered.
    destruct (AnalysisTable.eventFilter st =? "all"); [lia | apply filter_length_le].
  - intros Hall. rewrite (Permutation_length (Hperm st)). unfold filtered.
    now rewrite Hall.
  - intros field st'.
    assert (Hfield : AnalysisTable.sortField st' = field).
    { subst st'. unfold AnalysisTable.handleSort.
      destruct (AnalysisTable.same_field (AnalysisTable.sortField st) field) eqn:E;
        [| reflexivity].
      cbn [AnalysisTable.sortField].
      destruct (AnalysisTable.sortField st), field; try discriminate; reflexivity. }
    split; [exact Hfield |]. split.
    + subst st'. unfold AnalysisTable.handleSort.
      destruct (AnalysisTable.same_field _ _); reflexivity.
    + pose proof (Hsorted st') as H. rewrite Hfield in H. exact H.
Qed.

Lemma footage_comparable : numbers_comparable Footage.frames.
Proof.
  intros f [<- | [<- | [<- | []]]]; split; reflexivity.
Qed.

Lemma table_rows_are_the_filtered_frames_in_order_witness :
  numbers_comparable Footage.frames
  /\ Permutation (AnalysisTable.sortedAndFilteredFrames Footage.frames Footage.by_players)
       (filtered Footage.frames Footage.by_players)
  /\ AnalysisTable.sortedAndFilteredFrames Footage.frames Footage.by_players
     = [Examples.kickoff; Footage.shot; Footage.idle].
Proof.
  split; [exact footage_comparable |]. split; [| reflexivity].
  apply (proj1 (table_rows_are_the_filtered_frames_in_order
                  Footage.frames Footage.by_players footage_comparable)).
Defined.

Lemma Set_from_In (l seen : list string) (x : string) :
  In x (AnalysisTable.Set_from l seen) <-> In x l /\ ~ In x seen.
Proof.
  revert seen. induction l as [| y rest IH]; intros seen; simpl; [tauto |].
  destruct (existsb (String.eqb y) seen) eqn:E.
  - apply existsb_exists in E. destruct E as [z [Hz Hyz]].
    apply String.eqb_eq in Hyz. subst z. rewrite IH. split.
    + tauto.
    + intros [[Hy | Hin] Hseen]; [subst y; contradiction | tauto].
  - assert (Hy : ~ In y seen).
    { intros Hin. assert (existsb (String.eqb y) seen = true); [| congruence].
      apply existsb_exists. exists y. split; [exact Hin | apply String.eqb_refl]. }
    simpl. rewrite IH. simpl. split.
    + intros [Hxy | [Hin Hseen]]; [subst y; tauto | tauto].
    + intros [[Hxy | Hin] Hseen]; [tauto |].
      destruct (string_dec y x); [tauto | right; tauto].
Qed.

Lemma Set_from_NoDup (l seen : list string) : NoDup (AnalysisTable.Set_from l seen).
Proof.
  revert seen. induction l as [| y rest IH]; intros seen; simpl; [constructor |].
  destruct (existsb (String.eqb y) seen); [apply IH |].
  constructor; [| apply IH].
  rewrite Set_from_In. simpl. tauto.
Qed.

Lemma default_compare_le (a b : string) :
  (AnalysisTable.default_compare a b <= 0)%Z <-> AnalysisTable.string_lt b a = false.
Proof.
  unfold AnalysisTable.default_compare.
  destruct (AnalysisTable.string_lt a b) eqn:Hab.
  - apply string_lt_asym in Hab. rewrite Hab. split; [reflexivity | lia].
  - destruct (AnalysisTable.string_lt b a); split; intros; try lia; congruence.
Qed.

Lemma strongly_sorted_strict (A : Type) (R : A -> A -> Prop) (l : list A) :
  StronglySorted R l -> NoDup l -> StronglySorted (fun a b => R a b /\ a <> b) l.
Proof.
  intros Hsorted. induction Hsorted as [| a l Hl IH Hall]; intros Hnd; constructor.
  - apply IH. now inversion Hnd.
  - inversion Hnd as [| a' l' Hnotin Hnd']; subst.
    apply Forall_forall. intros b Hb. split.
    + now apply (proj1 (Forall_forall _ _) Hall).
    + intros ->. contradiction.
Qed.

Lemma eventTypes_In (frames : list Types.FrameAnalysis) (e : string) :
  In e (AnalysisTable.eventTypes frames)
  <-> (exists f, In f frames /\ Types.event f = e) /\ e <> "" /\ e <> "none".
Proof.
  unfold AnalysisTable.eventTypes.
  split.
  - intros Hin.
    apply (Permutation_in _ (table_sort_perm _ _ _)) in Hin.
    apply Set_from_In in Hin. destruct Hin as [Hin _].
    apply filter_In in Hin. destruct Hin as [Hmap Hkeep].
    apply in_map_iff in Hmap. destruct Hmap as [f [Hf Hin]].
    apply andb_true_iff in Hkeep. destruct Hkeep as [H1 H2].
    apply negb_true_iff in H1, H2. apply String.eqb_neq in H1, H2.
    split; [exists f; tauto | tauto].
  - intros [[f [Hin Hf]] [H1 H2]].
    apply (Permutation_in _ (Permutation_sym (table_sort_perm _ _ _))).
    apply Set_from_In. split; [| simpl; tauto].
    apply filter_In. split.
    + apply in_map_iff. exists f. tauto.
    + apply String.eqb_neq in H1, H2. now rewrite H1, H2.
Qed.

(** X13. The options of the event filter are the events of the frames
    other than the empty one and none, each one once, in strictly
    increasing order; choosing one of them (other than the word all, which
    stands for no filter) shows at least one row, and only rows of that
    event. *)
Theorem event_filter_options :
  forall frames : list Types.FrameAnalysis,
    (forall e, In e (AnalysisTable.eventTypes frames)
               <-> (exists f, In f frames /\ Types.event f = e)
                   /\ e <> "" /\ e <> "none")
    /\ NoDup (AnalysisTable.eventTypes frames)
    /\ StronglySorted (fun a b => AnalysisTable.string_lt a b = true)
         (AnalysisTable.eventTypes frames)
    /\ (forall e st,
           In e (AnalysisTable.eventTypes frames) -> e <> "all" ->
           AnalysisTable.eventFilter st = e ->
           AnalysisTable.sortedAndFilteredFrames frames st <> []
           /\ Forall (fun f => Types.event f = e)
                (AnalysisTable.sortedAndFilteredFrames frames st)).
Proof.
  intros frames.
  assert (Hnd : NoDup (AnalysisTable.eventTypes frames)).
  { unfold AnalysisTable.eventTypes.
    apply (Permutation_NoDup (Permutation_sym (table_sort_perm _ _ _))).
    apply Set_from_NoDup. }
  split; [apply eventTypes_In |]. split; [exact Hnd |]. split.
  - apply strongly_sorted_weaken
      with (R := fun a b => (AnalysisTable.default_compare a b <= 0)%Z /\ a <> b).
    + intros a b [Hle Hne]. apply default_compare_le in Hle.
      now apply string_lt_total.
    + apply strongly_sorted_strict; [| exact Hnd].
      unfold AnalysisTable.eventTypes.
      apply table_sort_sorted with (P := fun _ => True).
      * intros a b Hab. apply default_compare_le.
        destruct (AnalysisTable.string_lt a b) eqn:E; [| reflexivity].
        unfold AnalysisTable.default_compare in Hab. rewrite E in Hab. lia.
      * intros a b c _ Hab Hbc. apply default_compare_le.
        apply default_compare_le in Hab, Hbc.
        now apply string_not_lt_trans with b.
      * apply Forall_forall. trivial.
  - intros e st Hin Hall Hfilter.
    apply eventTypes_In in Hin. destruct Hin as [[f [Hf Hev]] _].
    unfold AnalysisTable.sortedAndFilteredFrames.
    rewrite Hfilter. apply String.eqb_neq in Hall. rewrite Hall. simpl.
    split.
    + intros Hnil.
      assert (Hfin : In f (filter (fun f0 => Types.event f0 =? e) frames)).
      { apply filter_In. split; [exact Hf | now apply String.eqb_eq]. }
      apply (Permutation_in _ (Permutation_sym
               (table_sort_perm _ (AnalysisTable.compare_frames
                                     (AnalysisTable.sortField st)
                                     (AnalysisTable.sortDirection st)) _))) in Hfin.
      rewrite Hnil in Hfin. exact Hfin.
    + apply (Permutation_Forall (Permutation_sym (table_sort_perm _ _ _))).
      apply Forall_forall. intros g Hg. apply filter_In in Hg.
      now apply String.eqb_eq.
Qed.

Lemma event_filter_options_witness :
  In "shot" (AnalysisTable.eventTypes Footage.frames)
  /\ AnalysisTable.sortedAndFilteredFrames Footage.frames Footage.only_shots <> []
  /\ AnalysisTable.eventTypes Footage.frames = ["pass"; "shot"].
Proof.
  assert (Hin : In "shot" (AnalysisTable.eventTypes Footage.frames)).
  { vm_compute. tauto. }
  split; [exact Hin |]. split; [| reflexivity].
  apply (proj2 (proj2 (proj2 (event_filter_options Footage.frames)))
           "shot" Footage.only_shots Hin); [discriminate | reflexivity].
Defined.

Lemma escape_quotes_injective (s t : string) :
  AnalysisTable.escape_quotes s = AnalysisTable.escape_quotes t -> s = t.
Proof.
  revert t. induction s as [| c rest IH]; intros [| d rest']; cbn [count_char AnalysisTable.escape_quotes String.length].
  - reflexivity.
  - destruct (d =? AnalysisTable.quote)%char; discriminate.
  - destruct (c =? AnalysisTable.quote)%char; discriminate.
  - destruct (c =? AnalysisTable.quote)%char eqn:Ec,
             (d =? AnalysisTable.quote)%char eqn:Ed; intros H.
    + apply Ascii.eqb_eq in Ec, Ed. subst c d. f_equal. apply IH. congruence.
    + injection H as Hq _. subst d. now rewrite Ascii.eqb_refl in Ed.
    + injection H as Hq _. subst c. now rewrite Ascii.eqb_refl in Ec.
    + injection H as Hcd Hrest. subst d. f_equal. now apply IH.
Qed.

Lemma escape_quotes_count (c : ascii) (s : string) :
  count_char c (AnalysisTable.escape_quotes s)
  = if (c =? AnalysisTable.quote)%char then (2 * count_char c s)%nat
    else count_char c s.
Proof.
  induction s as [| d rest IH]; cbn [count_char AnalysisTable.escape_quotes String.length].
  - now destruct (c =? AnalysisTable.quote)%char.
  - destruct (d =? AnalysisTable.quote)%char eqn:Ed.
    + apply Ascii.eqb_eq in Ed. subst d. cbn [count_char AnalysisTable.escape_quotes String.length]. rewrite IH.
      rewrite (Ascii.eqb_sym AnalysisTable.quote c).
      destruct (c =? AnalysisTable.quote)%char; cbn [count_char AnalysisTable.escape_quotes String.length]; lia.
    + cbn [count_char AnalysisTable.escape_quotes String.length]. rewrite IH.
      destruct (c =? AnalysisTable.quote)%char eqn:Ec; [| reflexivity].
      apply Ascii.eqb_eq in Ec. subst c. rewrite Ed. cbn [count_char AnalysisTable.escape_quotes String.length]. lia.
Qed.

(** X14. In the export every double quote of the tactical notes is
    written twice and nothing else changes: the cell has twice the quotes
    of the notes and as many of every other character, its length is that
    of the notes plus the number of their quotes, notes without a quote
    are exported as they are, and two different notes never give the same
    cell. *)
Theorem export_doubles_the_quotes_of_the_notes :
  forall s : string,
    (forall c, count_char c (AnalysisTable.escape_quotes s)
               = if (c =? AnalysisTable.quote)%char then (2 * count_char c s)%nat
                 else count_char c s)
    /\ String.length (AnalysisTable.escape_quotes s)
       = (String.length s + count_char AnalysisTable.quote s)%nat
    /\ (count_char AnalysisTable.quote s = 0%nat -> AnalysisTable.escape_quotes s = s)
    /\ (forall t, AnalysisTable.escape_quotes s = AnalysisTable.escape_quotes t -> s = t).
Proof.
  intros s. split; [intros c; apply escape_quotes_count |].
  split; [| split; [| apply escape_quotes_injective]].
  - induction s as [| d rest IH]; [reflexivity |]. cbn [count_char AnalysisTable.escape_quotes String.length].
    destruct (d =? AnalysisTable.quote)%char; cbn [count_char AnalysisTable.escape_quotes String.length]; rewrite IH; lia.
  - induction s as [| d rest IH]; [reflexivity |]. cbn [count_char AnalysisTable.escape_quotes String.length].
    destruct (d =? AnalysisTable.quote)%char; [discriminate |].
    cbn [count_char AnalysisTable.escape_quotes String.length]. intros H. now rewrite IH.
Qed.

Lemma export_doubles_the_quotes_of_the_notes_witness :
  count_char AnalysisTable.quote "Keeper saves" = 0%nat
  /\ AnalysisTable.escape_quotes "Keeper saves" = "Keeper saves".
Proof.
  split; [reflexivity |].
  apply (proj1 (proj2 (proj2 (export_doubles_the_quotes_of_the_notes "Keeper saves")))).
  reflexivity.
Defined.

(* ===================================================================== *)
(** ** The progress tracker *)

Section Polling.

Variable Number_toString : number -> string.

#[local] Abbreviation pollProgress := (ProgressTracker.pollProgress Number_toString).
#[local] Abbreviation poll := (ProgressTracker.poll Number_toString).
#[local] Abbreviation describe := (ProgressTracker.describe Number_toString).

Lemma poll_snoc (ticks : list (ProgressTracker.Reply ProgressTracker.Progress
                               * ProgressTracker.Reply value))
  (tick : ProgressTracker.Reply ProgressTracker.Progress * ProgressTracker.Reply value)
  (st : ProgressTracker.State) :
  poll (ticks ++ [tick]) st = pollProgress (fst tick) (snd tick) (poll ticks st).
Proof.
  unfold ProgressTracker.poll. now rewrite fold_left_app.
Qed.

Lemma trailing_failures_snoc
  (ticks : list (ProgressTracker.Reply ProgressTracker.Progress
                 * ProgressTracker.Reply value))
  (tick : ProgressTracker.Reply ProgressTracker.Progress * ProgressTracker.Reply value) :
  trailing_failures (ticks ++ [tick])
  = match fst tick with
    | ProgressTracker.Failed _ => S (trailing_failures ticks)
    | ProgressTracker.Fulfilled _ => 0%nat
    end.
Proof.
  unfold trailing_failures. rewrite rev_app_distr. simpl.
  destruct tick as [[p | r] res]; reflexivity.
Qed.

Lemma array_is_truthy (v : value) : isArray v = true -> truthy v = true.
Proof.
  destruct v; simpl; congruence.
Qed.

(** What one run does to the counters, the error and the hand-overs. *)
Lemma pollProgress_step
  (tick : ProgressTracker.Reply ProgressTracker.Progress * ProgressTracker.Reply value)
  (st : ProgressTracker.State) :
  let st' := pollProgress (fst tick) (snd tick) st in
  ProgressTracker.pollCount st' = S (ProgressTracker.pollCount st)
  /\ ProgressTracker.consecutiveErrors st'
     = match fst tick with
       | ProgressTracker.Failed _ => S (ProgressTracker.consecutiveErrors st)
       | ProgressTracker.Fulfilled _ => 0%nat
       end
  /\ (ProgressTracker.error st <> None -> ProgressTracker.error st' <> None)
  /\ ProgressTracker.completed st' = ProgressTracker.completed st ++ handed_over tick.
Proof.
  destruct tick as [progressData results].
  unfold ProgressTracker.pollProgress, handed_over, ProgressTracker.setError,
    ProgressTracker.onComplete, get.
  cbn [fst snd].
  repeat match goal with
         | |- context [if ?b then _ else _] => destruct b eqn:?
         | |- context [match ?x with _ => _ end] => destruct x eqn:?
         end;
    cbn [ProgressTracker.pollCount ProgressTracker.consecutiveErrors
         ProgressTracker.error ProgressTracker.completed andb isArray] in *;
    rewrite ?app_nil_r; repeat split; try congruence;
    try discriminate.
  all: repeat match goal with
              | H : Return _ = Return _ |- _ => injection H as H; subst
              end;
    try discriminate.
  all: match goal with
       | H : isArray ?v = false, H' : truthy ?v && isArray ?v = true |- _ =>
           rewrite H, andb_false_r in H'; discriminate
       | H : isArray ?v = true, H' : truthy ?v && isArray ?v = false |- _ =>
           rewrite H, (array_is_truthy v H) in H'; discriminate
       end.
Qed.

Lemma poll_invariants
  (ticks : list (ProgressTracker.Reply ProgressTracker.Progress
                 * ProgressTracker.Reply value))
  (st : ProgressTracker.State) :
  ProgressTracker.pollCount (poll ticks st)
  = (ProgressTracker.pollCount st + List.length ticks)%nat
  /\ (ProgressTracker.consecutiveErrors st = 0%nat ->
      ProgressTracker.consecutiveErrors (poll ticks st) = trailing_failures ticks)
  /\ (ProgressTracker.error st <> None -> ProgressTracker.error (poll ticks st) <> None)
  /\ ProgressTracker.completed (poll ticks st)
     = ProgressTracker.completed st ++ flat_map handed_over ticks.
Proof.
  induction ticks as [| tick ticks IH] using rev_ind.
  - simpl. rewrite app_nil_r. repeat split; try lia; tauto.
  - destruct IH as [Hcount [Hfail [Herr Hdone]]].
    rewrite poll_snoc.
    destruct (pollProgress_step tick (poll ticks st)) as [Hc [Hf [He Hd]]].
    rewrite Hc, Hf, Hd, Hcount, Hdone, trailing_failures_snoc, length_app,
      flat_map_app.
    simpl. rewrite app_nil_r, app_assoc.
    split; [lia |]. split; [| split; [| reflexivity]].
    + intros H0. destruct (fst tick); [reflexivity |]. now rewrite Hfail.
    + intros Hset. apply He, Herr, Hset.
Qed.

Lemma handed_over_arrays
  (tick : ProgressTracker.Reply ProgressTracker.Progress * ProgressTracker.Reply value) :
  Forall (fun v => isArray v = true) (handed_over tick).
Proof.
  destruct tick as [[p | r] [[| | b | n | s | items | props] | r']]; simpl;
    try constructor.
  destruct ((ProgressTracker.status p =? "completed")
            && isArray (lookup "frames" props)) eqn:E; constructor; [| constructor].
  now apply andb_true_iff in E.
Qed.

Lemma still_running_hands_nothing
  (ticks : list (ProgressTracker.Reply ProgressTracker.Progress
                 * ProgressTracker.Reply value)) :
  Forall (fun tick => still_running tick = true) ticks ->
  flat_map handed_over ticks = [].
Proof.
  induction 1 as [| tick ticks Htick _ IH]; [reflexivity |].
  simpl. rewrite IH, app_nil_r.
  destruct tick as [[p | r] [[| | b | n | s | items | props] | r']]; try reflexivity.
  unfold still_running in Htick. simpl in Htick. simpl.
  apply andb_true_iff in Htick. destruct Htick as [Hc _].
  apply negb_true_iff in Hc. now rewrite Hc.
Qed.

Lemma pollProgress_error_running (p : ProgressTracker.Progress)
  (res : ProgressTracker.Reply value) (st : ProgressTracker.State) :
  still_running (ProgressTracker.Fulfilled p, res) = true ->
  ProgressTracker.error (pollProgress (ProgressTracker.Fulfilled p) res st)
  = if (ProgressTracker.maxPollAttempts <=? S (ProgressTracker.pollCount st))%nat
    then Some "Analysis is taking longer than expected. Please try again."
    else ProgressTracker.error st.
Proof.
  unfold still_running. cbn [fst]. intros H.
  apply andb_true_iff in H. destruct H as [Hc He].
  apply negb_true_iff in Hc, He.
  unfold ProgressTracker.pollProgress. cbv zeta. rewrite Hc, He.
  destruct (ProgressTracker.maxPollAttempts <=? S (ProgressTracker.pollCount st))%nat;
    reflexivity.
Qed.

Lemma pollProgress_error_failed (r : ProgressTracker.Reason)
  (res : ProgressTracker.Reply value) (st : ProgressTracker.State) :
  ProgressTracker.error (pollProgress (ProgressTracker.Failed r) res st)
  = if (ProgressTracker.maxConsecutiveErrors
        <=? S (ProgressTracker.consecutiveErrors st))%nat
    then Some ("Failed to fetch progress after 5 attempts: " ++ describe r)%string
    else ProgressTracker.error st.
Proof.
  unfold ProgressTracker.pollProgress. cbv zeta.
  cbn [ProgressTracker.consecutiveErrors].
  destruct (ProgressTracker.maxConsecutiveErrors
            <=? S (ProgressTracker.consecutiveErrors st))%nat; reflexivity.
Qed.

Lemma firstn_snoc_prefix (A : Type) (l : list A) (x : A) (n : nat) :
  firstn (Nat.min n (List.length l)) (l ++ [x]) = firstn n l.
Proof.
  rewrite firstn_app.
  replace (Nat.min n (List.length l) - List.length l)%nat with 0%nat by lia.
  simpl. rewrite app_nil_r.
  destruct (Nat.le_gt_cases n (List.length l)) as [Hle | Hgt].
  - now rewrite Nat.min_l.
  - rewrite Nat.min_r by lia. rewrite firstn_all. symmetry. apply firstn_all2. lia.
Qed.

Lemma poll_stays_quiet
  (ticks : list (ProgressTracker.Reply ProgressTracker.Progress
                 * ProgressTracker.Reply value)) :
  Forall (fun tick => still_running tick = true) ticks ->
  (List.length ticks < ProgressTracker.maxPollAttempts)%nat ->
  (forall n, (trailing_failures (firstn n ticks)
              < ProgressTracker.maxConsecutiveErrors)%nat) ->
  ProgressTracker.error (poll ticks ProgressTracker.initial) = None.
Proof.
  induction ticks as [| tick ticks IH] using rev_ind; [reflexivity |].
  intros Hrun Hlen Hfail.
  apply Forall_app in Hrun. destruct Hrun as [Hrun Htick].
  inversion Htick as [| t l Ht _]; subst.
  rewrite length_app in Hlen. simpl in Hlen.
  assert (Hquiet : ProgressTracker.error (poll ticks ProgressTracker.initial) = None).
  { apply IH; [exact Hrun | lia |].
    intros n. rewrite <- (firstn_snoc_prefix _ ticks tick n). apply Hfail. }
  destruct (poll_invariants ticks ProgressTracker.initial) as [Hcount [Herrs _]].
  specialize (Herrs eq_refl). simpl in Hcount.
  rewrite poll_snoc. destruct tick as [[p | r] res]; cbn [fst snd].
  - rewrite (pollProgress_error_running p res _ Ht), Hcount, Hquiet.
    destruct (ProgressTracker.maxPollAttempts <=? S (List.length ticks))%nat eqn:E;
      [| reflexivity].
    apply Nat.leb_le in E. lia.
  - rewrite pollProgress_error_failed, Herrs, Hquiet.
    destruct (ProgressTracker.maxConsecutiveErrors <=? S (trailing_failures ticks))%nat
      eqn:E; [| reflexivity].
    apply Nat.leb_le in E.
    specialize (Hfail (List.length (ticks ++ [(ProgressTracker.Failed r, res)]))).
    rewrite firstn_all, trailing_failures_snoc in Hfail. simpl in Hfail. lia.
Qed.

(** X15. Over the runs of pollProgress of one effect: pollCount is the
    number of runs; consecutiveErrors is the number of runs, counted back
    from the last, in which getProgress failed (a success sets it back to
    0); an error message, once set, is never taken away; and onComplete
    has been called exactly for the runs that found the status completed
    and results whose frames are an array, with those frames, which are
    arrays. *)
Theorem poll_keeps_count_of_runs_and_failures :
  forall (ticks : list (ProgressTracker.Reply ProgressTracker.Progress
                        * ProgressTracker.Reply value))
         (st : ProgressTracker.State),
    ProgressTracker.pollCount (poll ticks st)
    = (ProgressTracker.pollCount st + List.length ticks)%nat
    /\ (ProgressTracker.consecutiveErrors st = 0%nat ->
        ProgressTracker.consecutiveErrors (poll ticks st) = trailing_failures ticks)
    /\ (ProgressTracker.error st <> None ->
        ProgressTracker.error (poll ticks st) <> None)
    /\ ProgressTracker.completed (poll ticks st)
       = ProgressTracker.completed st ++ flat_map handed_over ticks
    /\ Forall (fun v => isArray v = true) (flat_map handed_over ticks).
Proof.
  intros ticks st.
  destruct (poll_invariants ticks st) as [Hcount [Hfail [Herr Hdone]]].
  repeat split; try assumption.
  apply Forall_flat_map. apply Forall_forall. intros tick _.
  apply handed_over_arrays.
Qed.


(** X17. A run that finds the status completed never passes unnoticed:
    either onComplete is called, once, with an array, and the error is
    left as it was, or onComplete is not called and an error is shown;
    the error is that the results are invalid when the results are not
    null and carry no array of frames. *)
Theorem completion_is_delivered_or_reported :
  forall (p : ProgressTracker.Progress) (res : ProgressTracker.Reply value)
         (st : ProgressTracker.State),
    ProgressTracker.status p = "completed" ->
    let st' := pollProgress (ProgressTracker.Fulfilled p) res st in
    ((exists frames,
         isArray frames = true
         /\ ProgressTracker.completed st' = ProgressTracker.completed st ++ [frames]
         /\ ProgressTracker.error st' = ProgressTracker.error st)
     \/ (ProgressTracker.completed st' = ProgressTracker.completed st
         /\ exists text, ProgressTracker.error st' = Some text))
    /\ (forall results,
           res = ProgressTracker.Fulfilled results ->
           results <> Null -> results <> Undefined ->
           isArray (field results "frames") = false ->
           ProgressTracker.completed st' = ProgressTracker.completed st
           /\ ProgressTracker.error st' = Some "Invalid results received from server").
Proof.
  intros p res st Hp st'. subst st'.
  unfold ProgressTracker.pollProgress. rewrite Hp. cbn [String.eqb Ascii.eqb].
  change ("completed" =? "completed") with true. cbv iota.
  split.
  - destruct res as [results | r]; [| right; simpl; eauto].
    destruct (get results "frames") as [frames | e] eqn:Eg; [| right; simpl; eauto].
    destruct (truthy frames && isArray frames) eqn:Ea; [| right; simpl; eauto].
    left. exists frames. apply andb_true_iff in Ea. simpl. tauto.
  - intros results -> Hnull Hundef Harr.
    destruct results as [| | b | n | s | items | props]; try congruence;
      try (split; reflexivity).
    simpl in *. rewrite Harr, andb_false_r. split; reflexivity.
Qed.

End Polling.

Lemma poll_keeps_count_of_runs_and_failures_witness :
  ProgressTracker.consecutiveErrors ProgressTracker.initial = 0%nat
  /\ ProgressTracker.consecutiveErrors
       (ProgressTracker.poll Examples.render
          [(ProgressTracker.Fulfilled (report 1 4), ProgressTracker.Fulfilled Null);
           (ProgressTracker.Failed (ProgressTracker.NotAnError Null),
            ProgressTracker.Fulfilled Null)]
          ProgressTracker.initial)
     = 1%nat.
Proof.
  split; [reflexivity |].
  apply (proj1 (proj2 (poll_keeps_count_of_runs_and_failures Examples.render
                         [(ProgressTracker.Fulfilled (report 1 4),
                           ProgressTracker.Fulfilled Null);
                          (ProgressTracker.Failed (ProgressTracker.NotAnError Null),
                           ProgressTracker.Fulfilled Null)]
                         ProgressTracker.initial))).
  reflexivity.
Defined.


Lemma completion_is_delivered_or_reported_witness :
  ProgressTracker.status
    {| ProgressTracker.processed := of_Z 4; ProgressTracker.total := of_Z 4;
       ProgressTracker.status := "completed"; ProgressTracker.message := "" |}
  = "completed"
  /\ ProgressTracker.error
       (ProgressTracker.pollProgress Examples.render
          (ProgressTracker.Fulfilled
             {| ProgressTracker.processed := of_Z 4; ProgressTracker.total := of_Z 4;
                ProgressTracker.status := "completed"; ProgressTracker.message := "" |})
          (ProgressTracker.Fulfilled (Object [("frames", Str "none")]))
          ProgressTracker.initial)
     = Some "Invalid results received from server".
Proof.
  split; [reflexivity |].
  apply (proj2 (completion_is_delivered_or_reported Examples.render
                  {| ProgressTracker.processed := of_Z 4;
                     ProgressTracker.total := of_Z 4;
                     ProgressTracker.status := "completed";
                     ProgressTracker.message := "" |}
                  (ProgressTracker.Fulfilled (Object [("frames", Str "none")]))
                  ProgressTracker.initial eq_refl)
           (Object [("frames", Str "none")]) eq_refl);
    [discriminate | discriminate | reflexivity].
Defined.

Lemma of_nat_positive (n : nat) : gt (of_nat n) (of_Z 0) = negb (n =? 0)%nat.
Proof.
  unfold gt, lt, of_nat, of_Z, Qltb. f_equal.
  destruct n as [| n]; [reflexivity |].
  destruct (Qle_bool (inject_Z (Z.of_nat (S n))) (inject_Z 0)) eqn:E; [| reflexivity].
  apply Qle_bool_iff in E. unfold Qle in E. simpl in E. lia.
Qed.

Lemma whole_is_100_percent (n : nat) :
  (0 < n)%nat -> Math_round (mul (div (of_nat n) (of_nat n)) (of_Z 100)) = Fin 100%Z.
Proof.
  intros Hn. unfold of_nat, of_Z, div. rewrite is_zero_inject_Z by lia.
  assert (H1 : Qred (inject_Z (Z.of_nat n) / inject_Z (Z.of_nat n)) = 1).
  { change 1 with (Qred 1). apply Qred_complete.
    unfold Qdiv. apply Qmult_inv_r. unfold Qeq. simpl. lia. }
  rewrite H1. reflexivity.
Qed.

(** X18. The bar of the progress tracker: for a report of processed
    frames out of a total, with no more frames processed than there are,
    the percentage is a whole number from 0 to 100; it is 0 when the total
    is 0, where nothing is divided, and 100 when all the frames are
    processed. A remaining time is shown only when the total and the
    number of processed frames are both above 0. *)
Theorem progress_bar_stays_between_0_and_100 :
  forall processed total : nat,
    (processed <= total)%nat ->
    (exists z, ProgressTracker.progressPercent (report processed total) = Fin z
               /\ (0 <= z <= 100)%Z
               /\ (total = 0%nat -> z = 0%Z)
               /\ (processed = total -> (0 < total)%nat -> z = 100%Z))
    /\ (ProgressTracker.estimatedTimeRemaining (report processed total) <> None
        <-> (0 < processed)%nat).
Proof.
  intros processed total Hle. split.
  - unfold ProgressTracker.progressPercent, report.
    cbn [ProgressTracker.total ProgressTracker.processed].
    rewrite of_nat_positive.
    destruct total as [| n].
    + exists 0%Z. simpl. repeat split; lia.
    + cbn [Nat.eqb negb].
      destruct (percent_rounds_within processed (S n)) as [z [Hz Hrange]];
        [exact Hle | lia |].
      exists z. split; [exact Hz |]. split; [exact Hrange |].
      split; [discriminate |].
      intros -> _. rewrite whole_is_100_percent in Hz by lia. congruence.
  - unfold ProgressTracker.estimatedTimeRemaining, report.
    cbn [ProgressTracker.total ProgressTracker.processed].
    rewrite !of_nat_positive.
    destruct processed as [| c], total as [| n]; simpl; split;
      try congruence; try lia; intros _; discriminate.
Qed.

Lemma progress_bar_stays_between_0_and_100_witness :
  (3 <= 4)%nat
  /\ exists z, ProgressTracker.progressPercent (report 3 4) = Fin z
               /\ (0 <= z <= 100)%Z
               /\ (4%nat = 0%nat -> z = 0%Z)
               /\ (3%nat = 4%nat -> (0 < 4)%nat -> z = 100%Z).
Proof.
  split; [lia |].
  apply (proj1 (progress_bar_stays_between_0_and_100 3 4 ltac:(lia))).
Defined.

(* ===================================================================== *)
(** ** Removing a video, and analysing *)

Lemma splice_one_length (A : Type) (index : nat) (l : list A) :
  (index < List.length l)%nat ->
  List.length (JsArray.splice_one index l) = (List.length l - 1)%nat.
Proof.
  intros Hlt. unfold JsArray.splice_one.
  rewrite length_app, length_firstn, length_skipn. lia.
Qed.

Lemma splice_one_nth (A : Type) (index : nat) (l : list A) (i : nat) :
  (index < List.length l)%nat ->
  nth_error (JsArray.splice_one index l) i
  = nth_error l (if (i <? index)%nat then i else S i).
Proof.
  intros Hlt. unfold JsArray.splice_one.
  destruct (i <? index)%nat eqn:E.
  - apply Nat.ltb_lt in E.
    rewrite nth_error_app1 by (rewrite length_firstn; lia).
    rewrite nth_error_firstn. apply Nat.ltb_lt in E. now rewrite E.
  - apply Nat.ltb_ge in E.
    rewrite nth_error_app2 by (rewrite length_firstn; lia).
    rewrite length_firstn, nth_error_skipn. f_equal. lia.
Qed.

Lemma splice_one_last (A : Type) (l : list A) (x : A) :
  JsArray.splice_one (List.length l) (l ++ [x]) = l.
Proof.
  unfold JsArray.splice_one.
  induction l as [| y l IH]; [reflexivity |].
  cbn [List.length firstn skipn app] in *. now rewrite IH.
Qed.

(** X19. Removing the video at an index of the list gives the list
    without that one video, the others in their order, and revokes the
    preview URL of the removed video and of no other; the removal of a
    video just appended gives back the list as it was. With no video at
    the index the updater throws. *)
Theorem removing_a_video_keeps_the_others :
  forall (prev : list VideoUploader.VideoFile) (index : nat),
    ((index < List.length prev)%nat ->
     exists video rest,
       nth_error prev index = Some video
       /\ VideoUploaderActions.removeVideo index prev
          = Return (rest, VideoUploader.preview video)
       /\ List.length rest = (List.length prev - 1)%nat
       /\ (forall i, nth_error rest i
                     = nth_error prev (if (i <? index)%nat then i else S i)))
    /\ ((List.length prev <= index)%nat ->
        exists e, VideoUploaderActions.removeVideo index prev = Throw e)
    /\ (forall video,
           VideoUploaderActions.removeVideo (List.length prev) (prev ++ [video])
           = Return (prev, VideoUploader.preview video)).
Proof.
  intros prev index. unfold VideoUploaderActions.removeVideo. split; [| split].
  - intros Hlt. destruct (nth_error prev index) as [video |] eqn:E.
    + exists video, (JsArray.splice_one index prev).
      split; [reflexivity |]. split; [reflexivity |].
      split; [now apply splice_one_length |].
      intros i. now apply splice_one_nth.
    + apply nth_error_None in E. lia.
  - intros Hge. apply nth_error_None in Hge. rewrite Hge. eauto.
  - intros video. rewrite nth_error_app2 by lia. rewrite Nat.sub_diag. simpl.
    now rewrite splice_one_last.
Qed.

Lemma removing_a_video_keeps_the_others_witness :
  (0 < List.length [ {| VideoUploader.file := Examples.clip;
                        VideoUploader.preview := "blob:clip";
                        VideoUploader.duration := of_Z 8 |} ])%nat
  /\ exists video rest,
      nth_error [ {| VideoUploader.file := Examples.clip;
                     VideoUploader.preview := "blob:clip";
                     VideoUploader.duration := of_Z 8 |} ] 0 = Some video
      /\ VideoUploaderActions.removeVideo 0
           [ {| VideoUploader.file := Examples.clip;
                VideoUploader.preview := "blob:clip";
                VideoUploader.duration := of_Z 8 |} ]
         = Return (rest, VideoUploader.preview video)
      /\ List.length rest = (1 - 1)%nat
      /\ (forall i, nth_error rest i
                    = nth_error [ {| VideoUploader.file := Examples.clip;
                                     VideoUploader.preview := "blob:clip";
                                     VideoUploader.duration := of_Z 8 |} ]
                        (if (i <? 0)%nat then i else S i)).
Proof.
  split; [simpl; lia |].
  apply (proj1 (removing_a_video_keeps_the_others
                  [ {| VideoUploader.file := Examples.clip;
                       VideoUploader.preview := "blob:clip";
                       VideoUploader.duration := of_Z 8 |} ] 0)).
  simpl. lia.
Defined.

Section Analyze.

Variable API_URL : string.
Variable server : Request -> Settled.
Variable Number_toString : number -> string.

#[local] Abbreviation handleAnalyze :=
  (VideoUploaderActions.handleAnalyze API_URL server Number_toString
     App.State App.handleAnalysisComplete).

Lemma handleAnalyze_cases (videos : list VideoUploader.VideoFile)
  (frameInterval maxDuration : number) (st : VideoUploaderActions.State)
  (app : App.State) :
  videos <> [] ->
  let files := map (fun v => Some (VideoUploader.file v)) videos in
  let config := {| Api.frame_interval := frameInterval;
                   Api.max_duration := maxDuration |} in
  (exists result items,
      run (Api.uploadVideos API_URL server (Some files) config)
      = (Return result, [analyze_request API_URL files config])
      /\ get result "frames" = Return (Array items)
      /\ handleAnalyze videos frameInterval maxDuration st app
         = ({| VideoUploaderActions.isUploading := false;
               VideoUploaderActions.error := None |},
            {| App.frames := Array items; App.error := None |},
            [analyze_request API_URL files config]))
  \/ (exists err log,
         run (Api.uploadVideos API_URL server (Some files) config) = (Throw err, log)
         /\ handleAnalyze videos frameInterval maxDuration st app
            = ({| VideoUploaderActions.isUploading := false;
                  VideoUploaderActions.error
                  := Some (JsError.message_of Number_toString err) |},
               app, log)).
Proof.
  intros Hne files config.
  unfold VideoUploaderActions.handleAnalyze.
  destruct videos as [| v rest]; [congruence |].
  fold files. fold config.
  unfold run, bind, lift, ret.
  destruct (Api.uploadVideos API_URL server (Some files) config [])
    as [[result | err] log] eqn:Hrun.
  - left.
    apply uploadVideos_returns_inv in Hrun
      as (l & r & items & Hl & _ & _ & _ & _ & Hget & Hlog).
    injection Hl as <-. subst log.
    exists result, items. split; [reflexivity |]. split; [exact Hget |].
    rewrite Hget. reflexivity.
  - right. exists err, log. split; reflexivity.
Qed.

Lemma uploadVideos_log_short (files : option (list (option File)))
  (config : Api.AnalysisConfig) :
  (List.length (snd (run (Api.uploadVideos API_URL server files config))) <= 1)%nat.
Proof.
  destruct files as [l |].
  - destruct (accepted_files l && config_passes config) eqn:Hok.
    + apply andb_true_iff in Hok. destruct Hok as [Hacc Hconfig].
      rewrite (uploadVideos_sent API_URL server l config Hacc Hconfig). simpl. lia.
    + destruct (uploadVideos_refuses API_URL server (Some l) config) as [m [Hrun _]].
      * intros l' Hl'. injection Hl' as <-. exact Hok.
      * rewrite Hrun. simpl. lia.
  - destruct (uploadVideos_refuses API_URL server None config) as [m [Hrun _]];
      [discriminate |].
    rewrite Hrun. simpl. lia.
Qed.

Lemma uploadVideos_too_many (l : list (option File)) (config : Api.AnalysisConfig) :
  (6 < List.length l)%nat ->
  run (Api.uploadVideos API_URL server (Some l) config)
  = (Throw (Error (Str "Maximum 6 videos allowed")), []).
Proof.
  intros Hlen. unfold run, Api.uploadVideos, try_catch, bind, Api.check_files.
  destruct l as [| f rest]; [simpl in Hlen; lia |].
  apply Nat.ltb_lt in Hlen. rewrite Hlen. reflexivity.
Qed.

(** X20. handleAnalyze of the uploader, under the App that takes the
    frames: with no video it asks for one, sends nothing and leaves
    isUploading alone; otherwise isUploading is false at the end and at
    most one request was sent. When it ends without an error the App has
    been handed an array, which it stores with its own error cleared, so
    that the branch of the App for frames that are no array is never taken
    from here; when it ends with an error the App is as it was. More than
    6 videos, which a selection made on a stale count can leave in the
    list, are refused before anything is sent. *)
Theorem analysis_reaches_the_app_as_an_array :
  forall (videos : list VideoUploader.VideoFile) (frameInterval maxDuration : number)
         (st st' : VideoUploaderActions.State) (app app' : App.State)
         (log : list Request),
    handleAnalyze videos frameInterval maxDuration st app = (st', app', log) ->
    (List.length log <= 1)%nat
    /\ (videos = [] ->
        st' = {| VideoUploaderActions.isUploading := VideoUploaderActions.isUploading st;
                 VideoUploaderActions.error := Some "Please upload at least one video" |}
        /\ app' = app /\ log = [])
    /\ (videos <> [] -> VideoUploaderActions.isUploading st' = false)
    /\ (VideoUploaderActions.error st' = None ->
        exists items,
          app' = {| App.frames := Array items; App.error := None |}
          /\ log = [analyze_request API_URL
                      (map (fun v => Some (VideoUploader.file v)) videos)
                      {| Api.frame_interval := frameInterval;
                         Api.max_duration := maxDuration |}])
    /\ (VideoUploaderActions.error st' <> None -> app' = app)
    /\ ((6 < List.length videos)%nat ->
        VideoUploaderActions.error st' = Some "Maximum 6 videos allowed" /\ log = []).
Proof.
  intros videos frameInterval maxDuration st st' app app' log Hrun.
  destruct videos as [| v rest].
  - injection Hrun as <- <- <-. simpl.
    repeat split; try congruence; try lia.
  - destruct (handleAnalyze_cases (v :: rest) frameInterval maxDuration st app)
      as [(result & items & Hup & Hget & Hstep) | (err & log0 & Hup & Hstep)];
      [discriminate | |].
    + rewrite Hstep in Hrun. injection Hrun as <- <- <-. simpl.
      split; [lia |]. split; [discriminate |]. split; [reflexivity |].
      split; [eauto |]. split; [congruence |].
      intros Hmany.
      rewrite uploadVideos_too_many in Hup by (rewrite length_map; simpl; lia).
      discriminate.
    + rewrite Hstep in Hrun. injection Hrun as <- <- <-. simpl.
      split.
      { pose proof (uploadVideos_log_short
                      (Some (map (fun v0 => Some (VideoUploader.file v0)) (v :: rest)))
                      {| Api.frame_interval := frameInterval;
                         Api.max_duration := maxDuration |}) as Hshort.
        rewrite Hup in Hshort. exact Hshort. }
      split; [discriminate |]. split; [reflexivity |].
      split; [discriminate |]. split; [reflexivity |].
      intros Hmany.
      rewrite uploadVideos_too_many in Hup by (rewrite length_map; simpl; lia).
      injection Hup as <- <-. split; reflexivity.
Qed.

End Analyze.

Lemma analysis_reaches_the_app_as_an_array_witness :
  VideoUploaderActions.handleAnalyze Examples.base_url
    (fun _ => Resolved (Examples.respond Examples.success_body))
    Examples.render App.State App.handleAnalysisComplete
    [ {| VideoUploader.file := Examples.clip;
         VideoUploader.preview := "blob:clip";
         VideoUploader.duration := of_Z 8 |} ]
    (of_Z 1) (of_Z 10)
    {| VideoUploaderActions.isUploading := false; VideoUploaderActions.error := None |}
    App.initial
  = ({| VideoUploaderActions.isUploading := false; VideoUploaderActions.error := None |},
     {| App.frames := Array [Examples.kickoff_json];
        App.error := None |},
     [analyze_request Examples.base_url [Some Examples.clip]
        {| Api.frame_interval := of_Z 1; Api.max_duration := of_Z 10 |}])
  /\ (List.length
        [analyze_request Examples.base_url [Some Examples.clip]
           {| Api.frame_interval := of_Z 1; Api.max_duration := of_Z 10 |}] <= 1)%nat.
Proof.
  assert (H : VideoUploaderActions.handleAnalyze Examples.base_url
                (fun _ => Resolved (Examples.respond
                                      Examples.success_body))
                Examples.render App.State App.handleAnalysisComplete
                [ {| VideoUploader.file := Examples.clip;
                     VideoUploader.preview := "blob:clip";
                     VideoUploader.duration := of_Z 8 |} ]
                (of_Z 1) (of_Z 10)
                {| VideoUploaderActions.isUploading := false;
                   VideoUploaderActions.error := None |}
                App.initial
              = ({| VideoUploaderActions.isUploading := false;
                    VideoUploaderActions.error := None |},
                 {| App.frames := Array [Examples.kickoff_json];
                    App.error := None |},
                 [analyze_request Examples.base_url [Some Examples.clip]
                    {| Api.frame_interval := of_Z 1; Api.max_duration := of_Z 10 |}])).
  { vm_compute. reflexivity. }
  split; [exact H |].
  apply (proj1 (analysis_reaches_the_app_as_an_array _ _ _ _ _ _ _ _ _ _ _ H)).
Defined.

(* ===================================================================== *)
(** ** The timestamp overlay component *)

Lemma overlay_valid_iff (media : File -> MediaOutcome) (f : File) :
  valid (TimestampOverlay.validateVideo media (Some f)) = true <->
  startsWith (type f) "video/" = true
  /\ size f <> 0%Z /\ (size f <= MAX_BYTES)%Z.
Proof.
  unfold TimestampOverlay.validateVideo, MAX_BYTES.
  destruct (startsWith (type f) "video/") eqn:Htype; cbn [negb].
  2:{ split; [discriminate | intros (H & _); discriminate]. }
  change (100 * 1024 * 1024)%Z with 104857600%Z.
  destruct (size f >? 104857600)%Z eqn:Hbig.
  { rewrite Z.gtb_ltb in Hbig. apply Z.ltb_lt in Hbig.
    split; [discriminate | intros (_ & _ & H); lia]. }
  rewrite Z.gtb_ltb in Hbig. apply Z.ltb_ge in Hbig.
  destruct (size f =? 0)%Z eqn:Hzero.
  { apply Z.eqb_eq in Hzero. split; [discriminate | intros (_ & H & _); contradiction]. }
  apply Z.eqb_neq in Hzero.
  split; [intros _; repeat split; assumption | intros _].
  destruct (media f) as [d | [[| [| [| [| [| n]]]]] |] | |]; try reflexivity.
  destruct (isNaN d || le d (of_Z 0)); reflexivity.
Qed.

Lemma overlay_valid_duration (media : File -> MediaOutcome) (f : File) :
  valid (TimestampOverlay.validateVideo media (Some f)) = true ->
  gt (Media.duration (TimestampOverlay.validateVideo media (Some f))) (of_Z 0) = true
  /\ (Media.durationEstimated (TimestampOverlay.validateVideo media (Some f)) = Some false ->
      media f = LoadedMetadata
                  (Media.duration (TimestampOverlay.validateVideo media (Some f))))
  /\ (forall code,
         media f = MediaFailed code -> code <> Some 4%nat ->
         Media.durationEstimated (TimestampOverlay.validateVideo media (Some f)) = None
         /\ Media.duration (TimestampOverlay.validateVideo media (Some f))
            = estimatedDuration (size f)).
Proof.
  unfold TimestampOverlay.validateVideo.
  destruct (negb (startsWith (type f) "video/")); [discriminate |].
  destruct (size f >? _)%Z; [discriminate |].
  destruct (size f =? 0)%Z; [discriminate |].
  intros _.
  pose proof (proj1 (estimatedDuration_positive (size f))) as Hest.
  destruct (media f) as [d | code | |].
  - destruct (isNaN d) eqn:Hnan; cbn [orb];
      [split; [exact Hest | split; discriminate] |].
    destruct (le d (of_Z 0)) eqn:Hle; [split; [exact Hest | split; discriminate] |].
    split; [| split; [reflexivity | discriminate]].
    cbn [Media.duration]. unfold gt, lt, le, of_Z in *.
    destruct d as [| q | s]; try discriminate.
    + unfold Qltb. now rewrite Hle.
    + destruct s; [discriminate | reflexivity].
  - destruct code as [[| [| [| [| [| n]]]]] |];
      (split; [exact Hest | split; [discriminate |]]);
      intros code' Hcode Hnot; injection Hcode as <-;
      try (split; reflexivity); congruence.
  - split; [exact Hest | split; discriminate].
  - split; [exact Hest | split; discriminate].
Qed.

Lemma overlay_invalid_reason (media : File -> MediaOutcome) (f : File) :
  valid (TimestampOverlay.validateVideo media (Some f)) = false ->
  exists m, error (TimestampOverlay.validateVideo media (Some f)) = Some m /\ m <> "".
Proof.
  unfold TimestampOverlay.validateVideo.
  destruct (negb (startsWith (type f) "video/"));
    [intros _; eexists; split; [reflexivity | discriminate] |].
  destruct (size f >? _)%Z;
    [intros _; eexists; split; [reflexivity | discriminate] |].
  destruct (size f =? 0)%Z;
    [intros _; eexists; split; [reflexivity | discriminate] |].
  destruct (media f) as [d | [[| [| [| [| [| n]]]]] |] | |]; try discriminate.
  destruct (isNaN d || le d (of_Z 0)); discriminate.
Qed.

(** X21. The overlay component accepts a file exactly when its type
    starts with video/ and its size is not zero and at most 100MB, whatever
    the browser makes of the file, and what it rejects comes with a reason
    that is not empty. The duration of an accepted file is greater than 0,
    and it is marked as not estimated only when it is the one the browser
    read; but after a media error other than an unsupported source the
    duration is the estimate and carries no mark, which the list then
    shows as not estimated. *)
Theorem overlay_accepts_by_type_and_size :
  forall (media : File -> MediaOutcome) (f : File),
    let v := TimestampOverlay.validateVideo media (Some f) in
    (valid v = true <->
     startsWith (type f) "video/" = true
     /\ size f <> 0%Z /\ (size f <= MAX_BYTES)%Z)
    /\ (valid v = true ->
        gt (Media.duration v) (of_Z 0) = true
        /\ (Media.durationEstimated v = Some false ->
            media f = LoadedMetadata (Media.duration v))
        /\ (forall code,
               media f = MediaFailed code -> code <> Some 4%nat ->
               Media.durationEstimated v = None
               /\ Media.duration v = estimatedDuration (size f)))
    /\ (valid v = false -> exists m, error v = Some m /\ m <> "").
Proof.
  intros media f v. subst v.
  split; [apply overlay_valid_iff |].
  split; [apply overlay_valid_duration | apply overlay_invalid_reason].
Qed.

Lemma overlay_accepts_by_type_and_size_witness :
  valid (TimestampOverlay.validateVideo (fun _ => MediaFailed (Some 3%nat))
           (Some Examples.clip)) = true
  /\ Media.durationEstimated
       (TimestampOverlay.validateVideo (fun _ => MediaFailed (Some 3%nat))
          (Some Examples.clip)) = None
  /\ Media.duration
       (TimestampOverlay.validateVideo (fun _ => MediaFailed (Some 3%nat))
          (Some Examples.clip)) = estimatedDuration (size Examples.clip).
Proof.
  assert (H : valid (TimestampOverlay.validateVideo (fun _ => MediaFailed (Some 3%nat))
                       (Some Examples.clip)) = true) by reflexivity.
  split; [exact H |].
  apply (proj2 (proj2 (proj1 (proj2 (overlay_accepts_by_type_and_size
                                       (fun _ => MediaFailed (Some 3%nat))
                                       Examples.clip)) H))
           (Some 3%nat) eq_refl).
  discriminate.
Defined.

Lemma plain_no_dot (a b : string) :
  TimestampOverlay.plain (a ++ String "." b) = false.
Proof.
  induction a as [| c a IH]; simpl.
  - reflexivity.
  - rewrite IH. now rewrite andb_false_r.
Qed.

Lemma strip_extension_cuts (base ext : string) :
  ext <> "" -> TimestampOverlay.plain ext = true ->
  TimestampOverlay.strip_extension (base ++ String "." ext) = base.
Proof.
  intros Hne Hplain. apply String.eqb_neq in Hne.
  induction base as [| c base IH].
  - cbn [append TimestampOverlay.strip_extension].
    rewrite Ascii.eqb_refl, Hne, Hplain. reflexivity.
  - cbn [append TimestampOverlay.strip_extension].
    rewrite plain_no_dot, andb_false_r, IH. reflexivity.
Qed.

Lemma strip_extension_no_dot (name : string) :
  count_char "." name = 0%nat -> TimestampOverlay.strip_extension name = name.
Proof.
  induction name as [| c name IH]; [reflexivity |].
  cbn [count_char TimestampOverlay.strip_extension].
  destruct (c =? ".")%char eqn:E; [discriminate |].
  cbn [andb]. intros H. now rewrite IH.
Qed.

Lemma strip_extension_prefix (name : string) :
  exists tail,
    name = (TimestampOverlay.strip_extension name ++ tail)%string
    /\ (tail = ""
        \/ exists ext, tail = String "." ext /\ ext <> ""
                       /\ TimestampOverlay.plain ext = true).
Proof.
  induction name as [| c name IH].
  - exists "". split; [reflexivity | now left].
  - cbn [TimestampOverlay.strip_extension].
    destruct ((c =? ".")%char && negb (name =? "") && TimestampOverlay.plain name) eqn:E.
    + apply andb_true_iff in E. destruct E as [E Hplain].
      apply andb_true_iff in E. destruct E as [Hc Hne].
      apply Ascii.eqb_eq in Hc. subst c.
      apply negb_true_iff in Hne. apply String.eqb_neq in Hne.
      exists (String "." name). split; [reflexivity |]. right. eauto.
    + destruct IH as [tail [Hname Htail]].
      exists tail. split; [| exact Htail]. cbn [append]. now rewrite <- Hname.
Qed.

(** X22. The name of the processed video: the name of the first video
    with its extension cut off, followed by _timestamped.mp4. What is cut
    is the last dot and what follows it, when that is not empty and holds
    no slash; a name without a dot is kept whole, and in every case what
    is kept is the beginning of the name. *)
Theorem processed_name_replaces_the_extension :
  forall name : string,
    (forall base ext,
        name = (base ++ String "." ext)%string -> ext <> "" ->
        TimestampOverlay.plain ext = true ->
        TimestampOverlay.outputName name = (base ++ "_timestamped.mp4")%string)
    /\ (count_char "." name = 0%nat ->
        TimestampOverlay.outputName name = (name ++ "_timestamped.mp4")%string)
    /\ (exists tail,
           name = (TimestampOverlay.strip_extension name ++ tail)%string
           /\ (tail = ""
               \/ exists ext, tail = String "." ext /\ ext <> ""
                              /\ TimestampOverlay.plain ext = true))
    /\ TimestampOverlay.outputName name <> "".
Proof.
  intros name. unfold TimestampOverlay.outputName. split; [| split; [| split]].
  - intros base ext -> Hne Hplain. now rewrite strip_extension_cuts.
  - intros Hdot. now rewrite strip_extension_no_dot.
  - apply strip_extension_prefix.
  - destruct (TimestampOverlay.strip_extension name); discriminate.
Qed.

Lemma processed_name_replaces_the_extension_witness :
  "match.final.mp4" = ("match.final" ++ String "." "mp4")%string
  /\ TimestampOverlay.outputName "match.final.mp4" = "match.final_timestamped.mp4".
Proof.
  split; [reflexivity |].
  apply (proj1 (processed_name_replaces_the_extension "match.final.mp4")
           "match.final" "mp4"); [reflexivity | discriminate | reflexivity].
Defined.

(* ===================================================================== *)
(** ** The progress timers *)

Lemma Qred_inject_Z (z : Z) : Qred (inject_Z z) = inject_Z z.
Proof.
  apply Qcanon.Qred_identity. simpl. apply Z.gcd_1_r.
Qed.

Lemma of_Z_add (a b : Z) : add (of_Z a) (of_Z b) = of_Z (a + b).
Proof.
  unfold add, of_Z. f_equal. rewrite <- inject_Z_plus. apply Qred_inject_Z.
Qed.

Lemma of_Z_ge (a b : Z) : ge (of_Z a) (of_Z b) = (b <=? a)%Z.
Proof.
  unfold ge, le, of_Z.
  destruct (b <=? a)%Z eqn:E.
  - apply Qle_bool_iff. rewrite <- Zle_Qle. now apply Z.leb_le.
  - destruct (Qle_bool (inject_Z b) (inject_Z a)) eqn:E'; [| reflexivity].
    apply Qle_bool_iff in E'. rewrite <- Zle_Qle in E'. apply Z.leb_gt in E. lia.
Qed.

Lemma overlay_tick_of_Z (a : Z) :
  TimestampOverlay.tick (of_Z a) = of_Z (if (90 <=? a)%Z then a else a + 5).
Proof.
  unfold TimestampOverlay.tick. rewrite of_Z_ge.
  destruct (90 <=? a)%Z; [reflexivity | apply of_Z_add].
Qed.

Lemma overlay_timer_closed_form (n : nat) :
  Nat.iter n TimestampOverlay.tick (of_Z 0) = of_Z (Z.min (5 * Z.of_nat n) 90).
Proof.
  induction n as [| n IH]; [reflexivity |].
  rewrite Nat.iter_succ, IH, overlay_tick_of_Z. f_equal.
  destruct (90 <=? Z.min (5 * Z.of_nat n) 90)%Z eqn:E.
  - apply Z.leb_le in E. lia.
  - apply Z.leb_gt in E. lia.
Qed.

Lemma analysis_tick_bounds (r : number) (p : Q) :
  AnalysisProgress.is_random r = true -> 0 <= p -> p < 100 ->
  exists p', AnalysisProgress.tick r (Fin p) = Fin p' /\ p <= p' /\ p' < 100.
Proof.
  intros Hr Hlo Hhi. unfold AnalysisProgress.tick.
  destruct r as [| q | s]; try discriminate. simpl in Hr.
  apply andb_true_iff in Hr. destruct Hr as [Hq0 Hq1].
  apply Qle_bool_iff in Hq0.
  unfold Qltb in Hq1. apply negb_true_iff in Hq1.
  assert (Hq : q < 1).
  { apply Qnot_le_lt. intros H. apply Qle_bool_iff in H. congruence. }
  unfold ge, le, of_Z.
  destruct (Qle_bool (inject_Z 90) p) eqn:E.
  - exists p. split; [reflexivity |]. split; [apply Qle_refl | exact Hhi].
  - assert (Hp : p < inject_Z 90).
    { apply Qnot_le_lt. intros H. apply Qle_bool_iff in H. congruence. }
    unfold add, mul. eexists. split; [reflexivity |].
    rewrite !Qred_correct.
    split.
    + rewrite <- (Qplus_0_r p) at 1. apply Qplus_le_r.
      apply Qmult_le_0_compat; [exact Hq0 | discriminate].
    + apply Qlt_trans with (inject_Z 90 + q * inject_Z 10).
      * apply Qplus_lt_l. exact Hp.
      * change 100 with (inject_Z 90 + 1 * inject_Z 10).
        apply Qplus_lt_r. apply Qmult_lt_r; [reflexivity | exact Hq].
Qed.

Lemma analysis_progress_bounds (draws : list number) :
  forall r : number,
    Forall (fun d => AnalysisProgress.is_random d = true) draws ->
    AnalysisProgress.is_random r = true ->
    exists p p',
      AnalysisProgress.after draws (of_Z 0) = Fin p
      /\ AnalysisProgress.after (draws ++ [r]) (of_Z 0) = Fin p'
      /\ 0 <= p /\ p <= p' /\ p' < 100.
Proof.
  induction draws as [| d draws IH] using rev_ind; intros r Hdraws Hr.
  - destruct (analysis_tick_bounds r 0 Hr) as [p' [Hp' [Hle Hlt]]];
      [apply Qle_refl | reflexivity |].
    exists 0, p'. repeat split; try assumption. apply Qle_refl.
  - apply Forall_app in Hdraws. destruct Hdraws as [Hdraws Hd].
    inversion Hd as [| d' l' Hd' _]; subst.
    destruct (IH d Hdraws Hd') as [p0 [p [H0 [Hp [Hp0 [Hle Hlt]]]]]].
    assert (Hpos : 0 <= p) by (now apply Qle_trans with p0).
    destruct (analysis_tick_bounds r p Hr Hpos Hlt) as [p' [Hp' [Hle' Hlt']]].
    exists p, p'. split; [exact Hp |]. split.
    + unfold AnalysisProgress.after in *. rewrite fold_left_app. simpl.
      rewrite Hp. exact Hp'.
    + repeat split; assumption.
Qed.

Lemma displayed_bounds (p : Q) :
  0 <= p -> p < 100 ->
  exists z, AnalysisProgress.displayed (Fin p) = Fin z /\ (0 <= z <= 100)%Z.
Proof.
  intros Hlo Hhi. unfold AnalysisProgress.displayed, Math_round.
  eexists. split; [reflexivity |]. split.
  - change 0%Z with (Qfloor 0). apply Qfloor_resp_le.
    apply Qle_trans with (p + 0); [rewrite Qplus_0_r; exact Hlo |].
    apply Qplus_le_r. discriminate.
  - change 100%Z with (Qfloor (100 + (1 # 2))). apply Qfloor_resp_le.
    apply Qplus_le_l. now apply Qlt_le_weak.
Qed.

(** X23. The simulated progress. In the overlay component the timer adds
    5 up to 90: after n ticks from 0 the progress is 5n, or 90 once that is
    reached, and the page writes it as it is. In the uploader with
    analysis modes a tick adds ten times a random number below 1 as long
    as the progress is below 90: whatever the random numbers, the
    progress kept never decreases and stays below 100. The page writes
    that progress rounded to the nearest integer: what it writes is
    between 0 and 100, and it can write 100 before the response has
    arrived, as after ten draws of 0.999, which leave 99.9. *)
Theorem simulated_progress_waits_below_100 :
  (forall n : nat,
      Nat.iter n TimestampOverlay.tick (of_Z 0) = of_Z (Z.min (5 * Z.of_nat n) 90))
  /\ (forall (draws : list number) (r : number),
         Forall (fun d => AnalysisProgress.is_random d = true) draws ->
         AnalysisProgress.is_random r = true ->
         exists p p',
           AnalysisProgress.after draws (of_Z 0) = Fin p
           /\ AnalysisProgress.after (draws ++ [r]) (of_Z 0) = Fin p'
           /\ 0 <= p /\ p <= p' /\ p' < 100)
  /\ (forall draws : list number,
         Forall (fun d => AnalysisProgress.is_random d = true) draws ->
         exists z,
           AnalysisProgress.displayed (AnalysisProgress.after draws (of_Z 0)) = Fin z
           /\ (0 <= z <= 100)%Z)
  /\ Forall (fun d => AnalysisProgress.is_random d = true) AnalysisProgress.high_draws
  /\ AnalysisProgress.after AnalysisProgress.high_draws (of_Z 0) = Fin (999 # 10)
  /\ AnalysisProgress.displayed (AnalysisProgress.after AnalysisProgress.high_draws (of_Z 0))
     = Fin 100%Z.
Proof.
  split; [apply overlay_timer_closed_form |].
  split; [intros draws r; apply analysis_progress_bounds |].
  split.
  - intros draws Hdraws.
    destruct draws as [| d draws] using rev_ind.
    + exists 0%Z. split; [reflexivity | lia].
    + clear IHdraws. apply Forall_app in Hdraws. destruct Hdraws as [Hdraws Hd].
      inversion Hd as [| d' l' Hd' _]; subst.
      destruct (analysis_progress_bounds draws d Hdraws Hd')
        as (p & p' & _ & Hp' & Hp0 & Hle & Hlt).
      rewrite Hp'. apply displayed_bounds; [| exact Hlt].
      now apply Qle_trans with p.
  - split; [repeat constructor |]. split; reflexivity.
Qed.

Lemma simulated_progress_waits_below_100_witness :
  Forall (fun d => AnalysisProgress.is_random d = true) [Fin (1 # 2)]
  /\ AnalysisProgress.is_random (Fin (9 # 10)) = true
  /\ exists p p',
      AnalysisProgress.after [Fin (1 # 2)] (of_Z 0) = Fin p
      /\ AnalysisProgress.after ([Fin (1 # 2)] ++ [Fin (9 # 10)]) (of_Z 0) = Fin p'
      /\ 0 <= p /\ p <= p' /\ p' < 100.
Proof.
  assert (H : Forall (fun d => AnalysisProgress.is_random d = true) [Fin (1 # 2)]).
  { constructor; [reflexivity | constructor]. }
  split; [exact H |]. split; [reflexivity |].
  apply (proj1 (proj2 simulated_progress_waits_below_100) [Fin (1 # 2)] (Fin (9 # 10)) H).
  reflexivity.
Defined.

(* ===================================================================== *)
(** ** Processing in the overlay component *)

Section Process.

Variable API_URL : string.
Variable Number_toString : number -> string.

#[local] Abbreviation handleProcess :=
  (TimestampOverlay.handleProcess API_URL Number_toString).

Lemma handleProcess_cases (server : Request -> Settled) (st : TimestampOverlay.State)
  (first : TimestampOverlay.VideoFile) (rest : list TimestampOverlay.VideoFile) :
  TimestampOverlay.videos st = first :: rest ->
  let files := map (fun v => Some (TimestampOverlay.file v)) (TimestampOverlay.videos st) in
  let given := TimestampOverlay.or_undefined (TimestampOverlay.maxDuration st) in
  (exists b,
      blob_size b <> 0%Z
      /\ duration_passes given = true
      /\ handleProcess server st
         = ({| TimestampOverlay.videos := TimestampOverlay.videos st;
               TimestampOverlay.isProcessing := false;
               TimestampOverlay.error := None;
               TimestampOverlay.maxDuration := TimestampOverlay.maxDuration st;
               TimestampOverlay.processedVideoBlob := Some b;
               TimestampOverlay.processedVideoName
               := Some (TimestampOverlay.outputName (name (TimestampOverlay.file first)));
               TimestampOverlay.progress := of_Z 100;
               TimestampOverlay.intervals := TimestampOverlay.intervals st |},
            [overlay_request API_URL files given]))
  \/ (exists err log,
         (log = [] \/ (log = [overlay_request API_URL files given]
                       /\ duration_passes given = true))
         /\ handleProcess server st
            = ({| TimestampOverlay.videos := TimestampOverlay.videos st;
                  TimestampOverlay.isProcessing := false;
                  TimestampOverlay.error
                  := Some (JsError.message_of Number_toString err);
                  TimestampOverlay.maxDuration := TimestampOverlay.maxDuration st;
                  TimestampOverlay.processedVideoBlob := None;
                  TimestampOverlay.processedVideoName := None;
                  TimestampOverlay.progress := of_Z 0;
                  TimestampOverlay.intervals := S (TimestampOverlay.intervals st) |},
               log)).
Proof.
  intros Hvideos files given. subst files.
  unfold TimestampOverlay.handleProcess. fold given. rewrite Hvideos.
  set (files := map (fun v => Some (TimestampOverlay.file v)) (first :: rest)).
  destruct (addTimestampOverlay_cases API_URL server (Some files) given)
    as [(e & He) | (l & Hl & Hacc & Hduration & _)].
  - right. rewrite He. exists e, []. split; [now left | reflexivity].
  - injection Hl as <-.
    rewrite (addTimestampOverlay_sent API_URL server files given Hacc Hduration).
    destruct (server (overlay_request API_URL files given)) as [e | r].
    + right. do 2 eexists. split; [right; split; [reflexivity | exact Hduration] |].
      reflexivity.
    + unfold overlay_outcome.
      destruct (negb (ok r));
        [right; do 2 eexists; split;
         [right; split; [reflexivity | exact Hduration] | reflexivity] |].
      destruct (blob r) as [b |];
        [| right; do 2 eexists; split;
           [right; split; [reflexivity | exact Hduration] | reflexivity]].
      destruct (blob_size b =? 0)%Z eqn:Hsize;
        [right; do 2 eexists; split;
         [right; split; [reflexivity | exact Hduration] | reflexivity] |].
      left. exists b. apply Z.eqb_neq in Hsize. repeat split; assumption.
Qed.

Lemma has_max_duration (l : list (option File)) (given : Api.optional_number) :
  has_field "max_duration" (overlay_request API_URL l given)
  = match given with Api.Given _ => true | _ => false end.
Proof.
  unfold has_field, overlay_request. cbn [body].
  rewrite existsb_app, video_entries_no_field by reflexivity.
  destruct given; reflexivity.
Qed.

Lemma or_undefined_given (maxDuration : option number) :
  match TimestampOverlay.or_undefined maxDuration with
  | Api.Given n => maxDuration = Some n /\ truthy (Number n) = true
  | Api.Omitted => forall n, maxDuration = Some n -> truthy (Number n) = false
  | Api.IsNull => False
  end.
Proof.
  unfold TimestampOverlay.or_undefined.
  destruct maxDuration as [n |]; [| discriminate].
  destruct (truthy (Number n)) eqn:E; [now split |].
  intros n' Hn. injection Hn as <-. exact E.
Qed.

(** X24. handleProcess of the overlay component, with at least one
    video: it ends with isProcessing false and the videos as they were,
    and has sent at most one request. Without an error the blob of the
    response, which is not empty, is stored under the name of the first
    video with _timestamped.mp4 for its extension, the progress is 100 and
    no timer is left; with an error no blob and no name are stored, the
    progress is 0, and the progress timer of this run is left running.
    The request carries max_duration exactly when the setting is a number
    other than 0 and NaN, and then this number is greater than 0 and at
    most 60: a setting of 0 is sent as no limit at all. *)
Theorem overlay_processing_outcome :
  forall (server : Request -> Settled) (st st' : TimestampOverlay.State)
         (log : list Request),
    TimestampOverlay.videos st <> [] ->
    handleProcess server st = (st', log) ->
    TimestampOverlay.isProcessing st' = false
    /\ TimestampOverlay.videos st' = TimestampOverlay.videos st
    /\ (List.length log <= 1)%nat
    /\ (TimestampOverlay.error st' = None ->
        exists b first rest,
          TimestampOverlay.videos st = first :: rest
          /\ TimestampOverlay.processedVideoBlob st' = Some b
          /\ blob_size b <> 0%Z
          /\ TimestampOverlay.processedVideoName st'
             = Some (TimestampOverlay.outputName (name (TimestampOverlay.file first)))
          /\ TimestampOverlay.progress st' = of_Z 100
          /\ TimestampOverlay.intervals st' = TimestampOverlay.intervals st
          /\ List.length log = 1%nat)
    /\ (TimestampOverlay.error st' <> None ->
        TimestampOverlay.processedVideoBlob st' = None
        /\ TimestampOverlay.processedVideoName st' = None
        /\ TimestampOverlay.progress st' = of_Z 0
        /\ TimestampOverlay.intervals st' = S (TimestampOverlay.intervals st))
    /\ (forall req,
           In req log ->
           (has_field "max_duration" req = true
            <-> exists n, TimestampOverlay.maxDuration st = Some n
                          /\ truthy (Number n) = true)
           /\ (forall n,
                  TimestampOverlay.maxDuration st = Some n ->
                  truthy (Number n) = true ->
                  le n (of_Z 0) = false /\ gt n (of_Z 60) = false)).
Proof.
  intros server st st' log Hne Hrun.
  destruct (TimestampOverlay.videos st) as [| first rest] eqn:Hvideos; [congruence |].
  assert (Hfield : forall req,
             In req [overlay_request API_URL
                       (map (fun v => Some (TimestampOverlay.file v))
                          (TimestampOverlay.videos st))
                       (TimestampOverlay.or_undefined (TimestampOverlay.maxDuration st))] ->
             duration_passes
               (TimestampOverlay.or_undefined (TimestampOverlay.maxDuration st)) = true ->
             (has_field "max_duration" req = true
              <-> exists n, TimestampOverlay.maxDuration st = Some n
                            /\ truthy (Number n) = true)
             /\ (forall n,
                    TimestampOverlay.maxDuration st = Some n ->
                    truthy (Number n) = true ->
                    le n (of_Z 0) = false /\ gt n (of_Z 60) = false)).
  { intros req [<- | []] Hpasses. rewrite has_max_duration.
    pose proof (or_undefined_given (TimestampOverlay.maxDuration st)) as Hgiven.
    destruct (TimestampOverlay.or_undefined (TimestampOverlay.maxDuration st))
      as [| | n]; [| contradiction |].
    - split.
      + split; [discriminate |]. intros (n & Hn & Htruthy).
        rewrite (Hgiven n Hn) in Htruthy. discriminate.
      + intros n Hn Htruthy. rewrite (Hgiven n Hn) in Htruthy. discriminate.
    - destruct Hgiven as [Hn Htruthy]. split.
      + split; [intros _; eauto | reflexivity].
      + intros n' Hn' _. rewrite Hn in Hn'. injection Hn' as <-.
        simpl in Hpasses. apply andb_true_iff in Hpasses.
        destruct Hpasses as [H0 H60]. apply negb_true_iff in H0, H60. tauto. }
  destruct (handleProcess_cases server st first rest Hvideos)
    as [(b & Hsize & Hpasses & Hstep) | (err & log0 & Hlog & Hstep)];
    rewrite Hstep in Hrun; injection Hrun as <- <-;
    cbn [TimestampOverlay.isProcessing TimestampOverlay.videos TimestampOverlay.error
         TimestampOverlay.processedVideoBlob TimestampOverlay.processedVideoName
         TimestampOverlay.progress TimestampOverlay.intervals].
  - split; [reflexivity |]. split; [exact Hvideos |]. split; [simpl; lia |].
    split; [| split; [congruence |]].
    + intros _. exists b, first, rest. repeat split; assumption.
    + intros req Hin. now apply Hfield.
  - split; [reflexivity |]. split; [exact Hvideos |].
    split; [destruct Hlog as [-> | [-> _]]; simpl; lia |].
    split; [discriminate |]. split; [intros _; repeat split |].
    intros req Hin. destruct Hlog as [-> | [-> Hpasses]]; [contradiction |].
    now apply Hfield.
Qed.

Lemma overlay_tick_on_the_scale (p : number) :
  on_the_scale p -> on_the_scale (TimestampOverlay.tick p).
Proof.
  intros (k & Hk & ->). rewrite overlay_tick_of_Z.
  destruct (90 <=? 5 * k)%Z eqn:E.
  - exists k. split; [exact Hk | reflexivity].
  - apply Z.leb_gt in E. exists (k + 1)%Z. split; [lia | f_equal; lia].
Qed.

Lemma overlay_step_settled (a : TimestampOverlay.Action)
  (st st' : TimestampOverlay.State) :
  settled st ->
  TimestampOverlay.step API_URL Number_toString a st = Some st' ->
  settled st'.
Proof.
  intros (Hres & Hscale & Hidle) Hstep.
  destruct a as [media createObjectURL n files | index | value | server |];
    cbn [TimestampOverlay.step] in Hstep.
  - injection Hstep as <-. unfold TimestampOverlay.handleFileSelect.
    destruct files as [[| f fileArray] |]; try (repeat split; assumption).
    destruct (6 <? n + List.length (f :: fileArray))%nat;
      [repeat split; assumption |].
    destruct (TimestampOverlay.validate_all media createObjectURL (f :: fileArray) [] [])
      as [newVideos errors].
    repeat split; assumption.
  - unfold TimestampOverlay.removeVideo in Hstep.
    destruct (nth_error (TimestampOverlay.videos st) index); [| discriminate].
    injection Hstep as <-. repeat split; assumption.
  - injection Hstep as <-. repeat split; assumption.
  - injection Hstep as <-.
    destruct (TimestampOverlay.videos st) as [| first rest] eqn:Hvideos.
    + unfold TimestampOverlay.handleProcess. rewrite Hvideos.
      repeat split; assumption.
    + destruct (handleProcess_cases server st first rest Hvideos)
        as [(b & Hsize & _ & Hrun) | (err & log & _ & Hrun)]; rewrite Hrun; cbn [fst].
      * split; [| split; [| reflexivity]].
        -- unfold result_consistent.
           cbn [TimestampOverlay.processedVideoBlob TimestampOverlay.processedVideoName].
           split; [exact Hsize | eauto].
        -- exists 20%Z. split; [lia | reflexivity].
      * split; [exact I | split; [| reflexivity]].
        exists 0%Z. split; [lia | reflexivity].
  - injection Hstep as <-. split; [exact Hres | split; [| exact Hidle]].
    cbn [TimestampOverlay.progress].
    destruct (0 <? TimestampOverlay.intervals st)%nat; [| exact Hscale].
    now apply overlay_tick_on_the_scale.
Qed.

Lemma overlay_steps_settled (actions : list TimestampOverlay.Action)
  (st st' : TimestampOverlay.State) :
  settled st ->
  TimestampOverlay.steps API_URL Number_toString actions st = Some st' ->
  settled st'.
Proof.
  revert st. induction actions as [| a actions IH]; intros st Hst Hsteps.
  - simpl in Hsteps. now injection Hsteps as <-.
  - cbn [TimestampOverlay.steps] in Hsteps.
    destruct (TimestampOverlay.step API_URL Number_toString a st) as [st1 |] eqn:Hstep;
      [| discriminate].
    apply (IH st1); [| exact Hsteps].
    now apply (overlay_step_settled a st).
Qed.

(** X25. Whatever the user does in the overlay component (select files,
    remove videos, change the setting, process) and whenever the timer
    fires, as long as no action throws: the processed video and its name
    are stored together or not at all, so that the download is offered
    exactly when there is a processed video; that video is not empty and
    its name is an output name, which is never empty; the progress is
    one of 0, 5, ..., 100; and no handler leaves isProcessing set. *)
Theorem overlay_download_matches_the_result :
  forall (actions : list TimestampOverlay.Action) (st : TimestampOverlay.State),
    TimestampOverlay.steps API_URL Number_toString actions TimestampOverlay.initial
    = Some st ->
    (forall blob,
        TimestampOverlay.processedVideoBlob st = Some blob ->
        blob_size blob <> 0%Z
        /\ exists first,
            TimestampOverlay.processedVideoName st
            = Some (TimestampOverlay.outputName first)
            /\ TimestampOverlay.handleDownload st
               = Some (blob, TimestampOverlay.outputName first))
    /\ (TimestampOverlay.processedVideoBlob st = None ->
        TimestampOverlay.processedVideoName st = None
        /\ TimestampOverlay.handleDownload st = None)
    /\ on_the_scale (TimestampOverlay.progress st)
    /\ TimestampOverlay.isProcessing st = false.
Proof.
  intros actions st Hsteps.
  assert (Hinit : settled TimestampOverlay.initial).
  { split; [exact I | split; [| reflexivity]].
    exists 0%Z. split; [lia | reflexivity]. }
  destruct (overlay_steps_settled actions _ st Hinit Hsteps) as (Hres & Hscale & Hidle).
  unfold result_consistent in Hres. unfold TimestampOverlay.handleDownload.
  destruct (TimestampOverlay.processedVideoBlob st) as [b |],
           (TimestampOverlay.processedVideoName st) as [n |];
    try contradiction.
  - destruct Hres as [Hsize [first ->]].
    split; [| split; [discriminate | split; assumption]].
    intros blob Hblob. injection Hblob as <-. split; [exact Hsize |].
    exists first. split; [reflexivity |].
    unfold TimestampOverlay.outputName.
    destruct (TimestampOverlay.strip_extension first); reflexivity.
  - split; [discriminate |]. split; [| split; assumption].
    intros _. split; reflexivity.
Qed.

End Process.

Lemma overlay_processing_outcome_witness :
  TimestampOverlay.videos OverlaySession.ready <> []
  /\ TimestampOverlay.isProcessing
       (fst (TimestampOverlay.handleProcess Examples.base_url Examples.render
               OverlaySession.server OverlaySession.ready)) = false
  /\ TimestampOverlay.processedVideoName
       (fst (TimestampOverlay.handleProcess Examples.base_url Examples.render
               OverlaySession.server OverlaySession.ready))
     = Some "match_timestamped.mp4".
Proof.
  assert (Hne : TimestampOverlay.videos OverlaySession.ready <> [])
    by (vm_compute; discriminate).
  split; [exact Hne |]. split; [| vm_compute; reflexivity].
  apply (proj1 (overlay_processing_outcome Examples.base_url Examples.render
                  OverlaySession.server OverlaySession.ready _ _ Hne
                  (surjective_pairing _))).
Defined.

Lemma overlay_download_matches_the_result_witness :
  TimestampOverlay.steps Examples.base_url Examples.render OverlaySession.actions
    TimestampOverlay.initial = Some OverlaySession.finished
  /\ TimestampOverlay.isProcessing OverlaySession.finished = false
  /\ TimestampOverlay.handleDownload OverlaySession.finished
     = Some ({| blob_size := 1024 |}, "match_timestamped.mp4").
Proof.
  assert (H : TimestampOverlay.steps Examples.base_url Examples.render
                OverlaySession.actions TimestampOverlay.initial
              = Some OverlaySession.finished) by (vm_compute; reflexivity).
  split; [exact H |]. split; [| vm_compute; reflexivity].
  apply (proj2 (proj2 (proj2 (overlay_download_matches_the_result
                                Examples.base_url Examples.render
                                OverlaySession.actions OverlaySession.finished H)))).
Defined.

Section OverlaySelection.

Variable media : File -> MediaOutcome.
Variable createObjectURL : File -> ObjectURL.

#[local] Arguments TimestampOverlay.validateVideo : simpl never.

#[local] Abbreviation accepted :=
  (fun f => valid (TimestampOverlay.validateVideo media (Some f))
            && is_url (createObjectURL f)).

Lemma overlay_validate_all_files (fileArray : list File) :
  forall (acc : list TimestampOverlay.VideoFile) (errs : list string),
    map TimestampOverlay.file
      (fst (TimestampOverlay.validate_all media createObjectURL fileArray acc errs))
    = map TimestampOverlay.file acc ++ filter accepted fileArray
    /\ List.length
         (snd (TimestampOverlay.validate_all media createObjectURL fileArray acc errs))
       = (List.length errs
          + List.length (filter (fun f => negb (accepted f)) fileArray))%nat.
Proof.
  induction fileArray as [| f rest IH]; intros acc errs; simpl.
  - rewrite app_nil_r. split; [reflexivity | lia].
  - destruct (valid (TimestampOverlay.validateVideo media (Some f))) eqn:Hvalid; simpl.
    + destruct (createObjectURL f) as [u | message]; simpl.
      * match goal with |- context [TimestampOverlay.validate_all _ _ rest ?a ?e] =>
          destruct (IH a e) as [IH1 IH2] end.
        rewrite IH1, IH2, map_app, <- app_assoc. split; reflexivity.
      * match goal with |- context [TimestampOverlay.validate_all _ _ rest ?a ?e] =>
          destruct (IH a e) as [IH1 IH2] end.
        rewrite IH1, IH2, length_app. simpl. split; [reflexivity | lia].
    + match goal with |- context [TimestampOverlay.validate_all _ _ rest ?a ?e] =>
        destruct (IH a e) as [IH1 IH2] end.
      rewrite IH1, IH2, length_app. simpl. split; [reflexivity | lia].
Qed.

(** X26. A selection in the overlay component that fits under the limit
    of six appends exactly the files accepted by validateVideo for which
    a preview URL could be made, in the order of the selection, discards
    the processed video and its name, and ends without an error exactly
    when every file was added. A selection over the limit only sets the
    error: the videos and the processed video stay. *)
Theorem overlay_selection_appends_the_accepted_files :
  forall (n : nat) (fileArray : list File) (st : TimestampOverlay.State),
    fileArray <> [] ->
    let st' := TimestampOverlay.handleFileSelect media createObjectURL n
                 (Some fileArray) st in
    ((n + List.length fileArray <= 6)%nat ->
     map TimestampOverlay.file (TimestampOverlay.videos st')
     = map TimestampOverlay.file (TimestampOverlay.videos st) ++ filter accepted fileArray
     /\ TimestampOverlay.processedVideoBlob st' = None
     /\ TimestampOverlay.processedVideoName st' = None
     /\ (TimestampOverlay.error st' = None <-> forallb accepted fileArray = true))
    /\ ((6 < n + List.length fileArray)%nat ->
        TimestampOverlay.videos st' = TimestampOverlay.videos st
        /\ TimestampOverlay.processedVideoBlob st'
           = TimestampOverlay.processedVideoBlob st
        /\ TimestampOverlay.processedVideoName st'
           = TimestampOverlay.processedVideoName st
        /\ TimestampOverlay.error st' = Some "Maximum 6 videos allowed").
Proof.
  intros n fileArray st Hne st'. subst st'.
  unfold TimestampOverlay.handleFileSelect.
  destruct fileArray as [| f rest]; [congruence |].
  split.
  - intros Hroom.
    assert (Hguard : (6 <? n + List.length (f :: rest))%nat = false)
      by (apply Nat.ltb_ge; exact Hroom).
    rewrite Hguard.
    destruct (overlay_validate_all_files (f :: rest) [] []) as [Hfiles Herrs].
    destruct (TimestampOverlay.validate_all media createObjectURL (f :: rest) [] [])
      as [vs errs].
    cbn [fst snd] in Hfiles, Herrs.
    cbn [TimestampOverlay.videos TimestampOverlay.processedVideoBlob
         TimestampOverlay.processedVideoName TimestampOverlay.error].
    split; [now rewrite map_app, Hfiles |]. split; [reflexivity |].
    split; [reflexivity |].
    assert (Hcount : forall l : list File,
               forallb accepted l = true <->
               List.length (filter (fun f => negb (accepted f)) l) = 0%nat).
    { induction l as [| x l IHl]; simpl; [tauto |].
      destruct (accepted x); simpl; [exact IHl | split; discriminate]. }
    change (List.length (@nil string)) with 0%nat in Herrs.
    rewrite Nat.add_0_l in Herrs. rewrite Hcount, <- Herrs.
    destruct errs as [| e errs]; simpl; [tauto |].
    destruct (List.length vs =? 0)%nat; split; discriminate.
  - intros Hmany. apply Nat.ltb_lt in Hmany. rewrite Hmany.
    repeat split.
Qed.

End OverlaySelection.

Lemma overlay_selection_appends_the_accepted_files_witness :
  [Examples.clip; Examples.empty_clip] <> []
  /\ map TimestampOverlay.file
       (TimestampOverlay.videos
          (TimestampOverlay.handleFileSelect Examples.plays Examples.blob_url 0
             (Some [Examples.clip; Examples.empty_clip]) TimestampOverlay.initial))
     = [Examples.clip].
Proof.
  assert (Hne : [Examples.clip; Examples.empty_clip] <> []) by discriminate.
  split; [exact Hne |].
  apply (proj1 (proj1 (overlay_selection_appends_the_accepted_files
                         Examples.plays Examples.blob_url 0
                         [Examples.clip; Examples.empty_clip]
                         TimestampOverlay.initial Hne)
                  ltac:(simpl; lia))).
Defined.
